(** * Knobble: the RTL-SDR scanner firmware (src/Firmware/main.py)

    A shallow embedding of the scan/squelch state machine, the signal
    meter and the demodulation paths of [RTLSDRScanner], and of the
    sibling audio path of src/Firmware/audio.py.

    Numbers.  Python floats are modelled as real numbers ([R]): every
    frequency of [SERVICE_RANGES] and every step is an integer far below
    2^53, so the additions and comparisons of the state machine are exact
    on them.  Python ints are [Z].

    Effects.  A method of the scanner is a computation [M A] over the
    scanner object: it may change [self.state], call the tuner (whose
    answers are given by an oracle indexed by the number of driver calls
    made so far), sleep, log, or raise.  A raise does not roll the object
    back: the handler sees the fields as the body left them. *)

From Stdlib Require Import Reals Lra Lia ZArith List Bool String.
Import ListNotations.
Open Scope R_scope.

(** ** Data model *)

Inductive ServiceType := FM_RADIO | AVIATION | EMERGENCY | AMATEUR | POLICE.
Inductive ScanMode := MANUAL | AUTO_SCAN | PRESET_SCAN.
Inductive ModulationType := FM | AM | NFM.

Record RadioPreset := mkPreset {
  preset_frequency : R;
  preset_name : string;
  preset_service_type : ServiceType;
  preset_modulation : ModulationType;
  preset_step_size : Z
}.

Record RadioState := mkState {
  frequency : R;
  volume : Z;
  service_type : ServiceType;
  scan_mode : ScanMode;
  preset_bank : Z;
  current_preset : Z;
  signal_strength : R;
  squelch_level : Z;
  is_scanning : bool;
  is_muted : bool
}.

(** [RadioState()] with the dataclass defaults. *)
Definition RadioState_default : RadioState :=
  mkState 88000000 50 FM_RADIO MANUAL 0 0 0 30 false false.

(** A complex baseband sample (I, Q). *)
Definition complex := (R * R)%type.

(** The tuner handle.  [read_samples k n] is what the [k]-th driver call
    answers when it is [read_samples(n)]: a chunk, or [None] when the call
    raises; [set_center_freq k hz] tells whether the [k]-th driver call,
    an assignment to [center_freq], succeeds. *)
Record RtlSdr := mkSdr {
  read_samples : nat -> nat -> option (list complex);
  set_center_freq : nat -> R -> bool
}.

Inductive Event :=
| Slept (seconds : R)
| Retuned (hz : R)
| RetuneFailed (hz : R)
| LoggedError (msg : string)
| LoggedInfo (msg : string)
| Played (pcm : list R).

(** The scanner object: the fields the modelled methods touch, the
    number of driver calls made so far and the trace of what was done. *)
Record Scanner := mkScanner {
  state : RadioState;
  presets : list (Z * list RadioPreset);
  sdr : option RtlSdr;
  usb : option RtlSdr;
  running : bool;
  calls : nat;
  trace : list Event
}.

Definition with_state (f : RadioState -> RadioState) (self : Scanner) : Scanner :=
  mkScanner (f (state self)) (presets self) (sdr self) (usb self)
            (running self) (calls self) (trace self).

Definition with_event (e : Event) (self : Scanner) : Scanner :=
  mkScanner (state self) (presets self) (sdr self) (usb self)
            (running self) (calls self) (trace self ++ [e]).

Definition with_call (self : Scanner) : Scanner :=
  mkScanner (state self) (presets self) (sdr self) (usb self)
            (running self) (S (calls self)) (trace self).

Definition with_sdr (d : option RtlSdr) (self : Scanner) : Scanner :=
  mkScanner (state self) (presets self) d (usb self)
            (running self) (calls self) (trace self).

Definition upd_frequency (f : R) (s : RadioState) : RadioState :=
  mkState f (volume s) (service_type s) (scan_mode s) (preset_bank s)
          (current_preset s) (signal_strength s) (squelch_level s)
          (is_scanning s) (is_muted s).

Definition upd_volume (v : Z) (s : RadioState) : RadioState :=
  mkState (frequency s) v (service_type s) (scan_mode s) (preset_bank s)
          (current_preset s) (signal_strength s) (squelch_level s)
          (is_scanning s) (is_muted s).

Definition upd_service_type (t : ServiceType) (s : RadioState) : RadioState :=
  mkState (frequency s) (volume s) t (scan_mode s) (preset_bank s)
          (current_preset s) (signal_strength s) (squelch_level s)
          (is_scanning s) (is_muted s).

Definition upd_scan_mode (m : ScanMode) (s : RadioState) : RadioState :=
  mkState (frequency s) (volume s) (service_type s) m (preset_bank s)
          (current_preset s) (signal_strength s) (squelch_level s)
          (is_scanning s) (is_muted s).

Definition upd_preset_bank (b : Z) (s : RadioState) : RadioState :=
  mkState (frequency s) (volume s) (service_type s) (scan_mode s) b
          (current_preset s) (signal_strength s) (squelch_level s)
          (is_scanning s) (is_muted s).

Definition upd_current_preset (i : Z) (s : RadioState) : RadioState :=
  mkState (frequency s) (volume s) (service_type s) (scan_mode s)
          (preset_bank s) i (signal_strength s) (squelch_level s)
          (is_scanning s) (is_muted s).

Definition upd_signal_strength (x : R) (s : RadioState) : RadioState :=
  mkState (frequency s) (volume s) (service_type s) (scan_mode s)
          (preset_bank s) (current_preset s) x (squelch_level s)
          (is_scanning s) (is_muted s).

Definition upd_is_scanning (b : bool) (s : RadioState) : RadioState :=
  mkState (frequency s) (volume s) (service_type s) (scan_mode s)
          (preset_bank s) (current_preset s) (signal_strength s)
          (squelch_level s) b (is_muted s).

(** ** Computations that may raise *)

Inductive outcome (A : Type) :=
| Returned (a : A)
| Raised.
Arguments Returned {A} a.
Arguments Raised {A}.

Definition M (A : Type) : Type := Scanner -> outcome A * Scanner.

Definition ret {A} (a : A) : M A := fun self => (Returned a, self).

Definition bind {A B} (m : M A) (k : A -> M B) : M B :=
  fun self =>
    match m self with
    | (Returned a, self') => k a self'
    | (Raised, self') => (Raised, self')
    end.

Definition raise {A} : M A := fun self => (Raised, self).

(** [try: body  except Exception: handler]. *)
Definition try_except {A} (body handler : M A) : M A :=
  fun self =>
    match body self with
    | (Returned a, self') => (Returned a, self')
    | (Raised, self') => handler self'
    end.

Declare Scope scanner_scope.
Delimit Scope scanner_scope with scanner.
Notation "x <- m ;; k" := (bind m (fun x => k))
  (at level 61, m at next level, right associativity) : scanner_scope.
Notation "m ;;; k" := (bind m (fun _ => k))
  (at level 61, right associativity) : scanner_scope.
Open Scope scanner_scope.

Definition get_self : M Scanner := fun self => (Returned self, self).
Definition get_state : M RadioState := fun self => (Returned (state self), self).
Definition modify_state (f : RadioState -> RadioState) : M unit :=
  fun self => (Returned tt, with_state f self).
Definition emit (e : Event) : M unit :=
  fun self => (Returned tt, with_event e self).
Definition sleep (seconds : R) : M unit := emit (Slept seconds).
Definition log_error (msg : string) : M unit := emit (LoggedError msg).
Definition log_info (msg : string) : M unit := emit (LoggedInfo msg).

(** [self.sdr.read_samples(n)] on the handle [dev]. *)
Definition sdr_read_samples (dev : RtlSdr) (n : nat) : M (list complex) :=
  fun self =>
    match read_samples dev (calls self) n with
    | Some chunk => (Returned chunk, with_call self)
    | None => (Raised, with_call self)
    end.

(** [self.sdr.center_freq = hz] on the handle [dev]. *)
Definition sdr_set_center_freq (dev : RtlSdr) (hz : R) : M unit :=
  fun self =>
    if set_center_freq dev (calls self) hz
    then (Returned tt, with_event (Retuned hz) (with_call self))
    else (Raised, with_event (RetuneFailed hz) (with_call self)).

(** [if self.sdr: self.sdr.center_freq = self.state.frequency]. *)
Definition retune_if_sdr : M unit :=
  self <- get_self ;;
  match sdr self with
  | Some dev => sdr_set_center_freq dev (frequency (state self))
  | None => ret tt
  end.

(** ** Constants of [RTLSDRScanner.__init__] *)

Definition SAMPLE_RATE : Z := 2048000.
Definition AUDIO_RATE : Z := 48000.
Definition CHUNK_SIZE : nat := 1024.

Definition SERVICE_RANGES (t : ServiceType) : R * R * Z * ModulationType :=
  match t with
  | FM_RADIO => (88000000, 108000000, 100000%Z, FM)
  | AVIATION => (118000000, 137000000, 25000%Z, AM)
  | EMERGENCY => (146000000, 174000000, 12500%Z, NFM)
  | AMATEUR => (144000000, 148000000, 25000%Z, FM)
  | POLICE => (400000000, 470000000, 12500%Z, NFM)
  end.

Definition min_freq_of (t : ServiceType) : R := fst (fst (fst (SERVICE_RANGES t))).
Definition max_freq_of (t : ServiceType) : R := snd (fst (fst (SERVICE_RANGES t))).
Definition step_of (t : ServiceType) : Z := snd (fst (SERVICE_RANGES t)).
Definition modulation_of (t : ServiceType) : ModulationType := snd (SERVICE_RANGES t).

(** ** numpy on real numbers *)

Definition np_abs (z : complex) : R := sqrt (fst z * fst z + snd z * snd z).

Definition np_sum (l : list R) : R := fold_right Rplus 0 l.

(** [np.mean]: on an empty array numpy answers NaN, which fails every
    comparison; here the quotient by zero is 0, which fails [0 < _] too. *)
Definition np_mean (l : list R) : R := np_sum l / INR (List.length l).

Definition np_log10 (x : R) : R := ln x / ln 10.

(** Python's [max(a, b)] and [min(a, b)] on numbers. *)
Definition py_max (a b : R) : R := if Rlt_dec a b then b else a.
Definition py_min (a b : R) : R := if Rlt_dec b a then b else a.

(** ** Signal meter *)

(** The arithmetic of [_get_signal_strength] on a chunk that was read. *)
Definition chunk_power (samples : list complex) : R :=
  np_mean (map (fun z => np_abs z ^ 2) samples).

Definition strength_of_power (power : R) : R :=
  if Rlt_dec 0 power
  then py_max 0 (py_min 100 ((10 * np_log10 power + 30) + 100))
  else 0.

Definition _get_signal_strength : M R :=
  try_except
    (self <- get_self ;;
     match sdr self with
     | None => ret 0
     | Some dev =>
         samples <- sdr_read_samples dev 1024 ;;
         let power := chunk_power samples in
         modify_state (upd_signal_strength (strength_of_power power)) ;;;
         s <- get_state ;;
         ret (signal_strength s)
     end)
    (log_error "Signal strength error" ;;; ret 0).

(** ** Scan/squelch state machine *)

(** [d[k]] membership and lookup on [self.presets]. *)
Fixpoint dict_get {V} (k : Z) (d : list (Z * V)) : option V :=
  match d with
  | [] => None
  | (k', v) :: rest => if Z.eqb k k' then Some v else dict_get k rest
  end.

(** [len(x)] as a Python int. *)
Definition len {A} (l : list A) : Z := Z.of_nat (List.length l).
Arguments len : simpl never.

(** [l[i]] for a Python int [i]: negative indices count from the end and
    an index out of range raises. *)
Definition py_getitem {A} (l : list A) (i : Z) : option A :=
  if (0 <=? i)%Z then nth_error l (Z.to_nat i)
  else if (- len l <=? i)%Z then nth_error l (Z.to_nat (len l + i))
  else None.

Definition _tune_frequency (direction : Z) : M unit :=
  try_except
    (s <- get_state ;;
     let '(min_freq, max_freq, step, _) := SERVICE_RANGES (service_type s) in
     let new_freq := frequency s + IZR (direction * step) in
     let new_freq := py_max min_freq (py_min max_freq new_freq) in
     if Req_dec_T new_freq (frequency s) then ret tt
     else
       modify_state (upd_frequency new_freq) ;;;
       retune_if_sdr ;;;
       log_info "Tuned")
    (log_error "Frequency tuning error").

Definition _adjust_volume (direction : Z) : M unit :=
  try_except
    (s <- get_state ;;
     let new_volume := (volume s + direction * 5)%Z in
     modify_state (upd_volume (Z.max 0 (Z.min 100 new_volume))) ;;;
     log_info "Volume")
    (log_error "Volume adjustment error").

Definition ScanMode_next (m : ScanMode) : ScanMode :=
  match m with
  | MANUAL => AUTO_SCAN
  | AUTO_SCAN => PRESET_SCAN
  | PRESET_SCAN => MANUAL
  end.

Definition _toggle_scan_mode : M unit :=
  try_except
    (modify_state (fun s => upd_scan_mode (ScanMode_next (scan_mode s)) s) ;;;
     log_info "Scan mode")
    (log_error "Scan mode toggle error").

Definition ServiceType_next (t : ServiceType) : ServiceType :=
  match t with
  | FM_RADIO => AVIATION
  | AVIATION => EMERGENCY
  | EMERGENCY => AMATEUR
  | AMATEUR => POLICE
  | POLICE => FM_RADIO
  end.

(** [_setup_sdr]: the handle is replaced by the one the driver opens
    ([usb], absent when [RtlSdr()] raises) and tuned to the current
    frequency; a failure is logged and raised again. *)
Definition _setup_sdr : M unit :=
  try_except
    (self <- get_self ;;
     match usb self with
     | None => raise
     | Some dev =>
         (fun self => (Returned tt, with_sdr (Some dev) self)) ;;;
         sdr_set_center_freq dev (frequency (state self)) ;;;
         log_info "SDR setup completed"
     end)
    (log_error "SDR setup failed" ;;; raise).

Definition _cycle_service_type : M unit :=
  try_except
    (modify_state (fun s => upd_service_type (ServiceType_next (service_type s)) s) ;;;
     s <- get_state ;;
     let '(min_freq, _, _, _) := SERVICE_RANGES (service_type s) in
     modify_state (upd_frequency min_freq) ;;;
     _setup_sdr ;;;
     log_info "Service type")
    (log_error "Service type cycling error").

(** The body of [_switch1_callback] once the pin reads low.  Python's
    [%] by zero raises. *)
Definition _switch1_callback : M unit :=
  try_except
    (self <- get_self ;;
     if (len (presets self) =? 0)%Z then raise
     else
       modify_state (fun s =>
         upd_current_preset 0
           (upd_preset_bank ((preset_bank s + 1) mod len (presets self)) s)) ;;;
       log_info "Switched to preset bank")
    (log_error "Switch 1 callback error").

Definition _auto_scan : M unit :=
  try_except
    (s <- get_state ;;
     let '(min_freq, max_freq, step, _) := SERVICE_RANGES (service_type s) in
     strength <- _get_signal_strength ;;
     s <- get_state ;;
     if Rlt_dec (IZR (squelch_level s)) strength then sleep 2
     else
       let new_freq := frequency s + IZR step in
       let new_freq := if Rlt_dec max_freq new_freq then min_freq else new_freq in
       modify_state (upd_frequency new_freq) ;;;
       retune_if_sdr ;;;
       sleep (1 / 10))
    (log_error "Auto scan error").

Definition _preset_scan : M unit :=
  try_except
    (self <- get_self ;;
     match dict_get (preset_bank (state self)) (presets self) with
     | None => ret tt
     | Some bank =>
         match bank with
         | [] => ret tt
         | _ :: _ =>
             strength <- _get_signal_strength ;;
             s <- get_state ;;
             if Rlt_dec (IZR (squelch_level s)) strength then sleep 2
             else
               modify_state (fun s =>
                 upd_current_preset ((current_preset s + 1) mod len bank) s) ;;;
               s <- get_state ;;
               match py_getitem bank (current_preset s) with
               | None => raise
               | Some preset =>
                   modify_state (upd_frequency (preset_frequency preset)) ;;;
                   retune_if_sdr ;;;
                   sleep (1 / 2)
               end
         end
     end)
    (log_error "Preset scan error").

(** One pass of the body of the [while] of [_scan_worker]. *)
Definition scan_tick : M unit :=
  s <- get_state ;;
  match scan_mode s with
  | AUTO_SCAN => _auto_scan
  | PRESET_SCAN => _preset_scan
  | MANUAL => ret tt
  end ;;;
  sleep (1 / 10).

(** The [while self.state.is_scanning and self.running] loop, for at most
    [fuel] passes. The result tells whether the loop was left by its
    condition ([true]) or is still running when the fuel is spent. *)
Fixpoint scan_loop (fuel : nat) : M bool :=
  match fuel with
  | O => ret false
  | S fuel' =>
      self <- get_self ;;
      if is_scanning (state self) && running self
      then scan_tick ;;; scan_loop fuel'
      else ret true
  end.

Definition _scan_worker (fuel : nat) : M bool :=
  try_except
    (scan_loop fuel)
    (log_error "Scan worker error" ;;;
     modify_state (upd_is_scanning false) ;;;
     ret true).

Definition _toggle_scan : M unit :=
  try_except
    (modify_state (fun s => upd_is_scanning (negb (is_scanning s)) s) ;;;
     s <- get_state ;;
     if is_scanning s then log_info "Scanning started"
     else modify_state (upd_is_scanning false) ;;; log_info "Scanning stopped")
    (log_error "Scan toggle error").

(** The scanner after running a method on it. *)
Definition exec {A} (m : M A) (self : Scanner) : Scanner := snd (m self).
Definition result {A} (m : M A) (self : Scanner) : outcome A := fst (m self).

(** ** Demodulation *)

(** [np.angle(z)] is [arctan2(z.imag, z.real)]. *)
Definition np_arctan2 (y x : R) : R :=
  if Rlt_dec 0 x then atan (y / x)
  else if Rlt_dec x 0 then
    (if Rle_dec 0 y then atan (y / x) + PI else atan (y / x) - PI)
  else if Rlt_dec 0 y then PI / 2
  else if Rlt_dec y 0 then - PI / 2
  else 0.

Definition np_angle (z : complex) : R := np_arctan2 (snd z) (fst z).

(** [np.diff]: [out[i] = a[i+1] - a[i]]. *)
Fixpoint np_diff (a : list R) : list R :=
  match a with
  | [] => []
  | x :: rest =>
      match rest with
      | [] => []
      | y :: _ => (y - x) :: np_diff rest
      end
  end.

(** [np.cumsum], with the sum of what came before in [acc]. *)
Fixpoint cumsum_from (acc : R) (a : list R) : list R :=
  match a with
  | [] => []
  | x :: rest => (acc + x) :: cumsum_from (acc + x) rest
  end.

Definition np_cumsum (a : list R) : list R := cumsum_from 0 a.

(** [np.mod(x, m)] on floats: the remainder has the sign of [m]. *)
Definition np_mod (x m : R) : R := x - m * IZR (Int_part (x / m)).

(** [a + b] on arrays of equal length. *)
Fixpoint np_add (a b : list R) : list R :=
  match a, b with
  | x :: a', y :: b' => (x + y) :: np_add a' b'
  | _, _ => []
  end.

(** The phase correction [np.unwrap] computes for one step [dd] of the
    wrapped phase (period [2*pi], [discont = pi]). *)
Definition ph_correct (dd : R) : R :=
  let interval_high := 2 * PI / 2 in
  let interval_low := - interval_high in
  let ddmod := np_mod (dd - interval_low) (2 * PI) + interval_low in
  let ddmod :=
    if Req_dec_T ddmod interval_low
    then (if Rlt_dec 0 dd then interval_high else ddmod)
    else ddmod in
  if Rlt_dec (Rabs dd) PI then 0 else ddmod - dd.

(** [np.unwrap(p)]: [up[0] = p[0]], [up[1:] = p[1:] + cumsum(ph_correct)]. *)
Definition np_unwrap (p : list R) : list R :=
  match p with
  | [] => []
  | p0 :: p1 => p0 :: np_add p1 (np_cumsum (map ph_correct (np_diff p)))
  end.

(** [scipy.signal.lfilter(b, a, x)] with zero initial conditions:
    [a[0]*y[n] = sum_k b[k]*x[n-k] - sum_{k>=1} a[k]*y[n-k]].  The two
    histories are kept newest first. *)
Fixpoint dot (c h : list R) : R :=
  match c, h with
  | c0 :: c', h0 :: h' => c0 * h0 + dot c' h'
  | _, _ => 0
  end.

Fixpoint lfilter_from (b a : list R) (xh yh : list R) (x : list R) : list R :=
  match x with
  | [] => []
  | xn :: rest =>
      let yn := (dot b (xn :: xh) - dot (tl a) yh) / hd 1 a in
      yn :: lfilter_from b a (xn :: xh) (yn :: yh) rest
  end.

Definition lfilter (b a x : list R) : list R := lfilter_from b a [] [] x.

(** [y[::q]] for a positive step. *)
Fixpoint stride_from (skip q : nat) (y : list R) : list R :=
  match y with
  | [] => []
  | v :: rest =>
      match skip with
      | O => v :: stride_from (q - 1) q rest
      | S k => stride_from k q rest
      end
  end.

Definition stride (q : nat) (y : list R) : list R := stride_from 0 q y.

(** The zero-phase low-pass filter inside [scipy.signal.decimate(x, q)]
    (an order 8 Chebyshev filter run forward and backward by [filtfilt])
    is not part of this repository.  It is taken with the two properties
    of [filtfilt] the results below rest on: it refuses (raises) an
    input no longer than its padding of [3 * 9] samples, and otherwise
    returns as many samples as it was given. *)
Definition padlen : nat := 27.

Record Scipy := mkScipy {
  filtfilt : Z -> list R -> option (list R);
  filtfilt_short : forall q x,
    (List.length x <= padlen)%nat -> filtfilt q x = None;
  filtfilt_length : forall q x,
    (padlen < List.length x)%nat ->
    exists y, filtfilt q x = Some y /\ List.length y = List.length x
}.

(** [scipy.signal.decimate(x, q)]: filter, then keep every [q]-th sample. *)
Definition decimate (lib : Scipy) (x : list R) (q : Z) : option (list R) :=
  match filtfilt lib q x with
  | Some y => Some (stride (Z.to_nat q) y)
  | None => None
  end.

Definition decimation : Z := (SAMPLE_RATE / AUDIO_RATE)%Z.

(** [np.diff(np.unwrap(np.angle(samples)))]. *)
Definition fm_deviation (samples : list complex) : list R :=
  np_diff (np_unwrap (map np_angle samples)).

Definition tau : R := 75 / 1000000.
Definition alpha : R := 1 - exp (- 1 / (IZR AUDIO_RATE * tau)).

(** What the demodulators return: [np.array([])] when anything in them
    raises; [astype(np.float32)] is the identity on the reals.  Their
    [except] clauses, which also log, are in the methods below. *)
Definition _demodulate_fm (lib : Scipy) (samples : list complex) : list R :=
  let angle := map np_angle samples in
  let fm_demod := np_diff (np_unwrap angle) in
  match decimate lib fm_demod decimation with
  | None => []
  | Some audio =>
      let deemph := lfilter [alpha] [1; alpha - 1] audio in
      deemph
  end.

Definition _demodulate_am (lib : Scipy) (samples : list complex) : list R :=
  let am_demod := map np_abs samples in
  let mean := np_mean am_demod in
  let am_demod := map (fun v => v - mean) am_demod in
  match decimate lib am_demod decimation with
  | None => []
  | Some audio => audio
  end.

Definition _demodulate_nfm (lib : Scipy) (samples : list complex) : list R :=
  let angle := map np_angle samples in
  let nfm_demod := map (fun v => v * (1 / 2)) (np_diff (np_unwrap angle)) in
  match decimate lib nfm_demod decimation with
  | None => []
  | Some audio => audio
  end.

Definition _demodulate (lib : Scipy) (s : RadioState) (samples : list complex)
  : option (list R) :=
  match modulation_of (service_type s) with
  | FM => Some (_demodulate_fm lib samples)
  | AM => Some (_demodulate_am lib samples)
  | NFM => Some (_demodulate_nfm lib samples)
  end.

(** [scipy_signal.decimate(x, q)] as a call: the filter's refusal is an
    exception. *)
Definition scipy_decimate (lib : Scipy) (x : list R) (q : Z) : M (list R) :=
  match decimate lib x q with
  | Some y => ret y
  | None => raise
  end.

(** The demodulators as the methods they are, each a [try] whose
    [except Exception] clause logs the error and returns
    [np.array([])]. *)
Definition _demodulate_fm_method (lib : Scipy) (samples : list complex)
  : M (list R) :=
  try_except
    (let angle := map np_angle samples in
     let fm_demod := np_diff (np_unwrap angle) in
     audio <- scipy_decimate lib fm_demod decimation ;;
     let deemph := lfilter [alpha] [1; alpha - 1] audio in
     ret deemph)
    (log_error "FM demodulation error" ;;; ret []).

Definition _demodulate_am_method (lib : Scipy) (samples : list complex)
  : M (list R) :=
  try_except
    (let am_demod := map np_abs samples in
     let mean := np_mean am_demod in
     let am_demod := map (fun v => v - mean) am_demod in
     audio <- scipy_decimate lib am_demod decimation ;;
     ret audio)
    (log_error "AM demodulation error" ;;; ret []).

Definition _demodulate_nfm_method (lib : Scipy) (samples : list complex)
  : M (list R) :=
  try_except
    (let angle := map np_angle samples in
     let nfm_demod := map (fun v => v * (1 / 2)) (np_diff (np_unwrap angle)) in
     audio <- scipy_decimate lib nfm_demod decimation ;;
     ret audio)
    (log_error "NFM demodulation error" ;;; ret []).

Definition _demodulate_method (lib : Scipy) (samples : list complex)
  : M (option (list R)) :=
  try_except
    (s <- get_state ;;
     match modulation_of (service_type s) with
     | FM => audio <- _demodulate_fm_method lib samples ;; ret (Some audio)
     | AM => audio <- _demodulate_am_method lib samples ;; ret (Some audio)
     | NFM => audio <- _demodulate_nfm_method lib samples ;; ret (Some audio)
     end)
    (log_error "Demodulation error" ;;; ret None).

(** What one pass of [_audio_worker] hands to [astype(np.int16)] for a
    demodulated chunk: [audio_data * (volume / 100.0) * 32767]. *)
Definition audio_worker_scaled (volume : Z) (audio_data : list R) : list R :=
  map (fun v => v * (IZR volume / 100)) audio_data.

Definition audio_worker_pcm (volume : Z) (audio_data : list R) : list R :=
  map (fun v => v * 32767) (audio_worker_scaled volume audio_data).

(** One pass of the [while self.running] loop of [_audio_worker].  What
    goes to the sink is recorded as the values handed to
    [astype(np.int16)]. *)
Definition audio_worker_pass (lib : Scipy) : M unit :=
  self <- get_self ;;
  match sdr self with
  | None => sleep (1 / 100)
  | Some dev =>
      if is_muted (state self) then sleep (1 / 100)
      else
        samples <- sdr_read_samples dev (CHUNK_SIZE * 4) ;;
        audio_data <- _demodulate_method lib samples ;;
        match audio_data with
        | None => ret tt
        | Some [] => ret tt
        | Some audio_data =>
            s <- get_state ;;
            emit (Played (audio_worker_pcm (volume s) audio_data))
        end
  end.

(** The sibling path, [AudioOutput._demodulate] of src/Firmware/audio.py,
    after its decimation: scale, [np.clip(audio, -1, 1)], then the same
    conversion. *)
Definition np_clip (lo hi v : R) : R := py_min hi (py_max lo v).

Definition AudioOutput_scaled (volume : Z) (audio : list R) : list R :=
  map (np_clip (-1) 1) (map (fun v => v * (IZR volume / 100)) audio).

Definition AudioOutput_pcm (volume : Z) (audio : list R) : list R :=
  map (fun v => v * 32767) (AudioOutput_scaled volume audio).

(** ** Notions the statements are written in *)

(** The value a measurement returns and the scanner it leaves. *)
Definition measured (self : Scanner) : R :=
  match result _get_signal_strength self with
  | Returned r => r
  | Raised => 0
  end.

Definition after_measure (self : Scanner) : Scanner := exec _get_signal_strength self.
Arguments measured : simpl never.
Arguments after_measure : simpl never.

(** A tick finds the channel unoccupied when the measurement is not
    above the squelch level. *)
Definition unoccupied (self : Scanner) : Prop :=
  ~ IZR (squelch_level (state self)) < measured self.

(** [self.presets.get(self.state.preset_bank)]. *)
Definition current_bank (self : Scanner) : option (list RadioPreset) :=
  dict_get (preset_bank (state self)) (presets self).

(** The frequency an advancing auto-scan tick moves to. *)
Definition auto_scan_next (s : RadioState) : R :=
  let new_freq := frequency s + IZR (step_of (service_type s)) in
  if Rlt_dec (max_freq_of (service_type s)) new_freq
  then min_freq_of (service_type s)
  else new_freq.

(** The frequency lies in the band of the state's service type. *)
Definition in_band (s : RadioState) : Prop :=
  min_freq_of (service_type s) <= frequency s <= max_freq_of (service_type s).

(** What was appended to the trace between two scanners. *)
Definition events_since (before after : Scanner) : list Event :=
  skipn (List.length (trace before)) (trace after).

(** A retune failed between [before] and [after]: an assignment to the
    tuner's [center_freq] raised. *)
Definition retune_failed (before after : Scanner) : Prop :=
  exists hz, In (RetuneFailed hz) (events_since before after).

(** The message the demodulator of a modulation logs when it fails. *)
Definition demodulation_error (m : ModulationType) : string :=
  match m with
  | FM => "FM demodulation error"
  | AM => "AM demodulation error"
  | NFM => "NFM demodulation error"
  end.

(** One step of the unwrapped phase: the raw step plus its correction. *)
Definition unwrapped_step (a b : R) : R := (b - a) + ph_correct (b - a).

(** The steps between the neighbours of a phase sequence. *)
Fixpoint steps (p : list R) : list R :=
  match p with
  | [] => []
  | x :: rest =>
      match rest with
      | [] => []
      | y :: _ => unwrapped_step x y :: steps rest
      end
  end.

(** The de-emphasis filter as a recurrence on the previous output. *)
Fixpoint deemph_from (prev : R) (x : list R) : list R :=
  match x with
  | [] => []
  | xn :: rest =>
      let yn := alpha * xn + (1 - alpha) * prev in
      yn :: deemph_from yn rest
  end.

(** ** The spec's words *)

(** Mean power is the mean of [I^2 + Q^2], and [clamp(x, lo, hi)]
    confines [x] to [[lo, hi]]. *)
Definition mean_power (samples : list complex) : R :=
  np_sum (map (fun z => fst z * fst z + snd z * snd z) samples)
  / INR (List.length samples).

Definition clamp (x lo hi : R) : R := Rmax lo (Rmin hi x).

(** The FM pipeline with its two knobs: the factor applied to the phase
    deviation before decimation, and whether the de-emphasis filter is
    run on the decimated audio. *)
Definition fm_pipeline (lib : Scipy) (gain : R) (deemphasis : bool)
  (samples : list complex) : list R :=
  let deviation := map (fun v => v * gain) (fm_deviation samples) in
  match decimate lib deviation decimation with
  | None => []
  | Some audio =>
      if deemphasis then lfilter [alpha] [1; alpha - 1] audio else audio
  end.

(** NFM in the spec's words: the FM pipeline, the deviation scaled by
    0.5 before decimation, every later stage as in FM. *)
Definition nfm_as_specified (lib : Scipy) (samples : list complex) : list R :=
  fm_pipeline lib (1 / 2) true samples.

(** ** Example tuners, scanners and chunks *)

(** The banks [_create_default_config] writes. *)
Definition default_presets : list (Z * list RadioPreset) :=
  [ (0%Z, [ mkPreset 93500000 "FM Rainbow" FM_RADIO FM 25000;
            mkPreset 98300000 "Radio Mirchi" FM_RADIO FM 25000;
            mkPreset 104000000 "Red FM" FM_RADIO FM 25000 ]);
    (1%Z, [ mkPreset 121500000 "Emergency" AVIATION AM 25000;
            mkPreset 118100000 "Tower" AVIATION AM 25000;
            mkPreset 119100000 "Ground" AVIATION AM 25000 ]);
    (2%Z, [ mkPreset 146520000 "Repeater" EMERGENCY NFM 25000;
            mkPreset 156800000 "Marine VHF" EMERGENCY NFM 25000 ]) ].

(** A tuner that answers every read with [n] copies of one sample and
    accepts every retune; one whose reads raise; one that hears silence
    and refuses every retune. *)
Definition steady_sdr (z : complex) : RtlSdr :=
  mkSdr (fun _ n => Some (repeat z n)) (fun _ _ => true).

Definition deaf_sdr : RtlSdr := mkSdr (fun _ _ => None) (fun _ _ => true).

Definition stuck_sdr : RtlSdr :=
  mkSdr (fun _ n => Some (repeat (0, 0) n)) (fun _ _ => false).

(** The scanner as [start] leaves it: running, the tuner [d] open (or
    none), nothing done yet. *)
Definition scanner_on (d : option RtlSdr) (banks : list (Z * list RadioPreset))
  (s : RadioState) : Scanner :=
  mkScanner s banks d d true 0 [].

(** The scanner on the default configuration: as [__init__] leaves it,
    before [start] opens the tuner, and once started on a silent band. *)
Definition fresh_scanner : Scanner :=
  mkScanner RadioState_default default_presets None (Some (steady_sdr (0, 0))) false 0 [].

Definition started_scanner : Scanner :=
  scanner_on (Some (steady_sdr (0, 0))) default_presets RadioState_default.

(** A sample of power [10^-7] (strength 60) and one of power [10^-9]
    (strength 40). *)
Definition sample_60 : complex := (3 / 10 ^ 4, 1 / 10 ^ 4).
Definition sample_40 : complex := (3 / 10 ^ 5, 1 / 10 ^ 5).

(** A state auto-scanning the FM band from [f] with the squelch at 50,
    and the default state auto-scanning. *)
Definition state_squelch_50 (f : R) : RadioState :=
  mkState f 50 FM_RADIO AUTO_SCAN 0 0 0 50 true false.

Definition auto_scanning_state : RadioState :=
  mkState 88000000 50 FM_RADIO AUTO_SCAN 0 0 0 30 true false.

Definition stuck_scanner : Scanner :=
  scanner_on (Some stuck_sdr) default_presets auto_scanning_state.

(** A carrier that turns a quarter after its first sample, and [n]
    turns of a carrier a quarter of the sample rate off centre. *)
Definition quarter_step_chunk : list complex := (1, 0) :: repeat (0, 1) 28.

Fixpoint rotating (n : nat) : list complex :=
  match n with
  | O => []
  | S k => (1, 0) :: (0, 1) :: (-1, 0) :: (0, -1) :: rotating k
  end.

(** The identity in place of the low-pass filter: it shows that the two
    properties asked of [filtfilt] can be met together. *)
Definition naive_filtfilt (q : Z) (x : list R) : option (list R) :=
  if (List.length x <=? padlen)%nat then None else Some x.

Lemma naive_filtfilt_short (q : Z) (x : list R) :
  (List.length x <= padlen)%nat -> naive_filtfilt q x = None.
Proof.
  intros H. unfold naive_filtfilt. apply Nat.leb_le in H. now rewrite H.
Qed.

Lemma naive_filtfilt_length (q : Z) (x : list R) :
  (padlen < List.length x)%nat ->
  exists y, naive_filtfilt q x = Some y /\ List.length y = List.length x.
Proof.
  intros H. unfold naive_filtfilt. apply Nat.leb_gt in H. rewrite H.
  exists x. auto.
Qed.

Definition naive_scipy : Scipy :=
  mkScipy naive_filtfilt naive_filtfilt_short naive_filtfilt_length.

(** ** More of [RTLSDRScanner] *)

Definition upd_is_muted (b : bool) (s : RadioState) : RadioState :=
  mkState (frequency s) (volume s) (service_type s) (scan_mode s)
          (preset_bank s) (current_preset s) (signal_strength s)
          (squelch_level s) (is_scanning s) b.

Definition upd_squelch_level (q : Z) (s : RadioState) : RadioState :=
  mkState (frequency s) (volume s) (service_type s) (scan_mode s)
          (preset_bank s) (current_preset s) (signal_strength s)
          q (is_scanning s) (is_muted s).

Definition _toggle_mute : M unit :=
  try_except
    (modify_state (fun s => upd_is_muted (negb (is_muted s)) s) ;;;
     log_info "Mute")
    (log_error "Mute toggle error").

(** [_encoder_callback], given the levels [GPIO.input] reads on the
    encoder's clock, data and switch pins. *)
Definition _encoder_callback (clk_state dt_state sw_state : Z) : M unit :=
  try_except
    (if (clk_state =? 0)%Z then
       if (dt_state =? 1)%Z then
         (if (sw_state =? 0)%Z then _tune_frequency 1 else _adjust_volume 1)
       else
         (if (sw_state =? 0)%Z then _tune_frequency (-1) else _adjust_volume (-1))
     else ret tt)
    (log_error "Encoder callback error").

(** The [while self.running] loop of [_audio_worker], for at most [fuel]
    passes; the result tells whether the loop was left by its condition.
    The [try] is around the whole loop: a raise in a pass ends it. *)
Fixpoint audio_loop (lib : Scipy) (fuel : nat) : M bool :=
  match fuel with
  | O => ret false
  | S fuel' =>
      self <- get_self ;;
      if running self
      then audio_worker_pass lib ;;; audio_loop lib fuel'
      else ret true
  end.

Definition _audio_worker (lib : Scipy) (fuel : nat) : M bool :=
  try_except
    (audio_loop lib fuel)
    (log_error "Audio worker error" ;;; ret true).

(** A method run once for each argument of a list, in order. *)
Definition run_each {A} (m : A -> M unit) (l : list A) (self : Scanner) : Scanner :=
  fold_left (fun acc a => exec (m a) acc) l self.

(** The centred envelope [_demodulate_am] decimates. *)
Definition am_centred (samples : list complex) : list R :=
  let am_demod := map np_abs samples in
  map (fun v => v - np_mean am_demod) am_demod.

(** The started scanner with the audio muted. *)
Definition fresh_started_muted : Scanner :=
  scanner_on (Some (steady_sdr (0, 0))) default_presets
    (upd_is_muted true RadioState_default).

(** ** Configuration file *)

(** The configuration file holds a JSON object.  Its two entries are
    modelled with the types of the values the program writes there: an
    absent key is [None].  The file itself is an [option Config]: [None]
    when it does not exist.  Writing it is taken to succeed. *)
Record PresetData := mkPresetData {
  pd_frequency : option R;
  pd_name : option string;
  pd_service_type : option string;
  pd_modulation : option string;
  pd_step_size : option Z
}.

Record LastState := mkLastState {
  ls_frequency : option R;
  ls_volume : option Z;
  ls_service_type : option string;
  ls_preset_bank : option Z;
  ls_squelch_level : option Z
}.

Record Config := mkConfig {
  cfg_presets : option (list (string * list PresetData));
  cfg_last_state : option LastState
}.

(** [t.value], and [ServiceType(v)], which raises on any other string. *)
Definition ServiceType_value (t : ServiceType) : string :=
  match t with
  | FM_RADIO => "FM Radio"
  | AVIATION => "Aviation"
  | EMERGENCY => "Emergency"
  | AMATEUR => "Amateur"
  | POLICE => "Police"
  end.

Definition ServiceType_of_value (v : string) : option ServiceType :=
  if String.eqb v "FM Radio" then Some FM_RADIO
  else if String.eqb v "Aviation" then Some AVIATION
  else if String.eqb v "Emergency" then Some EMERGENCY
  else if String.eqb v "Amateur" then Some AMATEUR
  else if String.eqb v "Police" then Some POLICE
  else None.

Definition ModulationType_of_value (v : string) : option ModulationType :=
  if String.eqb v "FM" then Some FM
  else if String.eqb v "AM" then Some AM
  else if String.eqb v "NFM" then Some NFM
  else None.

(** [d.get(key, default)]. *)
Definition get_or {A} (v : option A) (default : A) : A :=
  match v with
  | Some a => a
  | None => default
  end.

(** [d[k] = v] on a dict kept in insertion order. *)
Fixpoint dict_set {V} (k : Z) (v : V) (d : list (Z * V)) : list (Z * V) :=
  match d with
  | [] => [(k, v)]
  | (k', v') :: rest =>
      if Z.eqb k k' then (k, v) :: rest else (k', v') :: dict_set k v rest
  end.

Definition with_presets (d : list (Z * list RadioPreset)) (self : Scanner) : Scanner :=
  mkScanner (state self) d (sdr self) (usb self) (running self) (calls self) (trace self).

(** [RadioPreset(frequency=data['frequency'], ...)]: a missing key or an
    unknown enum value raises. *)
Definition parse_preset (data : PresetData) : option RadioPreset :=
  match pd_frequency data, pd_name data with
  | Some f, Some n =>
      match pd_service_type data with
      | Some st =>
          match ServiceType_of_value st with
          | Some t =>
              match pd_modulation data with
              | Some md =>
                  match ModulationType_of_value md with
                  | Some m => Some (mkPreset f n t m (get_or (pd_step_size data) 25000%Z))
                  | None => None
                  end
              | None => None
              end
          | None => None
          end
      | None => None
      end
  | _, _ => None
  end.

(** The inner loop of [_load_config]: the presets appended to the bank
    so far, and whether the loop came to its end. *)
Fixpoint load_bank (data : list PresetData) (bank : list RadioPreset)
  : bool * list RadioPreset :=
  match data with
  | [] => (true, bank)
  | pd :: rest =>
      match parse_preset pd with
      | None => (false, bank)
      | Some preset => load_bank rest (bank ++ [preset])
      end
  end.

(** The outer loop, over the items of [config.get('presets', {})];
    [py_int] is Python's [int] on a string. *)
Fixpoint load_banks (py_int : string -> option Z)
  (items : list (string * list PresetData)) (d : list (Z * list RadioPreset))
  : bool * list (Z * list RadioPreset) :=
  match items with
  | [] => (true, d)
  | (bank_id, data) :: rest =>
      match py_int bank_id with
      | None => (false, d)
      | Some k =>
          let '(ok, bank) := load_bank data [] in
          let d' := dict_set k bank d in
          if ok then load_banks py_int rest d' else (false, d')
      end
  end.

(** The [if 'last_state' in config] block: the assignments are made in
    order, and [ServiceType(...)] may raise after the first two. *)
Definition load_last_state (ls : LastState) (s : RadioState) : bool * RadioState :=
  let s := upd_frequency (get_or (ls_frequency ls) 88000000) s in
  let s := upd_volume (get_or (ls_volume ls) 50%Z) s in
  match ServiceType_of_value (get_or (ls_service_type ls) "FM Radio"%string) with
  | None => (false, s)
  | Some t =>
      let s := upd_service_type t s in
      let s := upd_preset_bank (get_or (ls_preset_bank ls) 0%Z) s in
      let s := upd_squelch_level (get_or (ls_squelch_level ls) 30%Z) s in
      (true, s)
  end.

(** What [_create_default_config] writes. *)
Definition default_preset_data (f : R) (n st md : string) : PresetData :=
  mkPresetData (Some f) (Some n) (Some st) (Some md) None.

Definition default_config : Config :=
  mkConfig
    (Some
       [ ("0"%string, [ default_preset_data 93500000 "FM Rainbow" "FM Radio" "FM";
                 default_preset_data 98300000 "Radio Mirchi" "FM Radio" "FM";
                 default_preset_data 104000000 "Red FM" "FM Radio" "FM" ]);
         ("1"%string, [ default_preset_data 121500000 "Emergency" "Aviation" "AM";
                 default_preset_data 118100000 "Tower" "Aviation" "AM";
                 default_preset_data 119100000 "Ground" "Aviation" "AM" ]);
         ("2"%string, [ default_preset_data 146520000 "Repeater" "Emergency" "NFM";
                 default_preset_data 156800000 "Marine VHF" "Emergency" "NFM" ]) ])
    (Some (mkLastState (Some 88000000) (Some 50%Z) (Some "FM Radio"%string)
                       (Some 0%Z) (Some 30%Z))).

Definition _create_default_config (file : option Config) (self : Scanner)
  : option Config * Scanner :=
  (Some default_config, with_event (LoggedInfo "Default configuration created") self).

Definition _load_config (py_int : string -> option Z)
  (file : option Config) (self : Scanner) : option Config * Scanner :=
  let '(file, self) :=
    match file with
    | None => _create_default_config file self
    | Some _ => (file, self)
    end in
  let failed (self : Scanner) :=
    _create_default_config file
      (with_event (LoggedError "Config loading failed") self) in
  match file with
  | None => failed self
  | Some config =>
      let '(ok, d) := load_banks py_int (get_or (cfg_presets config) []) (presets self) in
      let self := with_presets d self in
      if ok then
        match cfg_last_state config with
        | None =>
            (file, with_event (LoggedInfo "Configuration loaded successfully") self)
        | Some ls =>
            let '(ok, s) := load_last_state ls (state self) in
            let self := with_state (fun _ => s) self in
            if ok
            then (file, with_event (LoggedInfo "Configuration loaded successfully") self)
            else failed self
        end
      else failed self
  end.

(** The object [_save_state] stores under ['last_state']. *)
Definition snapshot (s : RadioState) : LastState :=
  mkLastState (Some (frequency s)) (Some (volume s))
              (Some (ServiceType_value (service_type s)))
              (Some (preset_bank s)) (Some (squelch_level s)).

Definition _save_state (file : option Config) (self : Scanner)
  : option Config * Scanner :=
  match file with
  | None => (file, with_event (LoggedError "Failed to save state") self)
  | Some config =>
      (Some (mkConfig (cfg_presets config) (Some (snapshot (state self)))), self)
  end.

(** A reader of the bank keys the default configuration has. *)
Definition small_int (key : string) : option Z :=
  if String.eqb key "0" then Some 0%Z
  else if String.eqb key "1" then Some 1%Z
  else if String.eqb key "2" then Some 2%Z
  else None.

(** The frequency a manual tune of [direction] steps moves to. *)
Definition tuned_to (direction : Z) (s : RadioState) : R :=
  py_max (min_freq_of (service_type s))
    (py_min (max_freq_of (service_type s))
       (frequency s + IZR (direction * step_of (service_type s)))).

(** The scanner with its mute flag set to [b]. *)
Definition with_mute (b : bool) (self : Scanner) : Scanner :=
  with_state (upd_is_muted b) self.

(** * Properties *)

(** ** Signal meter *)

Ltac run_monad :=
  unfold try_except, bind, ret, raise, get_self, get_state, modify_state,
    sleep, log_error, log_info, emit, retune_if_sdr, sdr_read_samples,
    sdr_set_center_freq; cbn [fst snd].

Lemma get_signal_strength_no_sdr (self : Scanner) :
  sdr self = None -> _get_signal_strength self = (Returned 0, self).
Proof.
  intros H. unfold _get_signal_strength. run_monad. rewrite H. reflexivity.
Qed.

Lemma get_signal_strength_read_fails (self : Scanner) (dev : RtlSdr) :
  sdr self = Some dev ->
  read_samples dev (calls self) 1024 = None ->
  _get_signal_strength self =
    (Returned 0, with_event (LoggedError "Signal strength error") (with_call self)).
Proof.
  intros H R. unfold _get_signal_strength. run_monad. rewrite H, R. reflexivity.
Qed.

Lemma get_signal_strength_read (self : Scanner) (dev : RtlSdr) (samples : list complex) :
  sdr self = Some dev ->
  read_samples dev (calls self) 1024 = Some samples ->
  _get_signal_strength self =
    (Returned (strength_of_power (chunk_power samples)),
     with_state (upd_signal_strength (strength_of_power (chunk_power samples)))
                (with_call self)).
Proof.
  intros H R. unfold _get_signal_strength. run_monad. rewrite H, R. reflexivity.
Qed.

(** The three ways a measurement can go. *)
Lemma get_signal_strength_cases (self : Scanner) :
  (sdr self = None /\ _get_signal_strength self = (Returned 0, self)) \/
  (exists dev, sdr self = Some dev /\ read_samples dev (calls self) 1024 = None /\
     _get_signal_strength self =
       (Returned 0, with_event (LoggedError "Signal strength error") (with_call self))) \/
  (exists dev samples, sdr self = Some dev /\
     read_samples dev (calls self) 1024 = Some samples /\
     _get_signal_strength self =
       (Returned (strength_of_power (chunk_power samples)),
        with_state (upd_signal_strength (strength_of_power (chunk_power samples)))
                   (with_call self))).
Proof.
  destruct (sdr self) as [dev|] eqn:H.
  - destruct (read_samples dev (calls self) 1024) as [samples|] eqn:R.
    + right; right. exists dev, samples. repeat split; auto.
      now apply (get_signal_strength_read self dev).
    + right; left. exists dev. repeat split; auto.
      now apply (get_signal_strength_read_fails self dev).
  - left. split; auto. now apply get_signal_strength_no_sdr.
Qed.

Lemma get_signal_strength_returns (self : Scanner) :
  _get_signal_strength self = (Returned (measured self), after_measure self).
Proof.
  unfold measured, after_measure, result, exec.
  destruct (get_signal_strength_cases self) as [[_ E]|[(dev & _ & _ & E)|(dev & samples & _ & _ & E)]];
    rewrite E; reflexivity.
Qed.

(** A measurement touches nothing of the state but [signal_strength], and
    nothing of the scanner but the state, the call count and the trace. *)
Lemma after_measure_frame (self : Scanner) :
  let self' := after_measure self in
  frequency (state self') = frequency (state self) /\
  squelch_level (state self') = squelch_level (state self) /\
  service_type (state self') = service_type (state self) /\
  current_preset (state self') = current_preset (state self) /\
  preset_bank (state self') = preset_bank (state self) /\
  scan_mode (state self') = scan_mode (state self) /\
  is_scanning (state self') = is_scanning (state self) /\
  volume (state self') = volume (state self) /\
  is_muted (state self') = is_muted (state self) /\
  presets self' = presets self /\ sdr self' = sdr self /\
  usb self' = usb self /\ running self' = running self.
Proof.
  unfold after_measure, exec.
  destruct (get_signal_strength_cases self) as [[_ E]|[(dev & _ & _ & E)|(dev & samples & _ & _ & E)]];
    rewrite E; cbn; repeat split; reflexivity.
Qed.

Lemma py_max_Rmax (a b : R) : py_max a b = Rmax a b.
Proof.
  unfold py_max, Rmax. destruct (Rlt_dec a b), (Rle_dec a b); lra.
Qed.

Lemma py_min_Rmin (a b : R) : py_min a b = Rmin a b.
Proof.
  unfold py_min, Rmin. destruct (Rlt_dec b a), (Rle_dec a b); lra.
Qed.

Lemma strength_of_power_range (power : R) : 0 <= strength_of_power power <= 100.
Proof.
  unfold strength_of_power, py_max, py_min.
  repeat destruct (Rlt_dec _ _); lra.
Qed.

Lemma measured_range (self : Scanner) : 0 <= measured self <= 100.
Proof.
  unfold measured, result.
  destruct (get_signal_strength_cases self) as [[_ E]|[(dev & _ & _ & E)|(dev & samples & _ & _ & E)]];
    rewrite E; cbn; try lra.
  apply strength_of_power_range.
Qed.

Lemma np_abs_sq (z : complex) : np_abs z ^ 2 = fst z * fst z + snd z * snd z.
Proof.
  unfold np_abs. apply pow2_sqrt. nra.
Qed.

Lemma chunk_power_mean_power (samples : list complex) :
  chunk_power samples = mean_power samples.
Proof.
  unfold chunk_power, mean_power, np_mean. rewrite !length_map.
  f_equal. f_equal. apply map_ext. intros z. apply np_abs_sq.
Qed.

Lemma np_sum_nonneg (l : list R) : Forall (fun v => 0 <= v) l -> 0 <= np_sum l.
Proof.
  unfold np_sum. induction 1; cbn; lra.
Qed.

Lemma mean_power_nonneg (samples : list complex) : 0 <= mean_power samples.
Proof.
  unfold mean_power.
  assert (0 <= np_sum (map (fun z => fst z * fst z + snd z * snd z) samples)) as Hs.
  { apply np_sum_nonneg. apply Forall_map, Forall_forall. intros z _. nra. }
  destruct samples as [|z rest].
  - cbn. unfold Rdiv. rewrite Rmult_0_l. lra.
  - apply Rmult_le_pos; [exact Hs|].
    apply Rlt_le, Rinv_0_lt_compat, lt_0_INR. cbn. lia.
Qed.

(** C5. Signal meter: on a chunk that was read, the meter returns (and
    stores) the strength of the mean power [P = mean(|sample|^2)]:
    [clamp((10*log10(P) + 30) + 100, 0, 100)] when [P > 0], exactly [0]
    when [P = 0]; and whatever happens, the value it returns lies in
    [[0, 100]]. *)
Theorem signal_meter_correct (self : Scanner) (dev : RtlSdr) (samples : list complex) :
  sdr self = Some dev ->
  read_samples dev (calls self) 1024 = Some samples ->
  let P := mean_power samples in
  (exists strength,
     result _get_signal_strength self = Returned strength /\
     signal_strength (state (exec _get_signal_strength self)) = strength /\
     (0 < P -> strength = clamp ((10 * np_log10 P + 30) + 100) 0 100) /\
     (P = 0 -> strength = 0) /\
     0 <= strength <= 100) /\
  (forall any : Scanner, exists r,
     result _get_signal_strength any = Returned r /\ 0 <= r <= 100).
Proof.
  intros Hsdr Hread P. split.
  - exists (strength_of_power (chunk_power samples)).
    unfold result, exec. rewrite (get_signal_strength_read self dev samples Hsdr Hread).
    cbn [fst snd]. rewrite chunk_power_mean_power. fold P.
    split; [reflexivity|]. split; [reflexivity|].
    split; [|split].
    + intros HP. unfold strength_of_power, clamp.
      destruct (Rlt_dec 0 P); [|lra].
      now rewrite py_max_Rmax, py_min_Rmin.
    + intros HP. unfold strength_of_power.
      destruct (Rlt_dec 0 P); [lra|reflexivity].
    + apply strength_of_power_range.
  - intros any. exists (measured any). split.
    + unfold result. now rewrite get_signal_strength_returns.
    + apply measured_range.
Qed.

Lemma signal_meter_correct_witness :
  exists r, result _get_signal_strength
              (scanner_on (Some (steady_sdr (0, 0))) [] RadioState_default)
            = Returned r /\ 0 <= r <= 100.
Proof.
  exact (proj2 (signal_meter_correct
                  (scanner_on (Some (steady_sdr (0, 0))) [] RadioState_default)
                  (steady_sdr (0, 0)) (repeat (0, 0) 1024) eq_refl eq_refl)
               (scanner_on (Some (steady_sdr (0, 0))) [] RadioState_default)).
Defined.

(** ** Auto scan *)

Lemma auto_scan_returns (self : Scanner) : result _auto_scan self = Returned tt.
Proof.
  unfold result, _auto_scan. run_monad.
  destruct (SERVICE_RANGES (service_type (state self))) as [[[mn mx] st] md].
  rewrite get_signal_strength_returns.
  destruct (Rlt_dec _ _); [reflexivity|].
  cbn. destruct (sdr (after_measure self)) as [dev|]; [|reflexivity].
  destruct (set_center_freq dev _ _); reflexivity.
Qed.

Lemma auto_scan_hold (self : Scanner) :
  IZR (squelch_level (state self)) < measured self ->
  _auto_scan self = (Returned tt, with_event (Slept 2) (after_measure self)).
Proof.
  intros H. unfold _auto_scan. run_monad.
  destruct (SERVICE_RANGES (service_type (state self))) as [[[mn mx] st] md].
  rewrite get_signal_strength_returns.
  destruct (after_measure_frame self) as (_ & Hsq & _). rewrite Hsq.
  destruct (Rlt_dec _ _); [reflexivity|contradiction].
Qed.

Lemma auto_scan_advance_state (self : Scanner) :
  ~ IZR (squelch_level (state self)) < measured self ->
  state (exec _auto_scan self) =
    upd_frequency (auto_scan_next (state self)) (state (after_measure self)).
Proof.
  intros H. unfold exec, _auto_scan, auto_scan_next, max_freq_of, min_freq_of, step_of.
  run_monad.
  destruct (after_measure_frame self) as (Hf & Hsq & Hty & _).
  destruct (SERVICE_RANGES (service_type (state self))) as [[[mn mx] st] md].
  rewrite get_signal_strength_returns.
  rewrite Hsq, Hf. cbn [fst snd].
  destruct (Rlt_dec (IZR _) _); [contradiction|].
  cbn. destruct (sdr (after_measure self)) as [dev|]; [|reflexivity].
  destruct (set_center_freq dev _ _); reflexivity.
Qed.

(** *** Chunks of known strength *)

Lemma ln_10_pos : 0 < ln 10.
Proof.
  rewrite <- ln_1. apply ln_increasing; lra.
Qed.

Lemma np_log10_inv_pow (n : nat) : np_log10 (/ 10 ^ n) = - INR n.
Proof.
  unfold np_log10. pose proof ln_10_pos.
  rewrite ln_Rinv by (apply pow_lt; lra).
  rewrite ln_pow by lra. field. lra.
Qed.

Lemma strength_of_power_inv_pow (n : nat) :
  (3 <= n <= 13)%nat ->
  strength_of_power (/ 10 ^ n) = 130 - 10 * INR n.
Proof.
  intros Hn. unfold strength_of_power.
  assert (0 < / 10 ^ n) by (apply Rinv_0_lt_compat, pow_lt; lra).
  destruct (Rlt_dec 0 (/ 10 ^ n)); [|contradiction].
  rewrite np_log10_inv_pow.
  assert (3 <= INR n <= 13) as Hr.
  { rewrite INR_IZR_INZ. split; apply IZR_le; lia. }
  unfold py_max, py_min.
  repeat destruct (Rlt_dec _ _); lra.
Qed.

Lemma np_sum_map_repeat {A} (f : A -> R) (z : A) (n : nat) :
  np_sum (map f (repeat z n)) = INR n * f z.
Proof.
  unfold np_sum. induction n as [|n IH].
  - cbn. lra.
  - rewrite S_INR. cbn [repeat map fold_right]. rewrite IH. lra.
Qed.

Lemma mean_power_repeat (z : complex) (n : nat) :
  (0 < n)%nat ->
  mean_power (repeat z n) = fst z * fst z + snd z * snd z.
Proof.
  intros Hn. unfold mean_power. rewrite np_sum_map_repeat, repeat_length.
  field. apply not_0_INR. lia.
Qed.

Lemma measured_steady (z : complex) banks (s : RadioState) :
  measured (scanner_on (Some (steady_sdr z)) banks s) =
  strength_of_power (fst z * fst z + snd z * snd z).
Proof.
  unfold measured, result.
  rewrite (get_signal_strength_read (scanner_on (Some (steady_sdr z)) banks s)
             (steady_sdr z) (repeat z 1024) eq_refl eq_refl).
  cbn [fst]. rewrite chunk_power_mean_power, mean_power_repeat by lia. reflexivity.
Qed.

Lemma measured_sample_60 banks s :
  measured (scanner_on (Some (steady_sdr sample_60)) banks s) = 60.
Proof.
  rewrite measured_steady. unfold sample_60. cbn [fst snd].
  replace (3 / 10 ^ 4 * (3 / 10 ^ 4) + 1 / 10 ^ 4 * (1 / 10 ^ 4)) with (/ 10 ^ 7)
    by (field; lra).
  rewrite strength_of_power_inv_pow by lia. cbn. lra.
Qed.

Lemma measured_sample_40 banks s :
  measured (scanner_on (Some (steady_sdr sample_40)) banks s) = 40.
Proof.
  rewrite measured_steady. unfold sample_40. cbn [fst snd].
  replace (3 / 10 ^ 5 * (3 / 10 ^ 5) + 1 / 10 ^ 5 * (1 / 10 ^ 5)) with (/ 10 ^ 9)
    by (field; lra).
  rewrite strength_of_power_inv_pow by lia. cbn. lra.
Qed.

Lemma measured_silence banks s :
  measured (scanner_on (Some (steady_sdr (0, 0))) banks s) = 0.
Proof.
  rewrite measured_steady. cbn [fst snd]. unfold strength_of_power.
  destruct (Rlt_dec _ _); lra.
Qed.

(** C6. Auto-scan squelch step: a tick whose measurement is strictly
    above the squelch level leaves the frequency alone; any other tick
    moves it to [frequency + step], or to [min_freq] when that sum is
    above [max_freq].  With strength 60 against squelch 50 the tick
    holds; with strength 40 it advances by exactly the step (and wraps
    from [max_freq] to [min_freq]). *)
Theorem auto_scan_squelch_step (self : Scanner) :
  let s := state self in
  let s' := state (exec _auto_scan self) in
  let min_freq := min_freq_of (service_type s) in
  let max_freq := max_freq_of (service_type s) in
  let step := IZR (step_of (service_type s)) in
  (IZR (squelch_level s) < measured self -> frequency s' = frequency s) /\
  (~ IZR (squelch_level s) < measured self ->
     (frequency s + step <= max_freq -> frequency s' = frequency s + step) /\
     (max_freq < frequency s + step -> frequency s' = min_freq)) /\
  (measured self = 60 -> squelch_level s = 50%Z -> frequency s' = frequency s) /\
  (measured self = 40 -> squelch_level s = 50%Z ->
     (frequency s + step <= max_freq -> frequency s' = frequency s + step) /\
     (frequency s = max_freq -> frequency s' = min_freq)).
Proof.
  intros s s' mn mx step.
  assert (0 < step) as Hstep.
  { unfold step, step_of. destruct (service_type s); cbn; lra. }
  assert (IZR (squelch_level s) < measured self -> frequency s' = frequency s) as Hold.
  { intros H. unfold s', exec. rewrite (auto_scan_hold self H). cbn.
    apply (after_measure_frame self). }
  assert (~ IZR (squelch_level s) < measured self ->
          frequency s' = auto_scan_next s) as Hadv.
  { intros H. unfold s'. rewrite (auto_scan_advance_state self H). reflexivity. }
  unfold auto_scan_next in Hadv. fold mn mx step in Hadv.
  split; [exact Hold|]. split; [|split].
  - intros H. rewrite (Hadv H). split; intros; destruct (Rlt_dec mx _); lra.
  - intros Hm Hs. apply Hold. rewrite Hm, Hs. lra.
  - intros Hm Hs. rewrite Hadv by (rewrite Hm, Hs; lra).
    split; intros; destruct (Rlt_dec mx _); lra.
Qed.

Lemma auto_scan_squelch_step_witness :
  frequency (state (exec _auto_scan
    (scanner_on (Some (steady_sdr sample_60)) [] (state_squelch_50 88000000))))
  = 88000000 /\
  frequency (state (exec _auto_scan
    (scanner_on (Some (steady_sdr sample_40)) [] (state_squelch_50 88000000))))
  = 88000000 + 100000 /\
  frequency (state (exec _auto_scan
    (scanner_on (Some (steady_sdr sample_40)) [] (state_squelch_50 108000000))))
  = 88000000.
Proof.
  split; [|split].
  - apply (proj1 (proj2 (proj2 (auto_scan_squelch_step
      (scanner_on (Some (steady_sdr sample_60)) [] (state_squelch_50 88000000)))))).
    + apply measured_sample_60.
    + reflexivity.
  - apply (proj2 (proj2 (proj2 (auto_scan_squelch_step
      (scanner_on (Some (steady_sdr sample_40)) [] (state_squelch_50 88000000)))))).
    + apply measured_sample_40.
    + reflexivity.
    + cbn. lra.
  - apply (proj2 (proj2 (proj2 (auto_scan_squelch_step
      (scanner_on (Some (steady_sdr sample_40)) [] (state_squelch_50 108000000)))))).
    + apply measured_sample_40.
    + reflexivity.
    + reflexivity.
Defined.

(** ** Preset scan *)

Lemma py_getitem_in_range {A} (l : list A) (i : Z) :
  (0 <= i < len l)%Z -> exists a, py_getitem l i = Some a /\ nth_error l (Z.to_nat i) = Some a.
Proof.
  intros Hi. unfold py_getitem.
  destruct (0 <=? i)%Z eqn:E; [|apply Z.leb_gt in E; lia].
  destruct (nth_error l (Z.to_nat i)) as [a|] eqn:N.
  - exists a. auto.
  - apply nth_error_None in N. unfold len in Hi. lia.
Qed.

Lemma preset_scan_returns (self : Scanner) : result _preset_scan self = Returned tt.
Proof.
  unfold result, _preset_scan. run_monad.
  destruct (dict_get _ _) as [[|p bank]|]; try reflexivity.
  rewrite get_signal_strength_returns.
  destruct (Rlt_dec _ _); [reflexivity|].
  cbn. destruct (py_getitem _ _); [|reflexivity].
  cbn. destruct (sdr (after_measure self)) as [dev|]; [|reflexivity].
  destruct (set_center_freq dev _ _); reflexivity.
Qed.

Lemma preset_scan_no_bank (self : Scanner) :
  current_bank self = None \/ current_bank self = Some [] ->
  _preset_scan self = (Returned tt, self).
Proof.
  unfold current_bank, _preset_scan. run_monad. intros [H|H]; rewrite H; reflexivity.
Qed.

Lemma preset_scan_hold (self : Scanner) (bank : list RadioPreset) :
  current_bank self = Some bank -> bank <> [] ->
  ~ unoccupied self ->
  _preset_scan self = (Returned tt, with_event (Slept 2) (after_measure self)).
Proof.
  unfold current_bank, unoccupied, _preset_scan. intros Hb Hne H. run_monad. rewrite Hb.
  destruct bank as [|p bank]; [congruence|].
  rewrite get_signal_strength_returns.
  destruct (after_measure_frame self) as (_ & Hsq & _). rewrite Hsq.
  destruct (Rlt_dec _ _); [reflexivity|contradiction].
Qed.

Lemma preset_scan_advance_state (self : Scanner) (bank : list RadioPreset) :
  current_bank self = Some bank -> bank <> [] ->
  unoccupied self ->
  let idx := ((current_preset (state self) + 1) mod len bank)%Z in
  exists preset,
    nth_error bank (Z.to_nat idx) = Some preset /\
    state (exec _preset_scan self) =
      upd_frequency (preset_frequency preset)
        (upd_current_preset idx (state (after_measure self))).
Proof.
  intros Hb Hne H idx. unfold current_bank, unoccupied in *.
  assert (0 <= idx < len bank)%Z as Hidx.
  { apply Z.mod_pos_bound. unfold len. destruct bank; [congruence|cbn; lia]. }
  destruct (py_getitem_in_range bank idx Hidx) as (preset & Hget & Hnth).
  exists preset. split; [exact Hnth|].
  unfold exec, _preset_scan. run_monad. rewrite Hb.
  destruct bank as [|p bank']; [congruence|].
  rewrite get_signal_strength_returns.
  destruct (after_measure_frame self) as (_ & Hsq & _ & Hcp & _). rewrite Hsq.
  destruct (Rlt_dec _ _); [contradiction|].
  cbn [state with_state upd_current_preset current_preset]. rewrite Hcp.
  fold idx. rewrite Hget.
  run_monad. cbn.
  destruct (sdr (after_measure self)) as [dev|]; cbn.
  - destruct (set_center_freq dev _ _); cbn; rewrite Hcp; reflexivity.
  - rewrite Hcp. reflexivity.
Qed.

(** No method modelled here replaces the preset banks, and a preset-scan
    tick leaves the selected bank and the squelch level alone. *)
Lemma preset_scan_frame (self : Scanner) :
  let self' := exec _preset_scan self in
  presets self' = presets self /\
  preset_bank (state self') = preset_bank (state self) /\
  squelch_level (state self') = squelch_level (state self) /\
  service_type (state self') = service_type (state self).
Proof.
  unfold exec, _preset_scan. run_monad.
  destruct (dict_get _ _) as [[|p bank]|]; try (cbn; tauto).
  rewrite get_signal_strength_returns.
  destruct (after_measure_frame self)
    as (_ & Hsq & Hty & _ & Hpb & _ & _ & _ & _ & Hps & _).
  destruct (Rlt_dec _ _); [cbn; tauto|].
  cbn. destruct (py_getitem _ _); [|cbn; tauto].
  cbn. destruct (sdr (after_measure self)) as [dev|]; [|cbn; tauto].
  destruct (set_center_freq dev _ _); cbn; tauto.
Qed.

Lemma preset_scan_keeps_sdr (self : Scanner) :
  sdr (exec _preset_scan self) = sdr self /\
  running (exec _preset_scan self) = running self.
Proof.
  unfold exec, _preset_scan. run_monad.
  destruct (dict_get _ _) as [[|p bank]|]; try (cbn; tauto).
  rewrite get_signal_strength_returns.
  destruct (after_measure_frame self)
    as (_ & _ & _ & _ & _ & _ & _ & _ & _ & _ & Hsdr & _ & Hrun).
  destruct (Rlt_dec _ _); [cbn; tauto|].
  cbn. destruct (py_getitem _ _); [|cbn; tauto].
  cbn. rewrite Hsdr. destruct (sdr self) as [dev|]; [|cbn; tauto].
  destruct (set_center_freq dev _ _); cbn; tauto.
Qed.

Lemma preset_scan_step (self : Scanner) (bank : list RadioPreset) :
  current_bank self = Some bank -> bank <> [] -> unoccupied self ->
  let idx := ((current_preset (state self) + 1) mod len bank)%Z in
  current_bank (exec _preset_scan self) = Some bank /\
  current_preset (state (exec _preset_scan self)) = idx /\
  exists preset,
    nth_error bank (Z.to_nat idx) = Some preset /\
    frequency (state (exec _preset_scan self)) = preset_frequency preset.
Proof.
  intros Hb Hne Hu idx.
  destruct (preset_scan_frame self) as (Hps & Hpb & _).
  destruct (preset_scan_advance_state self bank Hb Hne Hu) as (preset & Hnth & Hst).
  fold idx in Hnth, Hst. split; [|split].
  - unfold current_bank. now rewrite Hps, Hpb.
  - now rewrite Hst.
  - exists preset. split; [exact Hnth|]. now rewrite Hst.
Qed.

(** C7. Preset-scan advancement order: on an unoccupied tick over a
    non-empty bank of [n] presets the current preset index becomes
    [(index + 1) mod n] and the frequency that preset's frequency; over
    a bank of three, three unoccupied ticks take the index from 0 to 1,
    to 2 and back to 0. *)
Theorem preset_scan_advancement (self : Scanner) (bank : list RadioPreset) :
  current_bank self = Some bank -> bank <> [] -> unoccupied self ->
  let idx := ((current_preset (state self) + 1) mod len bank)%Z in
  (exists preset,
     nth_error bank (Z.to_nat idx) = Some preset /\
     current_preset (state (exec _preset_scan self)) = idx /\
     frequency (state (exec _preset_scan self)) = preset_frequency preset) /\
  (forall p0 p1 p2,
     bank = [p0; p1; p2] -> current_preset (state self) = 0%Z ->
     let t1 := exec _preset_scan self in
     let t2 := exec _preset_scan t1 in
     let t3 := exec _preset_scan t2 in
     unoccupied t1 -> unoccupied t2 ->
     (current_preset (state t1) = 1%Z /\ frequency (state t1) = preset_frequency p1) /\
     (current_preset (state t2) = 2%Z /\ frequency (state t2) = preset_frequency p2) /\
     (current_preset (state t3) = 0%Z /\ frequency (state t3) = preset_frequency p0)).
Proof.
  intros Hb Hne Hu idx. split.
  - destruct (preset_scan_step self bank Hb Hne Hu) as (_ & Hcp & preset & Hnth & Hf).
    exists preset. auto.
  - intros p0 p1 p2 -> H0 t1 t2 t3 Hu1 Hu2.
    destruct (preset_scan_step self _ Hb Hne Hu) as (Hb1 & Hc1 & q1 & Hn1 & Hf1).
    fold t1 in Hb1, Hc1, Hf1. rewrite H0 in Hc1, Hn1.
    destruct (preset_scan_step t1 _ Hb1 Hne Hu1) as (Hb2 & Hc2 & q2 & Hn2 & Hf2).
    fold t2 in Hb2, Hc2, Hf2. rewrite Hc1 in Hc2, Hn2.
    destruct (preset_scan_step t2 _ Hb2 Hne Hu2) as (_ & Hc3 & q3 & Hn3 & Hf3).
    fold t3 in Hc3, Hf3. rewrite Hc2 in Hc3, Hn3.
    cbn in Hn1, Hn2, Hn3, Hc1, Hc2, Hc3.
    injection Hn1 as <-. injection Hn2 as <-. injection Hn3 as <-.
    auto.
Qed.

Lemma measured_no_sdr (self : Scanner) : sdr self = None -> measured self = 0.
Proof.
  intros H. unfold measured, result. now rewrite get_signal_strength_no_sdr.
Qed.

Lemma unoccupied_no_sdr (self : Scanner) :
  sdr self = None -> (0 <= squelch_level (state self))%Z -> unoccupied self.
Proof.
  intros H Hs. unfold unoccupied. rewrite measured_no_sdr by exact H.
  apply IZR_le in Hs. lra.
Qed.

Lemma preset_scan_advancement_witness :
  let self := scanner_on None default_presets RadioState_default in
  let t1 := exec _preset_scan self in
  let t2 := exec _preset_scan t1 in
  let t3 := exec _preset_scan t2 in
  (current_preset (state t1) = 1%Z /\ frequency (state t1) = 98300000) /\
  (current_preset (state t2) = 2%Z /\ frequency (state t2) = 104000000) /\
  (current_preset (state t3) = 0%Z /\ frequency (state t3) = 93500000).
Proof.
  intros self t1 t2 t3.
  assert (unoccupied self) as Hu by (apply unoccupied_no_sdr; [reflexivity|cbn; lia]).
  assert (unoccupied t1) as Hu1.
  { apply unoccupied_no_sdr.
    - unfold t1. now rewrite (proj1 (preset_scan_keeps_sdr self)).
    - unfold t1. destruct (preset_scan_frame self) as (_ & _ & -> & _). cbn. lia. }
  assert (unoccupied t2) as Hu2.
  { apply unoccupied_no_sdr.
    - unfold t2, t1. now rewrite !(proj1 (preset_scan_keeps_sdr _)).
    - unfold t2. destruct (preset_scan_frame t1) as (_ & _ & -> & _).
      unfold t1. destruct (preset_scan_frame self) as (_ & _ & -> & _). cbn. lia. }
  exact (proj2 (preset_scan_advancement self _ eq_refl ltac:(discriminate) Hu)
               _ _ _ eq_refl eq_refl Hu1 Hu2).
Defined.

(** C8. Empty-bank frame condition: when the selected preset bank is
    absent or empty, a preset-scan tick returns the scanner as it found
    it, after any number of ticks: every field of the state, and the
    trace, so nothing was measured, retuned or logged. *)
Theorem preset_scan_empty_bank (self : Scanner) (n : nat) :
  current_bank self = None \/ current_bank self = Some [] ->
  Nat.iter n (exec _preset_scan) self = self /\
  result _preset_scan self = Returned tt.
Proof.
  intros H. split; [|apply preset_scan_returns].
  induction n as [|n IH]; [reflexivity|].
  change (exec _preset_scan (Nat.iter n (exec _preset_scan) self) = self).
  rewrite IH. unfold exec. now rewrite preset_scan_no_bank.
Qed.

Lemma preset_scan_empty_bank_witness :
  Nat.iter 5 (exec _preset_scan)
    (scanner_on (Some (steady_sdr (0, 0))) [(0%Z, [])] RadioState_default)
  = scanner_on (Some (steady_sdr (0, 0))) [(0%Z, [])] RadioState_default /\
  Nat.iter 5 (exec _preset_scan)
    (scanner_on (Some (steady_sdr (0, 0))) [] RadioState_default)
  = scanner_on (Some (steady_sdr (0, 0))) [] RadioState_default.
Proof.
  split.
  - exact (proj1 (preset_scan_empty_bank
      (scanner_on (Some (steady_sdr (0, 0))) [(0%Z, [])] RadioState_default) 5
      (or_intror eq_refl))).
  - exact (proj1 (preset_scan_empty_bank
      (scanner_on (Some (steady_sdr (0, 0))) [] RadioState_default) 5
      (or_introl eq_refl))).
Defined.

(** ** Failed measurements and failed retunes *)

Lemma auto_scan_next_moves (s : RadioState) :
  min_freq_of (service_type s) <= frequency s ->
  auto_scan_next s <> frequency s.
Proof.
  unfold auto_scan_next, min_freq_of, max_freq_of, step_of.
  destruct (service_type s); cbn; intros H; destruct (Rlt_dec _ _); lra.
Qed.

(** C10. A measurement that fails (no tuner handle, or the read raises)
    returns exactly 0.0 and leaves the state, [signal_strength]
    included, as it was; as 0.0 is not above a squelch level that is not
    negative, the scan tick takes the channel for unoccupied and
    advances. *)
Theorem failed_measurement_is_silence (self : Scanner) :
  (sdr self = None \/
   exists dev, sdr self = Some dev /\ read_samples dev (calls self) 1024 = None) ->
  result _get_signal_strength self = Returned 0 /\
  state (exec _get_signal_strength self) = state self /\
  ((0 <= squelch_level (state self))%Z ->
     unoccupied self /\
     frequency (state (exec _auto_scan self)) = auto_scan_next (state self) /\
     (forall bank, current_bank self = Some bank -> bank <> [] ->
        current_preset (state (exec _preset_scan self)) =
          ((current_preset (state self) + 1) mod len bank)%Z)).
Proof.
  intros H.
  assert (_get_signal_strength self = (Returned 0, self) \/
          _get_signal_strength self =
            (Returned 0, with_event (LoggedError "Signal strength error") (with_call self)))
    as E.
  { destruct H as [H|(dev & H & R)].
    - left. now apply get_signal_strength_no_sdr.
    - right. now apply (get_signal_strength_read_fails self dev). }
  assert (measured self = 0) as Hm.
  { unfold measured, result. destruct E as [-> | ->]; reflexivity. }
  split; [|split].
  - unfold result. destruct E as [-> | ->]; reflexivity.
  - unfold exec. destruct E as [-> | ->]; reflexivity.
  - intros Hs.
    assert (unoccupied self) as Hu.
    { unfold unoccupied. rewrite Hm. apply IZR_le in Hs. lra. }
    split; [exact Hu|]. split.
    + now rewrite (auto_scan_advance_state self Hu).
    + intros bank Hb Hne. apply (preset_scan_step self bank Hb Hne Hu).
Qed.

Lemma failed_measurement_is_silence_witness :
  result _get_signal_strength
    (scanner_on (Some deaf_sdr) default_presets RadioState_default) = Returned 0 /\
  frequency (state (exec _auto_scan
    (scanner_on (Some deaf_sdr) default_presets RadioState_default))) = 88100000.
Proof.
  pose proof (failed_measurement_is_silence
                (scanner_on (Some deaf_sdr) default_presets RadioState_default)
                (or_intror (ex_intro _ deaf_sdr (conj eq_refl eq_refl)))) as (Hr & _ & Ha).
  split; [exact Hr|].
  destruct (Ha ltac:(cbn; lia)) as (_ & Hf & _). rewrite Hf.
  unfold auto_scan_next. cbn. destruct (Rlt_dec _ _); lra.
Defined.

Lemma events_since_app (before after : Scanner) (l : list Event) :
  trace after = trace before ++ l -> events_since before after = l.
Proof.
  intros H. unfold events_since. rewrite H. clear H.
  induction (trace before) as [|e t IH]; [reflexivity|exact IH].
Qed.

Lemma after_measure_trace (self : Scanner) :
  trace (after_measure self) = trace self \/
  trace (after_measure self) = trace self ++ [LoggedError "Signal strength error"].
Proof.
  unfold after_measure, exec.
  destruct (get_signal_strength_cases self) as [[_ E]|[(dev & _ & _ & E)|(dev & samples & _ & _ & E)]];
    rewrite E; cbn; auto.
Qed.

Lemma scan_tick_returns (self : Scanner) :
  scan_tick self =
    (Returned tt,
     with_event (Slept (1 / 10))
       (match scan_mode (state self) with
        | AUTO_SCAN => exec _auto_scan self
        | PRESET_SCAN => exec _preset_scan self
        | MANUAL => self
        end)).
Proof.
  unfold scan_tick. run_monad.
  destruct (scan_mode (state self)).
  - reflexivity.
  - pose proof (auto_scan_returns self) as H. unfold result, exec in *.
    destruct (_auto_scan self) as [o s']. cbn in *. now subst.
  - pose proof (preset_scan_returns self) as H. unfold result, exec in *.
    destruct (_preset_scan self) as [o s']. cbn in *. now subst.
Qed.

Lemma auto_scan_frame (self : Scanner) :
  let self' := exec _auto_scan self in
  is_scanning (state self') = is_scanning (state self) /\
  running self' = running self /\
  service_type (state self') = service_type (state self).
Proof.
  unfold exec, _auto_scan. run_monad.
  destruct (SERVICE_RANGES (service_type (state self))) as [[[mn mx] st] md].
  rewrite get_signal_strength_returns.
  destruct (after_measure_frame self)
    as (_ & _ & Hty & _ & _ & _ & Hsc & _ & _ & _ & Hsdr & _ & Hrun).
  destruct (Rlt_dec _ _); [cbn; tauto|].
  cbn. rewrite Hsdr. destruct (sdr self) as [dev|]; [|cbn; tauto].
  destruct (set_center_freq dev _ _); cbn; tauto.
Qed.

Lemma preset_scan_keeps_scanning (self : Scanner) :
  is_scanning (state (exec _preset_scan self)) = is_scanning (state self).
Proof.
  unfold exec, _preset_scan. run_monad.
  destruct (dict_get _ _) as [[|p bank]|]; try reflexivity.
  rewrite get_signal_strength_returns.
  destruct (after_measure_frame self)
    as (_ & _ & _ & _ & _ & _ & Hsc & _ & _ & _ & Hsdr & _).
  destruct (Rlt_dec _ _); [cbn; tauto|].
  cbn. destruct (py_getitem _ _); [|cbn; tauto].
  cbn. rewrite Hsdr. destruct (sdr self) as [dev|]; [|cbn; tauto].
  destruct (set_center_freq dev _ _); cbn; tauto.
Qed.

Lemma not_retune_failed (before after : Scanner) (l : list Event) :
  trace after = trace before ++ l ->
  (forall hz, ~ In (RetuneFailed hz) l) ->
  ~ retune_failed before after.
Proof.
  intros H Hq (hz & Hin). rewrite (events_since_app _ _ l H) in Hin.
  exact (Hq hz Hin).
Qed.

Lemma no_retune_in_hold (self : Scanner) (dwell pause : R) :
  ~ retune_failed self
      (with_event (Slept pause) (with_event (Slept dwell) (after_measure self))).
Proof.
  destruct (after_measure_trace self) as [T|T].
  - apply (not_retune_failed _ _ [Slept dwell; Slept pause]).
    + cbn. rewrite T, <- app_assoc. reflexivity.
    + intros hz [H|[H|[]]]; discriminate.
  - apply (not_retune_failed _ _
             [LoggedError "Signal strength error"; Slept dwell; Slept pause]).
    + cbn. rewrite T, <- !app_assoc. reflexivity.
    + intros hz [H|[H|[H|[]]]]; discriminate.
Qed.

Lemma no_retune_in_pause (self : Scanner) (pause : R) :
  ~ retune_failed self (with_event (Slept pause) self).
Proof.
  apply (not_retune_failed _ _ [Slept pause]).
  - reflexivity.
  - intros hz [H|[]]. discriminate.
Qed.

(** The scanner an advancing auto-scan tick leaves. *)
Lemma auto_scan_advance (self : Scanner) :
  unoccupied self ->
  let hz := auto_scan_next (state self) in
  let moved := with_state (upd_frequency hz) (after_measure self) in
  exec _auto_scan self =
    match sdr self with
    | None => with_event (Slept (1 / 10)) moved
    | Some dev =>
        if set_center_freq dev (calls (after_measure self)) hz
        then with_event (Slept (1 / 10)) (with_event (Retuned hz) (with_call moved))
        else with_event (LoggedError "Auto scan error")
               (with_event (RetuneFailed hz) (with_call moved))
    end.
Proof.
  intros H hz moved. unfold hz, moved, exec, _auto_scan, auto_scan_next,
    max_freq_of, min_freq_of, step_of, unoccupied in *.
  run_monad.
  destruct (after_measure_frame self)
    as (Hf & Hsq & _ & _ & _ & _ & _ & _ & _ & _ & Hsdr & _).
  destruct (SERVICE_RANGES (service_type (state self))) as [[[mn mx] st] md].
  rewrite get_signal_strength_returns.
  rewrite Hsq, Hf. cbn [fst snd].
  destruct (Rlt_dec (IZR _) _); [contradiction|].
  cbn. rewrite Hsdr. destruct (sdr self) as [dev|]; [|reflexivity].
  destruct (set_center_freq dev _ _); reflexivity.
Qed.

Lemma measured_reads (self : Scanner) (dev : RtlSdr) (z : complex) :
  sdr self = Some dev ->
  read_samples dev (calls self) 1024 = Some (repeat z 1024) ->
  measured self = strength_of_power (fst z * fst z + snd z * snd z) /\
  after_measure self =
    with_state (upd_signal_strength (strength_of_power (fst z * fst z + snd z * snd z)))
               (with_call self).
Proof.
  intros H R. unfold measured, after_measure, result, exec.
  rewrite (get_signal_strength_read self dev (repeat z 1024) H R).
  cbn [fst snd]. rewrite chunk_power_mean_power, mean_power_repeat by lia. auto.
Qed.

Lemma stuck_scanner_tick :
  retune_failed stuck_scanner (exec scan_tick stuck_scanner) /\
  frequency (state (exec scan_tick stuck_scanner)) = 88100000.
Proof.
  destruct (measured_reads stuck_scanner stuck_sdr (0, 0) eq_refl eq_refl) as (Hm & Ha).
  assert (strength_of_power (fst (0, 0) * fst (0, 0) + snd (0, 0) * snd (0, 0)) = 0) as H0.
  { unfold strength_of_power. cbn [fst snd]. destruct (Rlt_dec _ _); lra. }
  rewrite H0 in Hm, Ha.
  assert (unoccupied stuck_scanner) as Hu.
  { unfold unoccupied. rewrite Hm. cbn. lra. }
  assert (auto_scan_next (state stuck_scanner) = 88100000) as Hn.
  { unfold auto_scan_next. cbn. destruct (Rlt_dec _ _); lra. }
  unfold exec at 1 2. rewrite scan_tick_returns. cbn [snd].
  change (scan_mode (state stuck_scanner)) with AUTO_SCAN. cbv iota.
  rewrite (auto_scan_advance stuck_scanner Hu), Hn, Ha.
  cbn. split; [|reflexivity].
  exists 88100000. unfold events_since. cbn. auto.
Qed.

(** What a scan adds to the trace after its measurement: either nothing
    of a failed retune, or the failed retune to the frequency the state
    holds, followed at once by the log of the scan's [except] clause. *)
Lemma auto_scan_trace (self : Scanner) :
  exists l,
    trace (exec _auto_scan self) = trace (after_measure self) ++ l /\
    ((forall hz, ~ In (RetuneFailed hz) l) \/
     l = [RetuneFailed (frequency (state (exec _auto_scan self)));
          LoggedError "Auto scan error"]).
Proof.
  unfold exec, _auto_scan. run_monad.
  destruct (SERVICE_RANGES (service_type (state self))) as [[[mn mx] st] md].
  rewrite get_signal_strength_returns.
  destruct (Rlt_dec _ _).
  - exists [Slept 2]. split; [reflexivity|].
    left. intros hz [H|[]]; discriminate.
  - cbn. destruct (sdr (after_measure self)) as [dev|].
    + destruct (set_center_freq dev _ _); cbn.
      * eexists [Retuned _; Slept (1 / 10)].
        split; [now rewrite <- app_assoc|].
        left. intros hz [H|[H|[]]]; discriminate.
      * eexists [RetuneFailed _; LoggedError "Auto scan error"].
        split; [now rewrite <- app_assoc|]. right. reflexivity.
    + exists [Slept (1 / 10)]. split; [reflexivity|].
      left. intros hz [H|[]]; discriminate.
Qed.

Lemma preset_scan_trace (self : Scanner) :
  trace (exec _preset_scan self) = trace self \/
  exists l,
    trace (exec _preset_scan self) = trace (after_measure self) ++ l /\
    ((forall hz, ~ In (RetuneFailed hz) l) \/
     l = [RetuneFailed (frequency (state (exec _preset_scan self)));
          LoggedError "Preset scan error"]).
Proof.
  unfold exec, _preset_scan. run_monad.
  destruct (dict_get _ _) as [[|p bank]|]; try (left; reflexivity).
  right. rewrite get_signal_strength_returns.
  destruct (Rlt_dec _ _).
  - exists [Slept 2]. split; [reflexivity|].
    left. intros hz [H|[]]; discriminate.
  - cbn. destruct (py_getitem _ _).
    + cbn. destruct (sdr (after_measure self)) as [dev|].
      * destruct (set_center_freq dev _ _); cbn.
        -- eexists [Retuned _; Slept (1 / 2)].
           split; [now rewrite <- app_assoc|].
           left. intros hz [H|[H|[]]]; discriminate.
        -- eexists [RetuneFailed _; LoggedError "Preset scan error"].
           split; [now rewrite <- app_assoc|]. right. reflexivity.
      * exists [Slept (1 / 2)]. split; [reflexivity|].
        left. intros hz [H|[]]; discriminate.
    + exists [LoggedError "Preset scan error"]. split; [reflexivity|].
      left. intros hz [H|[]]; discriminate.
Qed.

(** A tick in which a retune failed has logged it: since the tick began,
    the trace holds what the measurement logged, the failed retune, the
    log of the scan's [except] clause and the pause of the worker. *)
Lemma failed_tick_trace (self tick : Scanner) (msg : string) :
  (trace tick = trace self \/
   exists l,
     trace tick = trace (after_measure self) ++ l /\
     ((forall hz, ~ In (RetuneFailed hz) l) \/
      l = [RetuneFailed (frequency (state tick)); LoggedError msg])) ->
  retune_failed self (with_event (Slept (1 / 10)) tick) ->
  exists measuring,
    (measuring = [] \/ measuring = [LoggedError "Signal strength error"]) /\
    events_since self (with_event (Slept (1 / 10)) tick) =
      measuring ++ [RetuneFailed (frequency (state tick)); LoggedError msg;
                    Slept (1 / 10)].
Proof.
  intros Hshape Hfail.
  destruct Hshape as [T|(l & T & Hl)].
  - exfalso. revert Hfail. apply (not_retune_failed _ _ [Slept (1 / 10)]).
    + cbn. now rewrite T.
    + intros hz [H|[]]; discriminate.
  - assert (exists measuring,
              (measuring = [] \/ measuring = [LoggedError "Signal strength error"]) /\
              trace (after_measure self) = trace self ++ measuring) as (m & Hm & Tm).
    { destruct (after_measure_trace self) as [E|E].
      - exists []. split; [auto|]. now rewrite app_nil_r.
      - exists [LoggedError "Signal strength error"]. auto. }
    assert (trace (with_event (Slept (1 / 10)) tick)
            = trace self ++ (m ++ l ++ [Slept (1 / 10)])) as Tall.
    { cbn. rewrite T, Tm, <- !app_assoc. reflexivity. }
    destruct Hl as [Hno| ->].
    + exfalso. revert Hfail. apply (not_retune_failed _ _ _ Tall).
      intros hz Hin. apply in_app_or in Hin. destruct Hin as [Hin|Hin].
      * destruct Hm as [-> | ->]; [destruct Hin|].
        destruct Hin as [H|[]]; discriminate.
      * apply in_app_or in Hin. destruct Hin as [Hin|[H|[]]];
          [exact (Hno hz Hin)|discriminate].
    + exists m. split; [exact Hm|].
      apply events_since_app. rewrite Tall. reflexivity.
Qed.

(** C2, as the code has it.  On a scan tick in which the retune fails,
    the exception is caught and logged inside the tick: the tick returns
    normally, the scanning flags are untouched and the worker loop goes
    on to its next pass; since the tick began the trace holds what the
    measurement logged (nothing, or its own error), then the failed
    retune to the frequency the state now holds, the log of the scan's
    [except] clause and the worker's pause.  The state's frequency is
    not restored: it is the new frequency the tick chose (the next step
    or the wrap of an auto scan, the next preset of a preset scan, whose
    index has moved on too), since it was assigned before the tuner was
    called. *)
Theorem retune_failure_is_caught (self : Scanner) :
  retune_failed self (exec scan_tick self) ->
  let self' := exec scan_tick self in
  result scan_tick self = Returned tt /\
  is_scanning (state self') = is_scanning (state self) /\
  running self' = running self /\
  (forall fuel,
     is_scanning (state self) && running self = true ->
     scan_loop (S fuel) self = scan_loop fuel self') /\
  (exists measuring,
     (measuring = [] \/ measuring = [LoggedError "Signal strength error"]) /\
     events_since self self' =
       measuring ++
       [RetuneFailed (frequency (state self'));
        LoggedError (match scan_mode (state self) with
                     | PRESET_SCAN => "Preset scan error"
                     | _ => "Auto scan error"
                     end);
        Slept (1 / 10)]) /\
  ((scan_mode (state self) = AUTO_SCAN /\
    frequency (state self') = auto_scan_next (state self) /\
    (min_freq_of (service_type (state self)) <= frequency (state self) ->
     frequency (state self') <> frequency (state self))) \/
   (scan_mode (state self) = PRESET_SCAN /\
    exists bank preset,
      let idx := ((current_preset (state self) + 1) mod len bank)%Z in
      current_bank self = Some bank /\
      nth_error bank (Z.to_nat idx) = Some preset /\
      current_preset (state self') = idx /\
      frequency (state self') = preset_frequency preset)).
Proof.
  intros Hfail self'.
  assert (result scan_tick self = Returned tt) as Hres.
  { unfold result. now rewrite scan_tick_returns. }
  assert (forall fuel,
     is_scanning (state self) && running self = true ->
     scan_loop (S fuel) self = scan_loop fuel self') as Hloop.
  { intros fuel Hc. unfold self', exec. cbn [scan_loop]. run_monad.
    rewrite Hc, scan_tick_returns. reflexivity. }
  unfold self', exec in *. rewrite scan_tick_returns in *. cbn [snd] in *.
  split; [exact Hres|].
  destruct (scan_mode (state self)) eqn:Hmode.
  - exfalso. exact (no_retune_in_pause self _ Hfail).
  - destruct (auto_scan_frame self) as (Hsc & Hrun & _).
    split; [exact Hsc|]. split; [exact Hrun|]. split; [exact Hloop|].
    split.
    { exact (failed_tick_trace self (exec _auto_scan self) "Auto scan error"
               (or_intror (auto_scan_trace self)) Hfail). }
    left. split; [reflexivity|].
    destruct (Rlt_dec (IZR (squelch_level (state self))) (measured self)) as [Hocc|Hu].
    + exfalso. unfold exec in Hfail. rewrite (auto_scan_hold self Hocc) in Hfail.
      exact (no_retune_in_hold self _ _ Hfail).
    + cbn. rewrite (auto_scan_advance_state self Hu). cbn. split; [reflexivity|].
      apply auto_scan_next_moves.
  - split; [apply preset_scan_keeps_scanning|].
    split; [apply preset_scan_keeps_sdr|]. split; [exact Hloop|].
    split.
    { exact (failed_tick_trace self (exec _preset_scan self) "Preset scan error"
               (preset_scan_trace self) Hfail). }
    right. split; [reflexivity|].
    destruct (current_bank self) as [bank|] eqn:Hb.
    + destruct bank as [|p bank'].
      * exfalso. unfold exec in Hfail.
        rewrite (preset_scan_no_bank self (or_intror Hb)) in Hfail.
        exact (no_retune_in_pause self _ Hfail).
      * assert (p :: bank' <> []) as Hne by discriminate.
        destruct (Rlt_dec (IZR (squelch_level (state self))) (measured self)) as [Hocc|Hu].
        -- exfalso. unfold exec in Hfail.
           rewrite (preset_scan_hold self _ Hb Hne) in Hfail
             by (unfold unoccupied; tauto).
           exact (no_retune_in_hold self _ _ Hfail).
        -- destruct (preset_scan_step self _ Hb Hne Hu) as (_ & Hcp & preset & Hnth & Hf).
           exists (p :: bank'), preset. cbn zeta. auto.
    + exfalso. unfold exec in Hfail.
      rewrite (preset_scan_no_bank self (or_introl Hb)) in Hfail.
      exact (no_retune_in_pause self _ Hfail).
Qed.

Lemma retune_failure_is_caught_witness :
  result scan_tick stuck_scanner = Returned tt /\
  (forall fuel, scan_loop (S fuel) stuck_scanner
                = scan_loop fuel (exec scan_tick stuck_scanner)) /\
  In (LoggedError "Auto scan error")
     (events_since stuck_scanner (exec scan_tick stuck_scanner)).
Proof.
  pose proof (retune_failure_is_caught stuck_scanner (proj1 stuck_scanner_tick))
    as (Hres & _ & _ & Hloop & (measuring & _ & Hlog) & _).
  split; [exact Hres|]. split.
  - intros fuel. apply Hloop. reflexivity.
  - rewrite Hlog. apply in_or_app. right. cbn. auto.
Defined.

(** C2, as stated, fails: on the tick of [stuck_scanner] the retune
    fails, yet the state's frequency has moved from 88.0 to 88.1 MHz. *)
Lemma retune_failure_moves_frequency :
  retune_failed stuck_scanner (exec scan_tick stuck_scanner) /\
  frequency (state stuck_scanner) = 88000000 /\
  frequency (state (exec scan_tick stuck_scanner)) <> frequency (state stuck_scanner).
Proof.
  destruct stuck_scanner_tick as (Hfail & Hf).
  split; [exact Hfail|]. split; [reflexivity|].
  rewrite Hf. cbn. lra.
Qed.

(** ** The band invariant *)

Lemma band_not_empty (t : ServiceType) : min_freq_of t < max_freq_of t.
Proof.
  unfold min_freq_of, max_freq_of. destruct t; cbn; lra.
Qed.

Lemma step_positive (t : ServiceType) : 0 < IZR (step_of t).
Proof.
  unfold step_of. destruct t; cbn; lra.
Qed.

Lemma tune_frequency_state (direction : Z) (self : Scanner) :
  let s := state self in
  let new_freq :=
    py_max (min_freq_of (service_type s))
      (py_min (max_freq_of (service_type s))
         (frequency s + IZR (direction * step_of (service_type s)))) in
  state (exec (_tune_frequency direction) self) = upd_frequency new_freq s.
Proof.
  intros s new_freq. unfold new_freq, s, exec, _tune_frequency, min_freq_of,
    max_freq_of, step_of.
  run_monad.
  destruct (SERVICE_RANGES (service_type (state self))) as [[[mn mx] st] md].
  cbn [fst snd].
  destruct (Req_dec_T _ _) as [E|E].
  - cbn. rewrite E. now destruct (state self).
  - cbn. destruct (sdr self) as [dev|]; [|reflexivity].
    destruct (set_center_freq dev _ _); reflexivity.
Qed.

Lemma tune_frequency_in_band (direction : Z) (self : Scanner) :
  in_band (state (exec (_tune_frequency direction) self)).
Proof.
  rewrite tune_frequency_state. unfold in_band. cbn.
  pose proof (band_not_empty (service_type (state self))).
  unfold py_max, py_min. repeat destruct (Rlt_dec _ _); lra.
Qed.

Lemma cycle_service_type_state (self : Scanner) :
  let t := ServiceType_next (service_type (state self)) in
  state (exec _cycle_service_type self) =
    upd_frequency (min_freq_of t) (upd_service_type t (state self)).
Proof.
  intros t. unfold t, exec, _cycle_service_type, _setup_sdr, min_freq_of.
  run_monad. cbn.
  destruct (SERVICE_RANGES (ServiceType_next (service_type (state self))))
    as [[[mn mx] st] md].
  cbn. destruct (usb self) as [dev|]; [|reflexivity].
  cbn. destruct (set_center_freq dev _ _); reflexivity.
Qed.

Lemma cycle_service_type_in_band (self : Scanner) :
  in_band (state (exec _cycle_service_type self)).
Proof.
  rewrite cycle_service_type_state. unfold in_band. cbn.
  pose proof (band_not_empty (ServiceType_next (service_type (state self)))). lra.
Qed.

Lemma auto_scan_in_band (self : Scanner) :
  in_band (state self) -> in_band (state (exec _auto_scan self)).
Proof.
  unfold in_band. intros H.
  destruct (after_measure_frame self) as (Hf & _ & Hty & _).
  destruct (Rlt_dec (IZR (squelch_level (state self))) (measured self)) as [Hocc|Hu].
  - unfold exec. rewrite (auto_scan_hold self Hocc). cbn. now rewrite Hf, Hty.
  - rewrite (auto_scan_advance_state self Hu). cbn. rewrite Hty.
    pose proof (step_positive (service_type (state self))).
    unfold auto_scan_next. destruct (Rlt_dec _ _); lra.
Qed.

Lemma preset_scan_in_band (self : Scanner) :
  in_band (state self) ->
  (forall bank preset,
     current_bank self = Some bank -> In preset bank ->
     min_freq_of (service_type (state self)) <= preset_frequency preset
       <= max_freq_of (service_type (state self))) ->
  in_band (state (exec _preset_scan self)).
Proof.
  unfold in_band. intros H Hbank.
  destruct (after_measure_frame self) as (Hf & _ & Hty & _).
  destruct (current_bank self) as [[|p bank']|] eqn:Hb.
  - unfold exec. now rewrite (preset_scan_no_bank self (or_intror Hb)).
  - assert (p :: bank' <> []) as Hne by discriminate.
    destruct (Rlt_dec (IZR (squelch_level (state self))) (measured self)) as [Hocc|Hu].
    + unfold exec. rewrite (preset_scan_hold self _ Hb Hne) by (unfold unoccupied; tauto).
      cbn. now rewrite Hf, Hty.
    + destruct (preset_scan_advance_state self _ Hb Hne Hu) as (preset & Hnth & ->).
      cbn. rewrite Hty. apply (Hbank _ preset eq_refl).
      eapply nth_error_In, Hnth.
  - unfold exec. now rewrite (preset_scan_no_bank self (or_introl Hb)).
Qed.

(** C1, as the code has it.  From a state whose frequency lies in the
    band of its service type, a manual tune, an auto-scan tick and a
    service-type cycle lead to such a state again; a preset-scan tick
    does when the presets of the selected bank lie in that band, for it
    takes the frequency of the preset as it is. *)
Theorem band_invariant_preserved (self : Scanner) :
  in_band (state self) ->
  (forall direction, in_band (state (exec (_tune_frequency direction) self))) /\
  in_band (state (exec _auto_scan self)) /\
  in_band (state (exec _cycle_service_type self)) /\
  ((forall bank preset,
      current_bank self = Some bank -> In preset bank ->
      min_freq_of (service_type (state self)) <= preset_frequency preset
        <= max_freq_of (service_type (state self))) ->
   in_band (state (exec _preset_scan self))).
Proof.
  intros H. split; [|split; [|split]].
  - intros direction. apply tune_frequency_in_band.
  - now apply auto_scan_in_band.
  - apply cycle_service_type_in_band.
  - now apply preset_scan_in_band.
Qed.

Lemma default_state_in_band : in_band RadioState_default.
Proof.
  unfold in_band. cbn. lra.
Qed.

Lemma band_invariant_preserved_witness :
  in_band (state (exec (_tune_frequency (-1)) fresh_scanner)) /\
  in_band (state (exec _auto_scan fresh_scanner)) /\
  in_band (state (exec _cycle_service_type fresh_scanner)) /\
  in_band (state (exec _preset_scan fresh_scanner)).
Proof.
  pose proof (band_invariant_preserved fresh_scanner default_state_in_band)
    as (Ht & Ha & Hc & Hp).
  split; [apply Ht|]. split; [exact Ha|]. split; [exact Hc|].
  apply Hp. intros bank preset Hb Hin.
  injection Hb as <-. cbn in Hin |- *.
  destruct Hin as [<-|[<-|[<-|[]]]]; cbn; lra.
Defined.

(** C1, as stated, fails at the preset scan.  On the default
    configuration, started on a silent band: one press of switch 1
    selects bank 1, the aviation bank, while the service type stays FM
    radio; two presses of switch 2 select the preset scan and a press of
    the encoder starts it.  Up to here the frequency is in the band; the
    first pass of the scan worker then tunes to 118.1 MHz, outside
    88-108 MHz. *)
Lemma preset_scan_leaves_band :
  let pressed := exec _switch1_callback started_scanner in
  let preset_mode := exec _toggle_scan_mode (exec _toggle_scan_mode pressed) in
  let scanning := exec _toggle_scan preset_mode in
  let scanned := exec scan_tick scanning in
  in_band (state started_scanner) /\
  in_band (state pressed) /\
  in_band (state preset_mode) /\
  in_band (state scanning) /\
  is_scanning (state scanning) && running scanning = true /\
  service_type (state scanned) = FM_RADIO /\
  frequency (state scanned) = 118100000 /\
  ~ in_band (state scanned).
Proof.
  intros pressed preset_mode scanning scanned.
  assert (state scanning = mkState 88000000 50 FM_RADIO PRESET_SCAN 1 0 0 30 true false)
    as Hs by reflexivity.
  assert (current_bank scanning =
          Some [ mkPreset 121500000 "Emergency" AVIATION AM 25000;
                 mkPreset 118100000 "Tower" AVIATION AM 25000;
                 mkPreset 119100000 "Ground" AVIATION AM 25000 ]) as Hb by reflexivity.
  destruct (measured_reads scanning (steady_sdr (0, 0)) (0, 0) eq_refl eq_refl)
    as (Hm & Ha).
  assert (strength_of_power (fst (0, 0) * fst (0, 0) + snd (0, 0) * snd (0, 0)) = 0) as H0.
  { unfold strength_of_power. cbn [fst snd]. destruct (Rlt_dec _ _); lra. }
  rewrite H0 in Hm, Ha.
  assert (unoccupied scanning) as Hu.
  { unfold unoccupied. rewrite Hm, Hs. cbn. lra. }
  destruct (preset_scan_advance_state scanning _ Hb ltac:(discriminate) Hu)
    as (preset & Hnth & Hst).
  rewrite Hs in Hnth. cbn in Hnth. injection Hnth as <-.
  rewrite Ha in Hst. cbn [state with_state with_call] in Hst. rewrite Hs in Hst.
  assert (state scanned = state (exec _preset_scan scanning)) as Hsc.
  { unfold scanned, exec at 1. rewrite scan_tick_returns.
    rewrite Hs. reflexivity. }
  split; [exact default_state_in_band|].
  split; [exact default_state_in_band|].
  split; [exact default_state_in_band|].
  split; [rewrite Hs; exact default_state_in_band|].
  split; [reflexivity|].
  rewrite Hsc, Hst. cbn. split; [reflexivity|]. split; [reflexivity|].
  unfold in_band. cbn. lra.
Qed.

(** ** Demodulation: unwrapping is local *)

Lemma np_diff_corrected (p1 : list R) :
  forall p0 acc h,
    np_diff (h :: np_add p1 (cumsum_from acc (map ph_correct (np_diff (p0 :: p1))))) =
    match p1 with
    | [] => []
    | y :: _ => (y + (acc + ph_correct (y - p0)) - h) :: steps p1
    end.
Proof.
  induction p1 as [|y p2 IH]; intros p0 acc h; [reflexivity|].
  cbn [np_diff map cumsum_from np_add].
  specialize (IH y (acc + ph_correct (y - p0)) (y + (acc + ph_correct (y - p0)))).
  cbn [np_diff] in IH. rewrite IH.
  destruct p2 as [|z p3]; [reflexivity|].
  cbn [steps]. unfold unwrapped_step. f_equal. f_equal. lra.
Qed.

(** [np.diff(np.unwrap(p))] is the sequence of unwrapped steps: each
    entry depends on two neighbouring phases only. *)
Lemma np_diff_unwrap (p : list R) : np_diff (np_unwrap p) = steps p.
Proof.
  destruct p as [|p0 p1]; [reflexivity|].
  unfold np_unwrap, np_cumsum. rewrite np_diff_corrected.
  destruct p1 as [|y p2]; [reflexivity|].
  cbn [steps]. unfold unwrapped_step. f_equal. lra.
Qed.

Lemma fm_deviation_steps (samples : list complex) :
  fm_deviation samples = steps (map np_angle samples).
Proof.
  apply np_diff_unwrap.
Qed.

Lemma steps_length (p : list R) : List.length (steps p) = (List.length p - 1)%nat.
Proof.
  induction p as [|x rest IH]; [reflexivity|].
  destruct rest as [|y rest']; [reflexivity|].
  cbn [steps List.length] in *. lia.
Qed.

Lemma steps_app (p q : list R) (a b : R) :
  steps ((p ++ [a]) ++ b :: q) = steps (p ++ [a]) ++ unwrapped_step a b :: steps (b :: q).
Proof.
  induction p as [|x p IH]; [reflexivity|].
  cbn [app]. destruct p as [|y p'].
  - cbn [app steps]. reflexivity.
  - cbn [app] in IH |- *.
    change (steps (x :: y :: (p' ++ [a]) ++ b :: q))
      with (unwrapped_step x y :: steps (y :: (p' ++ [a]) ++ b :: q)).
    change (steps (x :: y :: p' ++ [a]))
      with (unwrapped_step x y :: steps (y :: p' ++ [a])).
    rewrite IH. reflexivity.
Qed.

(** *** No step of an unwrapped phase exceeds half a turn *)

Lemma np_mod_range (x m : R) : 0 < m -> 0 <= np_mod x m < m.
Proof.
  intros Hm. unfold np_mod.
  destruct (base_Int_part (x / m)) as [Hlo Hhi].
  assert (x = m * (x / m)) as Hx by (field; lra).
  split; nra.
Qed.

Lemma unwrapped_step_range (a b : R) : - PI <= unwrapped_step a b <= PI.
Proof.
  unfold unwrapped_step, ph_correct. cbv zeta.
  pose proof PI_RGT_0 as Hpi.
  replace (2 * PI / 2) with PI by field.
  destruct (Rlt_dec (Rabs (b - a)) PI) as [Hs|Hs].
  - rewrite Rplus_0_r. apply Rabs_def2 in Hs. lra.
  - pose proof (np_mod_range (b - a - - PI) (2 * PI) ltac:(lra)) as Hm.
    destruct (Req_dec_T _ _); [destruct (Rlt_dec _ _)|]; lra.
Qed.

Lemma steps_range (p : list R) : Forall (fun v => - PI <= v <= PI) (steps p).
Proof.
  induction p as [|x rest IH]; [constructor|].
  destruct rest as [|y rest']; [constructor|].
  cbn [steps]. constructor; [apply unwrapped_step_range|exact IH].
Qed.

(** *** Lengths along the pipeline *)

Lemma stride_from_length (q : nat) (y : list R) :
  (1 <= q)%nat ->
  forall skip, (skip <= q - 1)%nat ->
  List.length (stride_from skip q y) = ((List.length y + (q - 1) - skip) / q)%nat.
Proof.
  intros Hq. induction y as [|v rest IH]; intros skip Hs.
  - cbn. symmetry. apply Nat.div_small. lia.
  - destruct skip as [|k]; cbn [stride_from List.length].
    + rewrite IH by lia.
      destruct q as [|q']; [lia|].
      replace (S (List.length rest) + (S q' - 1) - 0)%nat
        with (List.length rest + (S q' - 1) - (S q' - 1) + 1 * S q')%nat by lia.
      rewrite Nat.div_add by lia. lia.
    + rewrite IH by lia. f_equal; lia.
Qed.

Lemma stride_length (q : nat) (y : list R) :
  (1 <= q)%nat ->
  List.length (stride q y) = ((List.length y + (q - 1)) / q)%nat.
Proof.
  intros Hq. unfold stride. rewrite stride_from_length by lia. f_equal. lia.
Qed.

Lemma lfilter_from_length (b a : list R) (x : list R) :
  forall xh yh, List.length (lfilter_from b a xh yh x) = List.length x.
Proof.
  induction x as [|xn rest IH]; intros xh yh; [reflexivity|].
  cbn [lfilter_from List.length]. now rewrite IH.
Qed.

Lemma decimate_some (lib : Scipy) (x : list R) (q : Z) :
  (1 <= q)%Z ->
  (padlen < List.length x)%nat ->
  exists audio, decimate lib x q = Some audio /\
    List.length audio = ((List.length x + (Z.to_nat q - 1)) / Z.to_nat q)%nat.
Proof.
  intros Hq H. destruct (filtfilt_length lib q x H) as (y & Hy & Hlen).
  exists (stride (Z.to_nat q) y). unfold decimate. rewrite Hy.
  split; [reflexivity|]. rewrite stride_length by lia. now rewrite Hlen.
Qed.

Lemma decimate_none (lib : Scipy) (x : list R) (q : Z) :
  (List.length x <= padlen)%nat -> decimate lib x q = None.
Proof.
  intros H. unfold decimate. now rewrite (filtfilt_short lib q x H).
Qed.

Lemma demodulate_fm_length (lib : Scipy) (samples : list complex) :
  (padlen + 1 < List.length samples)%nat ->
  List.length (_demodulate_fm lib samples) = ((List.length samples + 40) / 42)%nat.
Proof.
  intros H. unfold _demodulate_fm.
  assert (List.length (np_diff (np_unwrap (map np_angle samples)))
          = (List.length samples - 1)%nat) as Hlen.
  { now rewrite np_diff_unwrap, steps_length, length_map. }
  destruct (decimate_some lib (np_diff (np_unwrap (map np_angle samples))) decimation)
    as (audio & Hd & Ha).
  { discriminate. }
  { rewrite Hlen. unfold padlen in *. lia. }
  rewrite Hd. unfold lfilter. rewrite lfilter_from_length, Ha, Hlen.
  change (Z.to_nat decimation) with 42%nat.
  f_equal. unfold padlen in H. lia.
Qed.

(** ** Chunk seams *)

(** C3, as the code has it.  [_demodulate_fm] keeps nothing from one
    chunk to the next: its output is computed from the deviations of the
    chunk at hand, and each chunk is unwrapped from its own first
    sample.  Every phase deviation depends on two neighbouring samples
    only and lies within half a turn, so no chunk shows a jump of a full
    turn; but a chunk of [n] samples gives [n - 1] deviations, and the
    deviation across the seam of two chunks is in neither: the
    deviations of the concatenated chunk are those of the first chunk,
    the seam's, and those of the second. *)
Theorem fm_deviation_across_seam (c1 c2 : list complex) (z1 z2 : complex) :
  let chunk1 := c1 ++ [z1] in
  let chunk2 := z2 :: c2 in
  (forall lib chunk,
     _demodulate_fm lib chunk =
       match decimate lib (fm_deviation chunk) decimation with
       | None => []
       | Some audio => lfilter [alpha] [1; alpha - 1] audio
       end) /\
  fm_deviation (chunk1 ++ chunk2) =
    fm_deviation chunk1
      ++ unwrapped_step (np_angle z1) (np_angle z2) :: fm_deviation chunk2 /\
  Forall (fun v => - PI <= v <= PI) (fm_deviation (chunk1 ++ chunk2)) /\
  List.length (fm_deviation (chunk1 ++ chunk2)) =
    S (List.length (fm_deviation chunk1 ++ fm_deviation chunk2)).
Proof.
  intros chunk1 chunk2. split; [reflexivity|].
  assert (fm_deviation (chunk1 ++ chunk2) =
          fm_deviation chunk1
            ++ unwrapped_step (np_angle z1) (np_angle z2) :: fm_deviation chunk2) as E.
  { unfold chunk1, chunk2. rewrite !fm_deviation_steps.
    rewrite !map_app. cbn [map]. apply steps_app. }
  split; [exact E|]. split.
  - rewrite fm_deviation_steps. apply steps_range.
  - rewrite E, !length_app. cbn [List.length]. lia.
Qed.

Lemma np_angle_1_0 : np_angle (1, 0) = 0.
Proof.
  unfold np_angle, np_arctan2. cbn [fst snd].
  destruct (Rlt_dec 0 1); [|lra].
  replace (0 / 1) with 0 by field. apply atan_0.
Qed.

Lemma np_angle_0_1 : np_angle (0, 1) = PI / 2.
Proof.
  unfold np_angle, np_arctan2. cbn [fst snd].
  destruct (Rlt_dec 0 0); [lra|].
  destruct (Rlt_dec 0 1); [reflexivity|lra].
Qed.

(** C3, as stated, fails.  Two chunks of 43 samples of a still carrier
    (phase 0 throughout) give one audio sample each, the concatenated
    chunk gives three: whatever low-pass filter decimation uses, the two
    outputs put together are not the output of the concatenated chunk. *)
Lemma fm_two_chunks_differ :
  let chunk := repeat (1, 0) 43 in
  Forall (fun z => np_angle z = 0) (chunk ++ chunk) /\
  ~ exists lib : Scipy,
      _demodulate_fm lib chunk ++ _demodulate_fm lib chunk
      = _demodulate_fm lib (chunk ++ chunk).
Proof.
  intros chunk. split.
  - apply Forall_forall. intros z Hz. apply in_app_or in Hz.
    assert (z = (1, 0)) as -> by (destruct Hz as [Hz|Hz]; exact (repeat_spec _ _ _ Hz)).
    apply np_angle_1_0.
  - intros (lib & E). apply (f_equal (@List.length R)) in E.
    rewrite length_app in E.
    rewrite !demodulate_fm_length in E
      by (unfold chunk, padlen; rewrite ?length_app, !repeat_length; lia).
    unfold chunk in E. rewrite length_app, !repeat_length in E.
    cbn in E. discriminate.
Qed.

(** ** Narrow FM against FM *)

Lemma lfilter_deemph_from (x : list R) :
  forall xh yh,
    lfilter_from [alpha] [1; alpha - 1] xh yh x = deemph_from (hd 0 yh) x.
Proof.
  induction x as [|xn rest IH]; intros xh yh; [reflexivity|].
  cbn [lfilter_from deemph_from hd tl].
  assert ((dot [alpha] (xn :: xh) - dot [alpha - 1] yh) / 1
          = alpha * xn + (1 - alpha) * hd 0 yh) as E.
  { destruct yh as [|y yh']; cbn [dot hd]; field. }
  rewrite E, IH. reflexivity.
Qed.

Lemma lfilter_deemph (x : list R) :
  lfilter [alpha] [1; alpha - 1] x = deemph_from 0 x.
Proof.
  unfold lfilter. now rewrite lfilter_deemph_from.
Qed.

Lemma alpha_lt_1 : alpha < 1.
Proof.
  unfold alpha. pose proof (exp_pos (- 1 / (IZR AUDIO_RATE * tau))). lra.
Qed.

(** De-emphasis leaves a signal as it is only when the signal is silent. *)
Lemma deemph_fixed_point (x : list R) :
  deemph_from 0 x = x <-> Forall (fun v => v = 0) x.
Proof.
  pose proof alpha_lt_1 as Ha. split.
  - induction x as [|xn rest IH]; intros E; [constructor|].
    cbn [deemph_from] in E. injection E as E0 E1.
    assert (xn = 0) as -> by nra.
    constructor; [reflexivity|]. apply IH.
    replace (alpha * 0 + (1 - alpha) * 0) with 0 in E1 by lra. exact E1.
  - induction 1 as [|xn rest -> _ IH]; [reflexivity|].
    cbn [deemph_from]. replace (alpha * 0 + (1 - alpha) * 0) with 0 by lra.
    now rewrite IH.
Qed.

Lemma map_times_1 (l : list R) : map (fun v => v * 1) l = l.
Proof.
  induction l as [|v l IH]; [reflexivity|]. cbn [map]. rewrite IH. f_equal. lra.
Qed.

(** C9, as the code has it.  NFM is the FM pipeline with the phase
    deviation multiplied by 0.5 before decimation and without the
    de-emphasis filter: its output is the decimated audio itself.  The
    pipeline of the claim runs the de-emphasis filter on that output,
    and agrees with the code only on silent output. *)
Theorem demodulate_nfm_refines (lib : Scipy) (samples : list complex) :
  _demodulate_fm lib samples = fm_pipeline lib 1 true samples /\
  _demodulate_nfm lib samples = fm_pipeline lib (1 / 2) false samples /\
  nfm_as_specified lib samples =
    lfilter [alpha] [1; alpha - 1] (_demodulate_nfm lib samples) /\
  (nfm_as_specified lib samples = _demodulate_nfm lib samples <->
   Forall (fun v => v = 0) (_demodulate_nfm lib samples)).
Proof.
  assert (nfm_as_specified lib samples =
          lfilter [alpha] [1; alpha - 1] (_demodulate_nfm lib samples)) as E.
  { unfold nfm_as_specified, fm_pipeline, _demodulate_nfm, fm_deviation.
    destruct (decimate lib _ decimation); reflexivity. }
  split; [|split; [|split]].
  - unfold fm_pipeline, _demodulate_fm, fm_deviation. now rewrite map_times_1.
  - reflexivity.
  - exact E.
  - rewrite E, lfilter_deemph. apply deemph_fixed_point.
Qed.

Lemma demodulate_nfm_naive_head (z0 z1 : complex) (rest : list complex) :
  (27 <= List.length rest)%nat ->
  exists tail,
    _demodulate_nfm naive_scipy (z0 :: z1 :: rest) =
    unwrapped_step (np_angle z0) (np_angle z1) * (1 / 2) :: tail.
Proof.
  intros H. unfold _demodulate_nfm. rewrite np_diff_unwrap.
  cbn [map]. 
  change (steps (np_angle z0 :: np_angle z1 :: map np_angle rest))
    with (unwrapped_step (np_angle z0) (np_angle z1)
            :: steps (np_angle z1 :: map np_angle rest)).
  cbn [map]. unfold decimate. cbn [filtfilt naive_scipy]. unfold naive_filtfilt.
  destruct (Nat.leb_spec
              (List.length
                 (unwrapped_step (np_angle z0) (np_angle z1) * (1 / 2)
                  :: map (fun v => v * (1 / 2)) (steps (np_angle z1 :: map np_angle rest))))
              padlen) as [Hle|_].
  - cbn [List.length] in Hle.
    rewrite length_map, steps_length in Hle. cbn [List.length] in Hle.
    rewrite length_map in Hle. unfold padlen in Hle. lia.
  - eexists. reflexivity.
Qed.

Lemma unwrapped_step_small (a b : R) :
  Rabs (b - a) < PI -> unwrapped_step a b = b - a.
Proof.
  intros H. unfold unwrapped_step, ph_correct. cbv zeta.
  destruct (Rlt_dec (Rabs (b - a)) PI); [lra|contradiction].
Qed.

(** C9, as stated, fails: with the identity for the low-pass filter, the
    quarter-step chunk gives NFM audio that starts with [pi/4], which
    the de-emphasis filter of the claim's pipeline would change. *)
Lemma nfm_is_not_deemphasised :
  _demodulate_nfm naive_scipy quarter_step_chunk
    <> nfm_as_specified naive_scipy quarter_step_chunk /\
  ~ (forall (lib : Scipy) (samples : list complex),
       _demodulate_nfm lib samples = nfm_as_specified lib samples).
Proof.
  assert (_demodulate_nfm naive_scipy quarter_step_chunk
          <> nfm_as_specified naive_scipy quarter_step_chunk) as Hne.
  { intros E. symmetry in E.
    apply (proj1 (proj2 (proj2 (proj2
             (demodulate_nfm_refines naive_scipy quarter_step_chunk))))) in E.
    destruct (demodulate_nfm_naive_head (1, 0) (0, 1) (repeat (0, 1) 27))
      as (tail & Ht).
    { rewrite repeat_length. lia. }
    change ((1, 0) :: (0, 1) :: repeat (0, 1) 27) with quarter_step_chunk in Ht.
    rewrite Ht in E. inversion E as [|v l Hv _]; subst.
    rewrite np_angle_1_0, np_angle_0_1 in Hv.
    pose proof PI_RGT_0 as Hpi.
    rewrite unwrapped_step_small in Hv.
    - lra.
    - rewrite Rabs_right; lra. }
  split; [exact Hne|].
  intros H. exact (Hne (H naive_scipy quarter_step_chunk)).
Qed.

(** ** The audio worker's output range *)

Lemma rotating_length (n : nat) : List.length (rotating n) = (4 * n)%nat.
Proof.
  induction n as [|n IH]; [reflexivity|]. cbn [rotating List.length]. lia.
Qed.

Lemma np_angle_m1_0 : np_angle (-1, 0) = PI.
Proof.
  unfold np_angle, np_arctan2. cbn [fst snd].
  destruct (Rlt_dec 0 (-1)); [lra|].
  destruct (Rlt_dec (-1) 0); [|lra].
  destruct (Rle_dec 0 0); [|lra].
  replace (0 / -1) with 0 by (field; lra). rewrite atan_0. lra.
Qed.

Lemma np_angle_0_m1 : np_angle (0, -1) = - PI / 2.
Proof.
  unfold np_angle, np_arctan2. cbn [fst snd].
  destruct (Rlt_dec 0 0); [lra|].
  destruct (Rlt_dec 0 (-1)); [lra|].
  destruct (Rlt_dec (-1) 0); [reflexivity|lra].
Qed.

(** A raw step of three quarters of a turn backwards is unwrapped to a
    quarter turn forwards. *)
Lemma unwrapped_step_wraps (a b : R) :
  b - a = - (3 * PI / 2) -> unwrapped_step a b = PI / 2.
Proof.
  intros H. unfold unwrapped_step, ph_correct. cbv zeta. rewrite H.
  pose proof PI_RGT_0 as Hpi.
  replace (2 * PI / 2) with PI by field.
  destruct (Rlt_dec (Rabs (- (3 * PI / 2))) PI) as [Hs|_].
  { rewrite Rabs_left in Hs; lra. }
  assert (np_mod (- (3 * PI / 2) - - PI) (2 * PI) = 3 * PI / 2) as Hm.
  { unfold np_mod.
    replace ((- (3 * PI / 2) - - PI) / (2 * PI)) with (- (1 / 4)) by (field; lra).
    rewrite <- (Int_part_spec (- (1 / 4)) (-1)%Z) by (split; lra). lra. }
  rewrite Hm.
  destruct (Req_dec_T (3 * PI / 2 + - PI) (- PI)); lra.
Qed.

Lemma rotating_turn (rest : list R) :
  steps (np_angle (1, 0) :: np_angle (0, 1) :: np_angle (-1, 0) :: np_angle (0, -1)
           :: np_angle (1, 0) :: rest)
  = PI / 2 :: PI / 2 :: PI / 2 :: PI / 2 :: steps (np_angle (1, 0) :: rest).
Proof.
  pose proof PI_RGT_0 as Hpi.
  cbn [steps]. rewrite np_angle_1_0, np_angle_0_1, np_angle_m1_0, np_angle_0_m1.
  rewrite (unwrapped_step_small 0 (PI / 2)) by (rewrite Rabs_right; lra).
  rewrite (unwrapped_step_small (PI / 2) PI) by (rewrite Rabs_right; lra).
  rewrite (unwrapped_step_wraps PI (- PI / 2)) by lra.
  rewrite (unwrapped_step_small (- PI / 2) 0) by (rewrite Rabs_right; lra).
  replace (PI / 2 - 0) with (PI / 2) by lra.
  replace (PI - PI / 2) with (PI / 2) by lra.
  replace (0 - - PI / 2) with (PI / 2) by lra.
  reflexivity.
Qed.

Lemma rotating_deviation (n : nat) :
  fm_deviation (rotating (S n)) = repeat (PI / 2) (4 * n + 3).
Proof.
  rewrite fm_deviation_steps. induction n as [|n IH].
  - pose proof PI_RGT_0 as Hpi.
    cbn [rotating map steps Nat.mul Nat.add repeat].
    rewrite np_angle_1_0, np_angle_0_1, np_angle_m1_0, np_angle_0_m1.
    rewrite (unwrapped_step_small 0 (PI / 2)) by (rewrite Rabs_right; lra).
    rewrite (unwrapped_step_small (PI / 2) PI) by (rewrite Rabs_right; lra).
    rewrite (unwrapped_step_wraps PI (- PI / 2)) by lra.
    replace (PI / 2 - 0) with (PI / 2) by lra.
    replace (PI - PI / 2) with (PI / 2) by lra.
    reflexivity.
  - change (rotating (S (S n)))
      with ((1, 0) :: (0, 1) :: (-1, 0) :: (0, -1) :: (1, 0) :: tl (rotating (S n))).
    cbn [map]. rewrite rotating_turn.
    change (np_angle (1, 0) :: map np_angle (tl (rotating (S n))))
      with (map np_angle (rotating (S n))).
    rewrite IH.
    replace (4 * S n + 3)%nat with (S (S (S (S (4 * n + 3))))) by lia.
    reflexivity.
Qed.

Lemma np_clip_range (lo hi v : R) : lo <= hi -> lo <= np_clip lo hi v <= hi.
Proof.
  intros H. unfold np_clip, py_min, py_max. repeat destruct (Rlt_dec _ _); lra.
Qed.

Lemma AudioOutput_scaled_range (volume : Z) (audio : list R) :
  Forall (fun v => -1 <= v <= 1) (AudioOutput_scaled volume audio).
Proof.
  unfold AudioOutput_scaled. apply Forall_map, Forall_forall.
  intros v _. apply np_clip_range. lra.
Qed.

(** The methods return what the demodulators give, and log exactly when
    the decimation refused its input. *)
Lemma demodulate_fm_method_runs (lib : Scipy) (samples : list complex)
  (self : Scanner) :
  _demodulate_fm_method lib samples self =
    (Returned (_demodulate_fm lib samples),
     match decimate lib (fm_deviation samples) decimation with
     | Some _ => self
     | None => with_event (LoggedError "FM demodulation error") self
     end).
Proof.
  unfold _demodulate_fm_method, _demodulate_fm, fm_deviation, scipy_decimate.
  run_monad. destruct (decimate lib _ decimation); reflexivity.
Qed.

Lemma demodulate_am_method_runs (lib : Scipy) (samples : list complex)
  (self : Scanner) :
  _demodulate_am_method lib samples self =
    (Returned (_demodulate_am lib samples),
     match decimate lib
             (map (fun v => v - np_mean (map np_abs samples)) (map np_abs samples))
             decimation with
     | Some _ => self
     | None => with_event (LoggedError "AM demodulation error") self
     end).
Proof.
  unfold _demodulate_am_method, _demodulate_am, scipy_decimate.
  run_monad. destruct (decimate lib _ decimation); reflexivity.
Qed.

Lemma demodulate_nfm_method_runs (lib : Scipy) (samples : list complex)
  (self : Scanner) :
  _demodulate_nfm_method lib samples self =
    (Returned (_demodulate_nfm lib samples),
     match decimate lib (map (fun v => v * (1 / 2)) (fm_deviation samples))
             decimation with
     | Some _ => self
     | None => with_event (LoggedError "NFM demodulation error") self
     end).
Proof.
  unfold _demodulate_nfm_method, _demodulate_nfm, fm_deviation, scipy_decimate.
  run_monad. destruct (decimate lib _ decimation); reflexivity.
Qed.

Lemma demodulate_method_returns (lib : Scipy) (samples : list complex)
  (self : Scanner) :
  result (_demodulate_method lib samples) self =
    Returned (_demodulate lib (state self) samples).
Proof.
  unfold result, _demodulate_method, _demodulate. run_monad.
  destruct (modulation_of (service_type (state self)));
    [rewrite demodulate_fm_method_runs|rewrite demodulate_am_method_runs
    |rewrite demodulate_nfm_method_runs]; reflexivity.
Qed.

(** A chunk that demodulates to something is demodulated silently. *)
Lemma demodulate_method_quiet (lib : Scipy) (samples : list complex)
  (self : Scanner) (audio : list R) :
  _demodulate lib (state self) samples = Some audio ->
  audio <> [] ->
  _demodulate_method lib samples self = (Returned (Some audio), self).
Proof.
  unfold _demodulate_method, _demodulate. run_monad.
  destruct (modulation_of (service_type (state self))); intros [= <-] Hne.
  - rewrite demodulate_fm_method_runs.
    unfold _demodulate_fm, fm_deviation in *.
    destruct (decimate lib _ decimation); [reflexivity|congruence].
  - rewrite demodulate_am_method_runs.
    unfold _demodulate_am in *.
    destruct (decimate lib _ decimation); [reflexivity|congruence].
  - rewrite demodulate_nfm_method_runs.
    unfold _demodulate_nfm, fm_deviation in *.
    destruct (decimate lib _ decimation); [reflexivity|congruence].
Qed.

Lemma audio_worker_pass_plays (lib : Scipy) (self : Scanner) (dev : RtlSdr)
  (samples : list complex) (audio : list R) :
  sdr self = Some dev ->
  is_muted (state self) = false ->
  read_samples dev (calls self) (CHUNK_SIZE * 4) = Some samples ->
  _demodulate lib (state self) samples = Some audio ->
  audio <> [] ->
  audio_worker_pass lib self =
    (Returned tt,
     with_event (Played (audio_worker_pcm (volume (state self)) audio)) (with_call self)).
Proof.
  intros Hsdr Hmute Hread Hdemod Hne. unfold audio_worker_pass. run_monad.
  rewrite Hsdr, Hmute, Hread.
  rewrite (demodulate_method_quiet lib samples (with_call self) audio Hdemod Hne).
  destruct audio as [|v audio']; [congruence|reflexivity].
Qed.

(** C4 fails on [_audio_worker]: it scales by [volume / 100] and
    converts, without the clamp its sibling has.  Whatever is
    demodulated goes to the sink as [v * (volume / 100) * 32767].  A
    4096-sample chunk of a carrier a quarter of the sample rate off
    centre has a phase deviation of [pi/2] at every sample; a
    demodulated sample of that size leaves the audio worker at volume
    100 as [pi/2], which is above 1, so [pi/2 * 32767] goes to the
    16-bit conversion, above 32767.  [AudioOutput._demodulate] clips the
    same sample to 1, and any sample into [[-1, 1]]. *)
Theorem audio_worker_does_not_clamp :
  (forall lib self dev samples audio,
     sdr self = Some dev ->
     is_muted (state self) = false ->
     read_samples dev (calls self) (CHUNK_SIZE * 4) = Some samples ->
     _demodulate lib (state self) samples = Some audio ->
     audio <> [] ->
     events_since self (exec (audio_worker_pass lib) self) =
       [Played (map (fun v => v * (IZR (volume (state self)) / 100) * 32767) audio)]) /\
  List.length (rotating 1024) = 4096%nat /\
  fm_deviation (rotating 1024) = repeat (PI / 2) 4095 /\
  audio_worker_scaled 100 [PI / 2] = [PI / 2] /\
  1 < PI / 2 /\
  Exists (fun v => 32767 < v) (audio_worker_pcm 100 [PI / 2]) /\
  AudioOutput_scaled 100 [PI / 2] = [1] /\
  (forall volume audio,
     Forall (fun v => -1 <= v <= 1) (AudioOutput_scaled volume audio)).
Proof.
  pose proof PI2_1 as Hpi.
  split.
  { intros lib self dev samples audio Hsdr Hmute Hread Hdemod Hne.
    unfold exec.
    rewrite (audio_worker_pass_plays lib self dev samples audio Hsdr Hmute Hread Hdemod Hne).
    apply events_since_app. cbn. unfold audio_worker_pcm, audio_worker_scaled.
    now rewrite map_map. }
  split; [apply rotating_length|].
  split; [exact (rotating_deviation 1023)|].
  split; [cbn; f_equal; field|].
  split; [exact Hpi|].
  split.
  - constructor. lra.
  - split; [|apply AudioOutput_scaled_range].
    unfold AudioOutput_scaled, np_clip, py_min, py_max. cbn [map].
    f_equal. repeat destruct (Rlt_dec _ _); lra.
Qed.

(** * Further properties of the scanner *)

(** ** Volume *)

Lemma adjust_volume_exec (direction : Z) (self : Scanner) :
  exec (_adjust_volume direction) self =
    with_event (LoggedInfo "Volume")
      (with_state
         (upd_volume (Z.max 0 (Z.min 100 (volume (state self) + direction * 5))))
         self).
Proof.
  reflexivity.
Qed.

Lemma run_each_snoc {A} (m : A -> M unit) (l : list A) (a : A) (self : Scanner) :
  run_each m (l ++ [a]) self = exec (m a) (run_each m l self).
Proof.
  unfold run_each. now rewrite fold_left_app.
Qed.

(** X1. The volume never leaves [[0, 100]]: after any sequence of knob
    turns, of any direction, from a volume in range, the volume is in
    range.  A turn whose target [volume + 5 * direction] is at or above
    100 leaves the volume at exactly 100 (98 turned up becomes 100), one
    whose target is at or below 0 leaves it at exactly 0, and a turn
    whose target is inside moves the volume by exactly five times its
    direction.  No turn touches any other field of the state, or the
    tuner. *)
Theorem volume_stays_in_range (self : Scanner) (directions : list Z) :
  (0 <= volume (state self) <= 100)%Z ->
  let self' := run_each _adjust_volume directions self in
  (0 <= volume (state self') <= 100)%Z /\
  state self' = upd_volume (volume (state self')) (state self) /\
  calls self' = calls self /\
  (forall d, (100 <= volume (state self) + d * 5)%Z ->
     volume (state (exec (_adjust_volume d) self)) = 100%Z) /\
  (forall d, (volume (state self) + d * 5 <= 0)%Z ->
     volume (state (exec (_adjust_volume d) self)) = 0%Z) /\
  (forall d, (0 <= volume (state self) + d * 5 <= 100)%Z ->
     volume (state (exec (_adjust_volume d) self)) = (volume (state self) + d * 5)%Z) /\
  (forall d,
     state (exec (_adjust_volume d) self) =
       upd_volume (volume (state (exec (_adjust_volume d) self))) (state self) /\
     calls (exec (_adjust_volume d) self) = calls self).
Proof.
  intros Hv self'.
  assert ((0 <= volume (state self') <= 100)%Z /\
          state self' = upd_volume (volume (state self')) (state self) /\
          calls self' = calls self) as H.
  { unfold self'. induction directions as [|d ds IH] using rev_ind.
    - cbn. split; [exact Hv|]. split; [now destruct (state self)|reflexivity].
    - rewrite run_each_snoc, adjust_volume_exec.
      destruct IH as (_ & IH1 & IH2). cbn. split; [lia|]. split; [|exact IH2].
      rewrite IH1. reflexivity. }
  destruct H as (H1 & H2 & H3).
  split; [exact H1|]. split; [exact H2|]. split; [exact H3|].
  split; [|split; [|split]]; intros d; try intros Hd;
    rewrite ?adjust_volume_exec; cbn; try lia.
  split; reflexivity.
Qed.

Lemma volume_stays_in_range_witness :
  let self := with_state (upd_volume 98) started_scanner in
  (0 <= volume (state (run_each _adjust_volume [1; 1; -1]%Z self)) <= 100)%Z /\
  volume (state (exec (_adjust_volume 1) self)) = 100%Z.
Proof.
  intros self.
  pose proof (volume_stays_in_range self [1; 1; -1]%Z ltac:(cbn; lia))
    as (Hin & _ & _ & Htop & _).
  split; [exact Hin|]. apply Htop. cbn. lia.
Defined.

(** ** Manual tuning *)

Lemma tune_frequency_exec (direction : Z) (self : Scanner) :
  let hz := tuned_to direction (state self) in
  let moved := with_state (upd_frequency hz) self in
  exec (_tune_frequency direction) self =
    if Req_dec_T hz (frequency (state self)) then self
    else match sdr self with
         | None => with_event (LoggedInfo "Tuned") moved
         | Some dev =>
             if set_center_freq dev (calls self) hz
             then with_event (LoggedInfo "Tuned")
                    (with_event (Retuned hz) (with_call moved))
             else with_event (LoggedError "Frequency tuning error")
                    (with_event (RetuneFailed hz) (with_call moved))
         end.
Proof.
  intros hz moved. subst moved hz.
  unfold tuned_to, exec, _tune_frequency, min_freq_of, max_freq_of, step_of.
  run_monad.
  destruct (SERVICE_RANGES (service_type (state self))) as [[[mn mx] st] md].
  cbn [fst snd].
  destruct (Req_dec_T _ _) as [E|E]; [reflexivity|].
  cbn. destruct (sdr self) as [dev|]; [|reflexivity].
  destruct (set_center_freq dev _ _); reflexivity.
Qed.

Lemma tune_frequency_tuned_to (direction : Z) (self : Scanner) :
  state (exec (_tune_frequency direction) self) =
    upd_frequency (tuned_to direction (state self)) (state self).
Proof.
  exact (tune_frequency_state direction self).
Qed.

Lemma tuned_to_inside (direction : Z) (s : RadioState) :
  min_freq_of (service_type s)
    <= frequency s + IZR (direction * step_of (service_type s))
    <= max_freq_of (service_type s) ->
  tuned_to direction s = frequency s + IZR (direction * step_of (service_type s)).
Proof.
  intros H. unfold tuned_to, py_max, py_min. repeat destruct (Rlt_dec _ _); lra.
Qed.

(** X2. From a frequency that is a whole number of hertz (as the band
    edges, the steps and so every frequency the tuning knob reaches from
    them are), tuning one step up and one step down again (or down and
    up) brings the frequency back, whenever the step taken first stays
    inside the band of the service type; the frequency in between is the
    whole number of hertz one step away. *)
Theorem tune_there_and_back (self : Scanner) (direction hz : Z) :
  let s := state self in
  let step := (direction * step_of (service_type s))%Z in
  frequency s = IZR hz ->
  min_freq_of (service_type s) <= IZR hz <= max_freq_of (service_type s) ->
  min_freq_of (service_type s) <= IZR (hz + step) <= max_freq_of (service_type s) ->
  frequency (state (exec (_tune_frequency direction) self)) = IZR (hz + step) /\
  frequency (state (exec (_tune_frequency (- direction))
                      (exec (_tune_frequency direction) self))) = IZR hz.
Proof.
  intros s step Hz Hin Hstep.
  assert (state (exec (_tune_frequency direction) self)
          = upd_frequency (IZR (hz + step)) s) as H1.
  { rewrite tune_frequency_tuned_to. fold s. rewrite tuned_to_inside.
    - fold step. now rewrite Hz, <- plus_IZR.
    - fold step. now rewrite Hz, <- plus_IZR. }
  split; [now rewrite H1|].
  rewrite tune_frequency_tuned_to, H1.
  cbn [frequency service_type upd_frequency].
  assert (IZR (hz + step) + IZR (- direction * step_of (service_type s)) = IZR hz)
    as Hback.
  { rewrite <- plus_IZR. f_equal. unfold step. lia. }
  rewrite tuned_to_inside; cbn [frequency service_type upd_frequency];
    rewrite Hback; [reflexivity|exact Hin].
Qed.

Lemma tune_there_and_back_witness :
  frequency (state (exec (_tune_frequency (-1))
                      (exec (_tune_frequency 1) started_scanner))) = 88000000.
Proof.
  apply (tune_there_and_back started_scanner 1 88000000); cbn; lra.
Defined.

(** X3. Tuning saturates at the band edges without a trace: at the top
    of the band a turn upwards, and at the bottom a turn downwards,
    leaves the scanner exactly as it was, so the tuner is not called and
    nothing is logged. *)
Theorem tune_saturates_at_band_edges (self : Scanner) (direction : Z) :
  (frequency (state self) = max_freq_of (service_type (state self)) /\ (0 <= direction)%Z) \/
  (frequency (state self) = min_freq_of (service_type (state self)) /\ (direction <= 0)%Z) ->
  exec (_tune_frequency direction) self = self.
Proof.
  intros H. rewrite tune_frequency_exec. cbv zeta.
  destruct (Req_dec_T _ _) as [_|E]; [reflexivity|]. exfalso. apply E.
  pose proof (band_not_empty (service_type (state self))) as Hb.
  pose proof (step_positive (service_type (state self))) as Hs.
  unfold tuned_to, py_max, py_min. rewrite mult_IZR.
  set (p := IZR direction * IZR (step_of (service_type (state self)))).
  destruct H as [[Hf Hd]|[Hf Hd]]; apply IZR_le in Hd.
  - assert (0 <= p) by (unfold p; nra).
    repeat destruct (Rlt_dec _ _); lra.
  - assert (p <= 0) by (unfold p; nra).
    repeat destruct (Rlt_dec _ _); lra.
Qed.

Lemma tune_saturates_at_band_edges_witness :
  exec (_tune_frequency (-1)) started_scanner = started_scanner.
Proof.
  apply (tune_saturates_at_band_edges started_scanner (-1)).
  right. split; [reflexivity|lia].
Defined.

(** X4. A manual tune keeps tuner and state together as far as it can:
    when the frequency changes and a tuner is open, the tuner is asked
    exactly once, for the new frequency of the state; when the tuner
    refuses, the state keeps the new frequency all the same and the
    failure is logged. *)
Theorem tune_asks_tuner_once (self : Scanner) (direction : Z) (dev : RtlSdr) :
  sdr self = Some dev ->
  let self' := exec (_tune_frequency direction) self in
  let hz := frequency (state self') in
  hz <> frequency (state self) ->
  (set_center_freq dev (calls self) hz = true ->
     events_since self self' = [Retuned hz; LoggedInfo "Tuned"]) /\
  (set_center_freq dev (calls self) hz = false ->
     events_since self self' =
       [RetuneFailed hz; LoggedError "Frequency tuning error"]) /\
  calls self' = S (calls self).
Proof.
  intros Hsdr self' hz Hne.
  assert (hz = tuned_to direction (state self)) as Hhz.
  { unfold hz, self'. now rewrite tune_frequency_tuned_to. }
  unfold self' in *. clear self'. rewrite tune_frequency_exec in *. cbv zeta in *.
  rewrite <- Hhz in *. rewrite Hsdr in *.
  destruct (Req_dec_T hz (frequency (state self))) as [E|_]; [contradiction|].
  destruct (set_center_freq dev (calls self) hz) eqn:Hok.
  - split; [|split; [discriminate|reflexivity]].
    intros _. apply events_since_app. cbn. now rewrite <- app_assoc.
  - split; [discriminate|]. split; [|reflexivity].
    intros _. apply events_since_app. cbn. now rewrite <- app_assoc.
Qed.

Lemma tune_asks_tuner_once_witness :
  events_since started_scanner (exec (_tune_frequency 1) started_scanner)
  = [Retuned (frequency (state (exec (_tune_frequency 1) started_scanner)));
     LoggedInfo "Tuned"].
Proof.
  refine (proj1 (tune_asks_tuner_once started_scanner 1 (steady_sdr (0, 0)) eq_refl _)
                eq_refl).
  rewrite tune_frequency_tuned_to, tuned_to_inside; cbn; lra.
Defined.

(** ** Switches *)

(** X5. Switch 2 steps the scan mode round Manual, Auto Scan, Preset
    Scan: three presses bring the state back to what it was, and no
    press starts or stops scanning, moves the frequency or calls the
    tuner. *)
Theorem scan_mode_comes_round (self : Scanner) :
  let once := exec _toggle_scan_mode self in
  state (exec _toggle_scan_mode (exec _toggle_scan_mode once)) = state self /\
  scan_mode (state once) <> scan_mode (state self) /\
  is_scanning (state once) = is_scanning (state self) /\
  frequency (state once) = frequency (state self) /\
  calls once = calls self /\
  (scan_mode (state self) = MANUAL -> scan_mode (state once) = AUTO_SCAN) /\
  (scan_mode (state self) = AUTO_SCAN -> scan_mode (state once) = PRESET_SCAN) /\
  (scan_mode (state self) = PRESET_SCAN -> scan_mode (state once) = MANUAL).
Proof.
  cbn. destruct (state self) as [f v t m b c g q sc mu]. cbn.
  destruct m; cbn; repeat split; congruence.
Qed.

(** X6. Switch 3 steps the service type and parks the frequency at the
    bottom of the new band, whether or not the tuner could be set up
    again; five presses bring the service type back, but not the
    frequency that was tuned: it is the bottom of the band. *)
Theorem service_type_comes_round (self : Scanner) :
  let once := exec _cycle_service_type self in
  let round := Nat.iter 5 (exec _cycle_service_type) self in
  service_type (state once) <> service_type (state self) /\
  frequency (state once) = min_freq_of (service_type (state once)) /\
  modulation_of (service_type (state once)) =
    snd (SERVICE_RANGES (ServiceType_next (service_type (state self)))) /\
  service_type (state round) = service_type (state self) /\
  frequency (state round) = min_freq_of (service_type (state self)) /\
  volume (state round) = volume (state self) /\
  squelch_level (state round) = squelch_level (state self) /\
  scan_mode (state round) = scan_mode (state self) /\
  is_scanning (state round) = is_scanning (state self).
Proof.
  intros once round. unfold once, round. cbn [Nat.iter nat_rect].
  rewrite !cycle_service_type_state. cbn.
  destruct (service_type (state self)); cbn; repeat split; discriminate.
Qed.

Lemma switch1_exec (self : Scanner) :
  exec _switch1_callback self =
    if (len (presets self) =? 0)%Z
    then with_event (LoggedError "Switch 1 callback error") self
    else with_event (LoggedInfo "Switched to preset bank")
           (with_state
              (fun s => upd_current_preset 0
                 (upd_preset_bank ((preset_bank s + 1) mod len (presets self)) s))
              self).
Proof.
  unfold exec, _switch1_callback. run_monad.
  destruct (len (presets self) =? 0)%Z; reflexivity.
Qed.

(** X7. Switch 1 selects the next bank by position: with [n] banks the
    bank number lands in [0 .. n-1] and the current preset is reset to
    0, while the frequency stays where it was and the tuner is not
    called; with no bank at all the press is an error that is logged and
    changes nothing in the state. *)
Theorem bank_switch_stays_in_range (self : Scanner) :
  let self' := exec _switch1_callback self in
  (presets self <> [] ->
     (0 <= preset_bank (state self') < len (presets self))%Z /\
     preset_bank (state self') =
       ((preset_bank (state self) + 1) mod len (presets self))%Z /\
     current_preset (state self') = 0%Z) /\
  (presets self = [] ->
     state self' = state self /\
     events_since self self' = [LoggedError "Switch 1 callback error"]) /\
  frequency (state self') = frequency (state self) /\
  calls self' = calls self.
Proof.
  intros self'. unfold self'. rewrite switch1_exec.
  destruct (presets self) as [|b banks] eqn:Hp.
  - change (len (@nil (Z * list RadioPreset)) =? 0)%Z with true. cbv iota.
    split; [intros H; congruence|]. split; [|split; reflexivity].
    intros _. split; [reflexivity|].
    apply events_since_app. reflexivity.
  - assert (0 < len (b :: banks))%Z as Hn by (unfold len; cbn; lia).
    destruct (len (b :: banks) =? 0)%Z eqn:E; [apply Z.eqb_eq in E; lia|].
    split; [|split; [intros H; discriminate|split; reflexivity]].
    intros _. cbn. split; [|split; reflexivity].
    apply Z.mod_pos_bound. exact Hn.
Qed.

Lemma scan_mode_comes_round_witness :
  scan_mode (state (exec _toggle_scan_mode started_scanner)) = AUTO_SCAN.
Proof.
  apply (scan_mode_comes_round started_scanner). reflexivity.
Defined.

Lemma bank_switch_stays_in_range_witness :
  preset_bank (state (exec _switch1_callback started_scanner)) = 1%Z /\
  state (exec _switch1_callback (scanner_on None [] RadioState_default))
    = RadioState_default.
Proof.
  split.
  - destruct (proj1 (bank_switch_stays_in_range started_scanner) ltac:(discriminate))
      as (_ & H & _).
    exact H.
  - exact (proj1 (proj1 (proj2 (bank_switch_stays_in_range
                                  (scanner_on None [] RadioState_default)))
                        eq_refl)).
Defined.

(** ** The scan worker *)

Lemma exec_scan_tick (self : Scanner) :
  exec scan_tick self =
    with_event (Slept (1 / 10))
      (match scan_mode (state self) with
       | AUTO_SCAN => exec _auto_scan self
       | PRESET_SCAN => exec _preset_scan self
       | MANUAL => self
       end).
Proof.
  unfold exec at 1. now rewrite scan_tick_returns.
Qed.

Lemma auto_scan_keeps_mode (self : Scanner) :
  scan_mode (state (exec _auto_scan self)) = scan_mode (state self).
Proof.
  destruct (after_measure_frame self) as (_ & _ & _ & _ & _ & Hm & _).
  destruct (Rlt_dec (IZR (squelch_level (state self))) (measured self)) as [Hocc|Hu].
  - unfold exec. rewrite (auto_scan_hold self Hocc). exact Hm.
  - rewrite (auto_scan_advance_state self Hu). exact Hm.
Qed.

Lemma preset_scan_keeps_mode (self : Scanner) :
  scan_mode (state (exec _preset_scan self)) = scan_mode (state self).
Proof.
  destruct (after_measure_frame self) as (_ & _ & _ & _ & _ & Hm & _).
  destruct (current_bank self) as [[|p bank']|] eqn:Hb.
  - unfold exec. now rewrite (preset_scan_no_bank self (or_intror Hb)).
  - assert (p :: bank' <> []) as Hne by discriminate.
    destruct (Rlt_dec (IZR (squelch_level (state self))) (measured self)) as [Hocc|Hu].
    + unfold exec. rewrite (preset_scan_hold self _ Hb Hne) by (unfold unoccupied; tauto).
      exact Hm.
    + destruct (preset_scan_advance_state self _ Hb Hne Hu) as (preset & _ & ->).
      exact Hm.
  - unfold exec. now rewrite (preset_scan_no_bank self (or_introl Hb)).
Qed.

(** A pass of the scan worker leaves the two flags of its loop
    condition, and the scan mode, as they were. *)
Lemma scan_tick_keeps_flags (self : Scanner) :
  is_scanning (state (exec scan_tick self)) = is_scanning (state self) /\
  running (exec scan_tick self) = running self /\
  scan_mode (state (exec scan_tick self)) = scan_mode (state self).
Proof.
  rewrite exec_scan_tick. cbn [state running with_event].
  destruct (scan_mode (state self)) eqn:Hmode.
  - auto.
  - destruct (auto_scan_frame self) as (Hsc & Hrun & _).
    rewrite auto_scan_keeps_mode. auto.
  - rewrite preset_scan_keeps_scanning, (proj2 (preset_scan_keeps_sdr self)),
      preset_scan_keeps_mode. auto.
Qed.

Lemma iter_scan_tick_keeps_flags (n : nat) (self : Scanner) :
  is_scanning (state (Nat.iter n (exec scan_tick) self)) = is_scanning (state self) /\
  running (Nat.iter n (exec scan_tick) self) = running self /\
  scan_mode (state (Nat.iter n (exec scan_tick) self)) = scan_mode (state self).
Proof.
  induction n as [|n IH]; [auto|].
  change (Nat.iter (S n) (exec scan_tick) self)
    with (exec scan_tick (Nat.iter n (exec scan_tick) self)).
  destruct (scan_tick_keeps_flags (Nat.iter n (exec scan_tick) self)) as (H1 & H2 & H3).
  destruct IH as (I1 & I2 & I3). rewrite H1, H2, H3. auto.
Qed.

Lemma iter_shift {A} (f : A -> A) (n : nat) (a : A) :
  Nat.iter n f (f a) = f (Nat.iter n f a).
Proof.
  induction n as [|n IH]; [reflexivity|].
  change (f (Nat.iter n f (f a)) = f (f (Nat.iter n f a))). now rewrite IH.
Qed.

Lemma scan_loop_runs (fuel : nat) :
  forall self,
    is_scanning (state self) && running self = true ->
    scan_loop fuel self = (Returned false, Nat.iter fuel (exec scan_tick) self).
Proof.
  induction fuel as [|fuel IH]; intros self Hc; [reflexivity|].
  cbn [scan_loop]. run_monad. rewrite Hc, scan_tick_returns.
  rewrite IH.
  - f_equal. rewrite <- exec_scan_tick.
    change (Nat.iter (S fuel) (exec scan_tick) self)
      with (exec scan_tick (Nat.iter fuel (exec scan_tick) self)).
    apply iter_shift.
  - rewrite <- exec_scan_tick.
    destruct (scan_tick_keeps_flags self) as (H1 & H2 & _). now rewrite H1, H2.
Qed.

(** X8. The scan worker never stops of its own accord.  While scanning
    is on and the scanner runs, every pass is followed by another,
    whatever the tuner does: after any number of passes the loop is
    still going, the scanner is what the passes alone made of it (the
    handler that would turn scanning off has not run) and both flags are
    still set.  When either flag is off the worker returns at once and
    leaves the scanner untouched. *)
Theorem scan_worker_runs_until_stopped (self : Scanner) (fuel : nat) :
  (is_scanning (state self) && running self = true ->
     _scan_worker fuel self = (Returned false, Nat.iter fuel (exec scan_tick) self) /\
     is_scanning (state (exec (_scan_worker fuel) self)) = true /\
     running (exec (_scan_worker fuel) self) = true) /\
  (is_scanning (state self) && running self = false ->
     _scan_worker (S fuel) self = (Returned true, self)).
Proof.
  split.
  - intros Hc.
    assert (_scan_worker fuel self
            = (Returned false, Nat.iter fuel (exec scan_tick) self)) as E.
    { unfold _scan_worker, try_except. now rewrite scan_loop_runs. }
    split; [exact E|]. unfold exec. rewrite E. cbn [snd].
    destruct (iter_scan_tick_keeps_flags fuel self) as (H1 & H2 & _).
    apply andb_prop in Hc. destruct Hc as [Hs Hr].
    rewrite H1, H2. auto.
  - intros Hc. unfold _scan_worker, try_except. cbn [scan_loop]. run_monad.
    now rewrite Hc.
Qed.

Lemma scan_worker_runs_until_stopped_witness :
  is_scanning (state (exec (_scan_worker 7) stuck_scanner)) = true /\
  _scan_worker 1 started_scanner = (Returned true, started_scanner).
Proof.
  split.
  - apply (proj1 (scan_worker_runs_until_stopped stuck_scanner 7)). reflexivity.
  - apply (proj2 (scan_worker_runs_until_stopped started_scanner 0)). reflexivity.
Defined.

(** X9. In manual mode the scan worker only sleeps: after any number of
    passes the state is what it was and the tuner has not been called,
    so the frequency moves only when the knob is turned. *)
Theorem manual_mode_scans_nothing (self : Scanner) (n : nat) :
  scan_mode (state self) = MANUAL ->
  let self' := Nat.iter n (exec scan_tick) self in
  state self' = state self /\
  calls self' = calls self /\
  events_since self self' = repeat (Slept (1 / 10)) n.
Proof.
  intros Hm self'. unfold self'. clear self'.
  assert (state (Nat.iter n (exec scan_tick) self) = state self /\
          calls (Nat.iter n (exec scan_tick) self) = calls self /\
          trace (Nat.iter n (exec scan_tick) self)
            = trace self ++ repeat (Slept (1 / 10)) n) as H.
  { induction n as [|n IH].
    - cbn. now rewrite app_nil_r.
    - change (Nat.iter (S n) (exec scan_tick) self)
        with (exec scan_tick (Nat.iter n (exec scan_tick) self)).
      destruct IH as (IH1 & IH2 & IH3).
      rewrite exec_scan_tick, IH1, Hm. cbn [state calls trace with_event].
      rewrite IH3, <- app_assoc.
      split; [exact IH1|]. split; [exact IH2|].
      f_equal. change [Slept (1 / 10)] with (repeat (Slept (1 / 10)) 1).
      rewrite <- repeat_app. f_equal. lia. }
  destruct H as (H1 & H2 & H3).
  split; [exact H1|]. split; [exact H2|].
  now apply events_since_app.
Qed.

Lemma manual_mode_scans_nothing_witness :
  state (Nat.iter 3 (exec scan_tick) started_scanner) = state started_scanner.
Proof.
  apply (manual_mode_scans_nothing started_scanner 3). reflexivity.
Defined.

(** ** Sweeps *)

Lemma iter_succ {A} (f : A -> A) (n : nat) (a : A) :
  Nat.iter (S n) f a = f (Nat.iter n f a).
Proof.
  reflexivity.
Qed.






Lemma iter_preset_scan_bank (n : nat) (self : Scanner) :
  current_bank (Nat.iter n (exec _preset_scan) self) = current_bank self.
Proof.
  induction n as [|n IH]; [reflexivity|].
  rewrite iter_succ. unfold current_bank in *.
  destruct (preset_scan_frame (Nat.iter n (exec _preset_scan) self)) as (Hp & Hb & _).
  now rewrite Hp, Hb.
Qed.

(** X11. A preset scan walks the bank in order and comes round: over a
    bank of [n] presets, [k >= 1] unoccupied ticks in a row take the
    index [i] to [(i + k) mod n], and the frequency to that preset's; so
    [n] such ticks from an index within the bank lead back to it. *)
Theorem preset_scan_comes_round (self : Scanner) (bank : list RadioPreset) (k : nat) :
  let walk := fun n => Nat.iter n (exec _preset_scan) self in
  let idx := ((current_preset (state self) + Z.of_nat (S k)) mod len bank)%Z in
  current_bank self = Some bank -> bank <> [] ->
  (forall j, (j <= k)%nat -> unoccupied (walk j)) ->
  current_preset (state (walk (S k))) = idx /\
  (exists preset,
     nth_error bank (Z.to_nat idx) = Some preset /\
     frequency (state (walk (S k))) = preset_frequency preset) /\
  (S k = List.length bank ->
   (0 <= current_preset (state self) < len bank)%Z ->
   current_preset (state (walk (S k))) = current_preset (state self)).
Proof.
  intros walk idx Hb Hne Hu.
  assert (0 < len bank)%Z as Hlen.
  { unfold len. destruct bank; [congruence|cbn; lia]. }
  assert (forall n, (n <= k)%nat ->
            current_preset (state (walk (S n)))
              = ((current_preset (state self) + Z.of_nat (S n)) mod len bank)%Z /\
            exists preset,
              nth_error bank
                (Z.to_nat ((current_preset (state self) + Z.of_nat (S n)) mod len bank))
                = Some preset /\
              frequency (state (walk (S n))) = preset_frequency preset) as Hn.
  { induction n as [|n IH]; intros Hle.
    - unfold walk. rewrite iter_succ. cbn [Nat.iter nat_rect].
      destruct (preset_scan_step self bank Hb Hne (Hu 0%nat ltac:(lia)))
        as (_ & Hcp & preset & Hnth & Hf).
      change (Z.of_nat 1) with 1%Z. split; [exact Hcp|]. now exists preset.
    - destruct (IH ltac:(lia)) as (IHcp & _).
      unfold walk. rewrite iter_succ. fold (walk (S n)).
      assert (current_bank (walk (S n)) = Some bank) as Hb'.
      { unfold walk. now rewrite iter_preset_scan_bank. }
      destruct (preset_scan_step (walk (S n)) bank Hb' Hne (Hu (S n) ltac:(lia)))
        as (_ & Hcp & preset & Hnth & Hf).
      rewrite IHcp in Hcp, Hnth.
      assert ((((current_preset (state self) + Z.of_nat (S n)) mod len bank + 1)
                 mod len bank)%Z
              = ((current_preset (state self) + Z.of_nat (S (S n))) mod len bank)%Z) as E.
      { rewrite Z.add_mod_idemp_l by lia. f_equal. lia. }
      rewrite E in Hcp, Hnth. split; [exact Hcp|]. now exists preset. }
  destruct (Hn k (Nat.le_refl k)) as (Hcp & Hex).
  split; [exact Hcp|]. split; [exact Hex|].
  intros Hk Hin. rewrite Hcp. unfold idx. rewrite Hk. fold (len bank).
  replace (current_preset (state self) + len bank)%Z
    with (current_preset (state self) + 1 * len bank)%Z by lia.
  rewrite Z.mod_add by lia. apply Z.mod_small. exact Hin.
Qed.

Lemma unoccupied_without_tuner_walk (n : nat) (self : Scanner) :
  sdr self = None -> (0 <= squelch_level (state self))%Z ->
  unoccupied (Nat.iter n (exec _preset_scan) self).
Proof.
  intros Hsdr Hsq.
  assert (sdr (Nat.iter n (exec _preset_scan) self) = None /\
          squelch_level (state (Nat.iter n (exec _preset_scan) self))
            = squelch_level (state self)) as (H1 & H2).
  { induction n as [|n IH]; [auto|].
    rewrite iter_succ.
    rewrite (proj1 (preset_scan_keeps_sdr (Nat.iter n (exec _preset_scan) self))).
    destruct (preset_scan_frame (Nat.iter n (exec _preset_scan) self)) as (_ & _ & -> & _).
    exact IH. }
  apply unoccupied_no_sdr; [exact H1|now rewrite H2].
Qed.

Lemma preset_scan_comes_round_witness :
  current_preset (state (Nat.iter 3 (exec _preset_scan)
                           (scanner_on None default_presets RadioState_default)))
  = 0%Z.
Proof.
  refine (proj2 (proj2 (preset_scan_comes_round
                          (scanner_on None default_presets RadioState_default)
                          _ 2 eq_refl _ _)) eq_refl _).
  - discriminate.
  - intros j _. apply unoccupied_without_tuner_walk; [reflexivity|cbn; lia].
  - cbn. unfold len. cbn. lia.
Defined.

(** ** The meter's scale *)

Lemma np_log10_increasing (x y : R) : 0 < x -> x < y -> np_log10 x < np_log10 y.
Proof.
  intros Hx Hxy. unfold np_log10. pose proof ln_10_pos as H10.
  pose proof (ln_increasing x y Hx Hxy) as Hln.
  apply Rmult_lt_compat_r; [apply Rinv_0_lt_compat; exact H10|exact Hln].
Qed.

Lemma np_log10_le (x y : R) : 0 < x -> x <= y -> np_log10 x <= np_log10 y.
Proof.
  intros Hx [Hlt| ->]; [|lra]. apply Rlt_le. now apply np_log10_increasing.
Qed.

(** X12. The meter is a monotone reading of the mean power with a
    window of a hundred decibels: it never falls when the power rises,
    it shows 0 for every power up to [10^-13], 100 for every power from
    [10^-3] on, and strictly between these it shows
    [10 * log10(power) + 130], strictly between 0 and 100. *)
Theorem meter_scale (p q : R) :
  (p <= q -> strength_of_power p <= strength_of_power q) /\
  (p <= / 10 ^ 13 -> strength_of_power p = 0) /\
  (/ 10 ^ 3 <= p -> strength_of_power p = 100) /\
  (/ 10 ^ 13 < p < / 10 ^ 3 ->
     strength_of_power p = 10 * np_log10 p + 130 /\
     0 < strength_of_power p < 100).
Proof.
  assert (0 < / 10 ^ 13) as H13 by (apply Rinv_0_lt_compat, pow_lt; lra).
  assert (0 < / 10 ^ 3) as H3 by (apply Rinv_0_lt_compat, pow_lt; lra).
  pose proof (np_log10_inv_pow 13) as L13. pose proof (np_log10_inv_pow 3) as L3.
  replace (INR 13) with 13 in L13 by (rewrite INR_IZR_INZ; reflexivity).
  replace (INR 3) with 3 in L3 by (rewrite INR_IZR_INZ; reflexivity).
  split; [|split; [|split]].
  - intros Hpq. unfold strength_of_power.
    destruct (Rlt_dec 0 p) as [Hp|Hp].
    + destruct (Rlt_dec 0 q) as [Hq|Hq]; [|lra].
      pose proof (np_log10_le p q Hp Hpq).
      unfold py_max, py_min. repeat destruct (Rlt_dec _ _); lra.
    + pose proof (strength_of_power_range q) as Hr. unfold strength_of_power in Hr.
      exact (proj1 Hr).
  - intros Hp. unfold strength_of_power.
    destruct (Rlt_dec 0 p) as [Hpos|_]; [|reflexivity].
    pose proof (np_log10_le p (/ 10 ^ 13) Hpos Hp).
    unfold py_max, py_min. repeat destruct (Rlt_dec _ _); lra.
  - intros Hp. unfold strength_of_power.
    destruct (Rlt_dec 0 p) as [_|Hn]; [|lra].
    pose proof (np_log10_le (/ 10 ^ 3) p H3 Hp).
    unfold py_max, py_min. repeat destruct (Rlt_dec _ _); lra.
  - intros [Hlo Hhi]. unfold strength_of_power.
    destruct (Rlt_dec 0 p) as [_|Hn]; [|lra].
    pose proof (np_log10_increasing (/ 10 ^ 13) p H13 Hlo).
    pose proof (np_log10_increasing p (/ 10 ^ 3) ltac:(lra) Hhi).
    unfold py_max, py_min. repeat destruct (Rlt_dec _ _); lra.
Qed.

Lemma meter_scale_witness :
  strength_of_power (/ 10 ^ 7) <= strength_of_power 1 /\
  strength_of_power 1 = 100.
Proof.
  pose proof (Rinv_le_contravar 1 (10 ^ 7) ltac:(lra) ltac:(cbn; lra)) as H7.
  pose proof (Rinv_le_contravar 1 (10 ^ 3) ltac:(lra) ltac:(cbn; lra)) as H3.
  rewrite Rinv_1 in H7, H3.
  split.
  - exact (proj1 (meter_scale (/ 10 ^ 7) 1) H7).
  - exact (proj1 (proj2 (proj2 (meter_scale 1 1))) H3).
Defined.

(** X13. The squelch level decides between holding and advancing only
    inside the meter's range.  At 100 or above nothing is ever above
    it: every tick advances.  Below 0 everything is above it, a failed
    measurement included: every tick holds and the scan never moves.
    At exactly 0 a tick advances only on a reading of exactly 0. *)
Theorem squelch_outside_the_scale (self : Scanner) :
  ((100 <= squelch_level (state self))%Z ->
     unoccupied self /\
     frequency (state (exec _auto_scan self)) = auto_scan_next (state self)) /\
  ((squelch_level (state self) < 0)%Z ->
     ~ unoccupied self /\
     frequency (state (exec _auto_scan self)) = frequency (state self) /\
     frequency (state (exec _preset_scan self)) = frequency (state self) /\
     current_preset (state (exec _preset_scan self)) = current_preset (state self)) /\
  (squelch_level (state self) = 0%Z -> (unoccupied self <-> measured self = 0)).
Proof.
  pose proof (measured_range self) as Hr.
  destruct (after_measure_frame self) as (Hf & _ & _ & Hcp & _).
  split; [|split].
  - intros Hs. apply IZR_le in Hs.
    assert (unoccupied self) as Hu by (unfold unoccupied; lra).
    split; [exact Hu|]. now rewrite (auto_scan_advance_state self Hu).
  - intros Hs. apply IZR_lt in Hs.
    assert (IZR (squelch_level (state self)) < measured self) as Hocc by lra.
    split; [unfold unoccupied; tauto|].
    split; [unfold exec; rewrite (auto_scan_hold self Hocc); exact Hf|].
    destruct (current_bank self) as [[|p bank']|] eqn:Hb.
    + unfold exec. rewrite (preset_scan_no_bank self (or_intror Hb)). auto.
    + unfold exec.
      rewrite (preset_scan_hold self _ Hb ltac:(discriminate))
        by (unfold unoccupied; tauto).
      cbn. auto.
    + unfold exec. rewrite (preset_scan_no_bank self (or_introl Hb)). auto.
  - intros Hs. unfold unoccupied. rewrite Hs. split; lra.
Qed.

Lemma squelch_outside_the_scale_witness :
  frequency (state (exec _auto_scan
    (scanner_on (Some (steady_sdr (1, 0))) []
       (mkState 88000000 50 FM_RADIO AUTO_SCAN 0 0 0 100 true false))))
  = 88100000.
Proof.
  rewrite (proj2 (proj1 (squelch_outside_the_scale
    (scanner_on (Some (steady_sdr (1, 0))) []
       (mkState 88000000 50 FM_RADIO AUTO_SCAN 0 0 0 100 true false)))
    ltac:(cbn; lia))).
  unfold auto_scan_next. cbn. destruct (Rlt_dec _ _); lra.
Defined.

(** ** Demodulator output *)

Lemma demodulate_nfm_length (lib : Scipy) (samples : list complex) :
  (padlen + 1 < List.length samples)%nat ->
  List.length (_demodulate_nfm lib samples) = ((List.length samples + 40) / 42)%nat.
Proof.
  intros H. unfold _demodulate_nfm.
  assert (List.length (map (fun v => v * (1 / 2))
                         (np_diff (np_unwrap (map np_angle samples))))
          = (List.length samples - 1)%nat) as Hlen.
  { now rewrite length_map, np_diff_unwrap, steps_length, length_map. }
  destruct (decimate_some lib _ decimation ltac:(discriminate)
              ltac:(rewrite Hlen; unfold padlen in *; lia)) as (audio & Hd & Ha).
  rewrite Hd, Ha, Hlen. change (Z.to_nat decimation) with 42%nat.
  f_equal. unfold padlen in H. lia.
Qed.

Lemma demodulate_am_length (lib : Scipy) (samples : list complex) :
  (padlen < List.length samples)%nat ->
  List.length (_demodulate_am lib samples) = ((List.length samples + 41) / 42)%nat.
Proof.
  intros H. unfold _demodulate_am.
  destruct (decimate_some lib
              (map (fun v => v - np_mean (map np_abs samples)) (map np_abs samples))
              decimation ltac:(discriminate)
              ltac:(now rewrite !length_map)) as (audio & Hd & Ha).
  rewrite Hd, Ha, !length_map. reflexivity.
Qed.

(** X14. Whatever the service type, [_demodulate] turns a chunk of more
    than 28 samples into audio, never into [None] and never into an
    empty array: one audio sample for every 42 samples or part of 42,
    counted on the chunk for AM and on its [n - 1] phase steps for FM
    and NFM.  The worker's chunk of 4096 samples gives 98 audio samples
    in every mode. *)
Theorem demodulate_output_length (lib : Scipy) (s : RadioState) (samples : list complex) :
  (28 < List.length samples)%nat ->
  exists audio,
    _demodulate lib s samples = Some audio /\
    audio <> [] /\
    List.length audio =
      match modulation_of (service_type s) with
      | AM => ((List.length samples + 41) / 42)%nat
      | FM | NFM => ((List.length samples + 40) / 42)%nat
      end /\
    (List.length samples = 4096%nat -> List.length audio = 98%nat).
Proof.
  intros H.
  assert (forall (audio : list R) n,
            List.length audio = ((List.length samples + n) / 42)%nat ->
            (40 <= n <= 41)%nat -> audio <> []) as Hne.
  { intros audio n Hl Hn ->. change (List.length (@nil R)) with 0%nat in Hl.
    assert (1 <= (List.length samples + n) / 42)%nat
      by (apply Nat.div_le_lower_bound; lia).
    lia. }
  unfold _demodulate. destruct (modulation_of (service_type s)).
  - pose proof (demodulate_fm_length lib samples ltac:(unfold padlen; lia)) as Hl.
    eexists. split; [reflexivity|]. split; [eapply Hne; [exact Hl|lia]|].
    split; [exact Hl|]. intros Hn. rewrite Hl, Hn. reflexivity.
  - pose proof (demodulate_am_length lib samples ltac:(unfold padlen; lia)) as Hl.
    eexists. split; [reflexivity|]. split; [eapply Hne; [exact Hl|lia]|].
    split; [exact Hl|]. intros Hn. rewrite Hl, Hn. reflexivity.
  - pose proof (demodulate_nfm_length lib samples ltac:(unfold padlen; lia)) as Hl.
    eexists. split; [reflexivity|]. split; [eapply Hne; [exact Hl|lia]|].
    split; [exact Hl|]. intros Hn. rewrite Hl, Hn. reflexivity.
Qed.

Lemma demodulate_output_length_witness :
  exists audio,
    _demodulate naive_scipy RadioState_default (rotating 1024) = Some audio /\
    List.length audio = 98%nat.
Proof.
  destruct (demodulate_output_length naive_scipy RadioState_default (rotating 1024)
              ltac:(rewrite rotating_length; lia)) as (audio & Hd & _ & _ & Hn).
  exists audio. split; [exact Hd|]. apply Hn. apply rotating_length.
Defined.

(** X15. A chunk too short for the decimation filter is dropped, not
    fatal: on at most 27 samples the filter refuses its input, and every
    demodulator catches that, logs its error once and returns an empty
    array.  The audio worker, given such a chunk, writes nothing to the
    sink and returns normally from the pass: since the pass began the
    trace holds the error of the demodulator of the current modulation
    and nothing else. *)
Theorem short_chunk_is_dropped (lib : Scipy) (self : Scanner) (dev : RtlSdr)
  (samples : list complex) :
  (List.length samples <= 27)%nat ->
  (_demodulate_fm_method lib samples self =
     (Returned [], with_event (LoggedError "FM demodulation error") self) /\
   _demodulate_am_method lib samples self =
     (Returned [], with_event (LoggedError "AM demodulation error") self) /\
   _demodulate_nfm_method lib samples self =
     (Returned [], with_event (LoggedError "NFM demodulation error") self)) /\
  (_demodulate_fm lib samples = [] /\
   _demodulate_am lib samples = [] /\
   _demodulate_nfm lib samples = []) /\
  (sdr self = Some dev ->
   is_muted (state self) = false ->
   read_samples dev (calls self) (CHUNK_SIZE * 4) = Some samples ->
   let failed :=
     LoggedError (demodulation_error (modulation_of (service_type (state self)))) in
   audio_worker_pass lib self = (Returned tt, with_event failed (with_call self)) /\
   events_since self (exec (audio_worker_pass lib) self) = [failed]).
Proof.
  intros H.
  assert (decimate lib (fm_deviation samples) decimation = None) as Dfm.
  { apply decimate_none. unfold fm_deviation.
    rewrite np_diff_unwrap, steps_length, length_map. unfold padlen. lia. }
  assert (decimate lib
            (map (fun v => v - np_mean (map np_abs samples)) (map np_abs samples))
            decimation = None) as Dam.
  { apply decimate_none. rewrite !length_map. exact H. }
  assert (decimate lib (map (fun v => v * (1 / 2)) (fm_deviation samples))
            decimation = None) as Dnfm.
  { apply decimate_none. unfold fm_deviation.
    rewrite length_map, np_diff_unwrap, steps_length, length_map.
    unfold padlen. lia. }
  assert (_demodulate_fm lib samples = [] /\
          _demodulate_am lib samples = [] /\
          _demodulate_nfm lib samples = []) as (Hfm & Ham & Hnfm).
  { unfold _demodulate_fm, _demodulate_am, _demodulate_nfm.
    unfold fm_deviation in Dfm, Dnfm. now rewrite Dfm, Dam, Dnfm. }
  assert (forall any : Scanner,
    _demodulate_fm_method lib samples any =
      (Returned [], with_event (LoggedError "FM demodulation error") any) /\
    _demodulate_am_method lib samples any =
      (Returned [], with_event (LoggedError "AM demodulation error") any) /\
    _demodulate_nfm_method lib samples any =
      (Returned [], with_event (LoggedError "NFM demodulation error") any)) as Hm.
  { intros any.
    rewrite demodulate_fm_method_runs, demodulate_am_method_runs,
      demodulate_nfm_method_runs, Dfm, Dam, Dnfm, Hfm, Ham, Hnfm. auto. }
  split; [apply Hm|]. split; [auto|].
  intros Hsdr Hmute Hread failed.
  assert (audio_worker_pass lib self = (Returned tt, with_event failed (with_call self)))
    as Hpass.
  { unfold failed, audio_worker_pass, _demodulate_method. run_monad.
    rewrite Hsdr, Hmute, Hread. cbn [state with_call].
    destruct (Hm (with_call self)) as (Mfm & Mam & Mnfm).
    destruct (modulation_of (service_type (state self)));
      rewrite ?Mfm, ?Mam, ?Mnfm; reflexivity. }
  split; [exact Hpass|].
  unfold exec. rewrite Hpass. apply events_since_app. reflexivity.
Qed.

Lemma short_chunk_is_dropped_witness :
  _demodulate_fm_method naive_scipy [(1, 0); (0, 1)] started_scanner =
    (Returned [],
     with_event (LoggedError "FM demodulation error") started_scanner).
Proof.
  apply (short_chunk_is_dropped naive_scipy started_scanner (steady_sdr (0, 0))).
  cbn. lia.
Defined.

Lemma unwrapped_step_same (a : R) : unwrapped_step a a = 0.
Proof.
  pose proof PI_RGT_0. rewrite unwrapped_step_small.
  - lra.
  - replace (a - a) with 0 by lra. rewrite Rabs_R0. lra.
Qed.

Lemma steps_repeat (a : R) (n : nat) : steps (repeat a n) = repeat 0 (n - 1).
Proof.
  induction n as [|n IH]; [reflexivity|].
  destruct n as [|n]; [reflexivity|].
  change (steps (repeat a (S (S n))))
    with (unwrapped_step a a :: steps (repeat a (S n))).
  rewrite IH, unwrapped_step_same. cbn. now rewrite Nat.sub_0_r.
Qed.

Lemma map_constant {A} (f : A -> R) (a : R) (l : list A) :
  Forall (fun z => f z = a) l -> map f l = repeat a (List.length l).
Proof.
  induction 1 as [|z l Hz _ IH]; [reflexivity|].
  cbn. now rewrite Hz, IH.
Qed.

(** X16. A carrier of constant phase demodulates to silence before
    decimation: when every sample of the chunk has the same angle, every
    phase deviation FM decimates is 0, and so is every scaled deviation
    NFM decimates. *)
Theorem constant_phase_is_silent (samples : list complex) (a : R) :
  Forall (fun z => np_angle z = a) samples ->
  fm_deviation samples = repeat 0 (List.length samples - 1) /\
  map (fun v => v * (1 / 2)) (np_diff (np_unwrap (map np_angle samples)))
    = repeat 0 (List.length samples - 1).
Proof.
  intros H.
  assert (fm_deviation samples = repeat 0 (List.length samples - 1)) as E.
  { rewrite fm_deviation_steps, (map_constant np_angle a samples H).
    apply steps_repeat. }
  split; [exact E|].
  change (np_diff (np_unwrap (map np_angle samples))) with (fm_deviation samples).
  rewrite E, map_repeat. f_equal. lra.
Qed.

Lemma constant_phase_is_silent_witness :
  fm_deviation (repeat (0, 1) 4096) = repeat 0 4095.
Proof.
  pose proof (proj1 (constant_phase_is_silent (repeat (0, 1) 4096) (PI / 2)
    ltac:(apply Forall_forall; intros z Hz; apply repeat_spec in Hz; subst;
          apply np_angle_0_1))) as H.
  rewrite repeat_length in H. exact H.
Defined.

Lemma np_sum_map_minus (m : R) (l : list R) :
  np_sum (map (fun v => v - m) l) = np_sum l - INR (List.length l) * m.
Proof.
  unfold np_sum. induction l as [|v l IH].
  - cbn. lra.
  - cbn [map fold_right List.length]. rewrite IH, S_INR. lra.
Qed.

(** X17. AM demodulation removes the DC bias before it decimates: the
    envelope it hands to the decimator is the magnitude of each sample
    less the chunk's mean magnitude, these values sum to 0 over any
    chunk that is not empty, and a carrier of constant envelope is
    silence. *)
Theorem am_removes_dc (lib : Scipy) (samples : list complex) (e : R) :
  samples <> [] ->
  _demodulate_am lib samples =
    match decimate lib (am_centred samples) decimation with
    | None => []
    | Some audio => audio
    end /\
  np_sum (am_centred samples) = 0 /\
  (Forall (fun z => np_abs z = e) samples ->
   am_centred samples = repeat 0 (List.length samples)).
Proof.
  intros Hne. split; [reflexivity|].
  assert (0 < INR (List.length samples)) as Hn.
  { apply lt_0_INR. destruct samples; [congruence|cbn; lia]. }
  split.
  - unfold am_centred. cbv zeta. rewrite np_sum_map_minus, length_map.
    unfold np_mean. rewrite length_map. field. lra.
  - intros H. unfold am_centred. cbv zeta.
    rewrite (map_constant np_abs e samples H).
    unfold np_mean.
    set (n := List.length samples) in *.
    assert (np_sum (repeat e n) = INR n * e) as Hs.
    { pose proof (np_sum_map_repeat (fun v : R => v) e n) as Hm.
      now rewrite map_id in Hm. }
    rewrite Hs, repeat_length, map_repeat. f_equal. field. lra.
Qed.

Lemma am_removes_dc_witness :
  np_sum (am_centred (rotating 1)) = 0.
Proof.
  apply (am_removes_dc naive_scipy (rotating 1) 1). discriminate.
Defined.

(** ** De-emphasis *)

Lemma alpha_gt_0 : 0 < alpha.
Proof.
  unfold alpha.
  assert (- 1 / (IZR AUDIO_RATE * tau) < 0) as Hneg.
  { unfold AUDIO_RATE, tau.
    replace (- 1 / (48000 * (75 / 1000000))) with (- (10 / 36)) by field. lra. }
  pose proof (exp_increasing _ _ Hneg) as H. rewrite exp_0 in H. lra.
Qed.

Lemma Rabs_le_between (v b : R) : Rabs v <= b -> - b <= v <= b.
Proof.
  unfold Rabs. destruct (Rcase_abs v); lra.
Qed.

Lemma deemph_from_bounded (B : R) (x : list R) :
  forall prev,
    Rabs prev <= B ->
    Forall (fun v => Rabs v <= B) x ->
    Forall (fun v => Rabs v <= B) (deemph_from prev x).
Proof.
  pose proof alpha_gt_0 as H0. pose proof alpha_lt_1 as H1.
  induction x as [|xn rest IH]; intros prev Hp Hx; [constructor|].
  inversion Hx as [|? ? Hxn Hrest]; subst.
  assert (Rabs (alpha * xn + (1 - alpha) * prev) <= B) as Hy.
  { apply Rabs_le. apply Rabs_le_between in Hp. apply Rabs_le_between in Hxn.
    split; nra. }
  cbn [deemph_from]. constructor; [exact Hy|]. now apply IH.
Qed.

Lemma deemph_from_constant (c : R) (n : nat) :
  forall prev k,
    (k < n)%nat ->
    nth k (deemph_from prev (repeat c n)) 0
      = c + (prev - c) * (1 - alpha) ^ S k.
Proof.
  induction n as [|n IH]; intros prev k Hk; [lia|].
  cbn [repeat deemph_from]. destruct k as [|k].
  - cbn [nth]. rewrite pow_1. lra.
  - cbn [nth]. rewrite IH by lia.
    change ((1 - alpha) ^ S (S k)) with ((1 - alpha) * (1 - alpha) ^ S k). lra.
Qed.

(** X18. The de-emphasis filter of the FM path is a stable one-pole
    low-pass: its coefficient lies strictly between 0 and 1, it never
    raises the peak of a signal (audio bounded by [B] stays bounded by
    [B]), and a constant input [c] is approached geometrically from 0:
    output [k] is [c * (1 - (1 - alpha)^(k+1))]. *)
Theorem deemphasis_is_stable (x : list R) (B c : R) (n k : nat) :
  0 < alpha < 1 /\
  (Forall (fun v => Rabs v <= B) x ->
   Forall (fun v => Rabs v <= B) (lfilter [alpha] [1; alpha - 1] x)) /\
  ((k < n)%nat ->
   nth k (lfilter [alpha] [1; alpha - 1] (repeat c n)) 0
     = c * (1 - (1 - alpha) ^ S k)).
Proof.
  split; [split; [apply alpha_gt_0|apply alpha_lt_1]|]. split.
  - intros H. rewrite lfilter_deemph.
    destruct x as [|x0 rest]; [constructor|].
    apply deemph_from_bounded; [|exact H].
    inversion H as [|? ? Hx0 _]; subst.
    rewrite Rabs_R0. pose proof (Rabs_pos x0). lra.
  - intros Hk. rewrite lfilter_deemph, deemph_from_constant by exact Hk. lra.
Qed.

Lemma deemphasis_is_stable_witness :
  nth 0 (lfilter [alpha] [1; alpha - 1] (repeat 1 3)) 0 = 1 * (1 - (1 - alpha) ^ 1).
Proof.
  apply (deemphasis_is_stable [] 0 1 3 0). lia.
Defined.

(** ** The knob *)

Lemma tune_frequency_returns (direction : Z) (self : Scanner) :
  _tune_frequency direction self = (Returned tt, exec (_tune_frequency direction) self).
Proof.
  unfold exec, _tune_frequency. run_monad.
  destruct (SERVICE_RANGES (service_type (state self))) as [[[mn mx] st] md].
  destruct (Req_dec_T _ _) as [E|E]; [reflexivity|].
  cbn. destruct (sdr self) as [dev|]; [|reflexivity].
  destruct (set_center_freq dev _ _); reflexivity.
Qed.

Lemma encoder_callback_exec (clk_state dt_state sw_state : Z) (self : Scanner) :
  exec (_encoder_callback clk_state dt_state sw_state) self =
    if (clk_state =? 0)%Z then
      if (dt_state =? 1)%Z then
        (if (sw_state =? 0)%Z then exec (_tune_frequency 1) self
         else exec (_adjust_volume 1) self)
      else
        (if (sw_state =? 0)%Z then exec (_tune_frequency (-1)) self
         else exec (_adjust_volume (-1)) self)
    else self.
Proof.
  unfold exec at 1, _encoder_callback, try_except.
  destruct (clk_state =? 0)%Z; [|reflexivity].
  destruct (dt_state =? 1)%Z; destruct (sw_state =? 0)%Z;
    rewrite ?tune_frequency_returns; reflexivity.
Qed.

(** X19. A turn of the knob does one thing.  On a rising clock edge it
    does nothing at all.  On a falling edge with the button up it moves
    the volume five points (up when the data pin is high, down
    otherwise, within 0 and 100) and leaves frequency and tuner alone;
    with the button down it tunes one step (up or down, within the band)
    and leaves the volume alone. *)
Theorem knob_turn_does_one_thing (self : Scanner) (clk_state dt_state sw_state : Z) :
  let self' := exec (_encoder_callback clk_state dt_state sw_state) self in
  let direction := if (dt_state =? 1)%Z then 1%Z else (-1)%Z in
  (clk_state <> 0%Z -> self' = self) /\
  (clk_state = 0%Z -> sw_state <> 0%Z ->
     volume (state self') = Z.max 0 (Z.min 100 (volume (state self) + direction * 5)) /\
     frequency (state self') = frequency (state self) /\
     calls self' = calls self) /\
  (clk_state = 0%Z -> sw_state = 0%Z ->
     frequency (state self') = tuned_to direction (state self) /\
     volume (state self') = volume (state self)).
Proof.
  intros self' direction. unfold self', direction. rewrite encoder_callback_exec.
  split; [|split].
  - intros H. apply Z.eqb_neq in H. now rewrite H.
  - intros -> H. apply Z.eqb_neq in H. rewrite H. cbn [Z.eqb].
    destruct (dt_state =? 1)%Z; rewrite adjust_volume_exec; cbn; auto.
  - intros -> ->. cbn [Z.eqb].
    destruct (dt_state =? 1)%Z; rewrite tune_frequency_tuned_to; cbn; auto.
Qed.

Lemma knob_turn_does_one_thing_witness :
  volume (state (exec (_encoder_callback 0 1 1) started_scanner)) = 55%Z /\
  frequency (state (exec (_encoder_callback 0 1 0) started_scanner))
    = tuned_to 1 (state started_scanner) /\
  exec (_encoder_callback 1 0 0) started_scanner = started_scanner.
Proof.
  split; [|split].
  - apply (proj1 (proj2 (knob_turn_does_one_thing started_scanner 0 1 1)));
      [reflexivity|discriminate].
  - apply (proj2 (proj2 (knob_turn_does_one_thing started_scanner 0 1 0)));
      reflexivity.
  - apply (proj1 (knob_turn_does_one_thing started_scanner 1 0 0)). discriminate.
Defined.

(** ** The audio worker *)

Lemma audio_worker_pass_idle (lib : Scipy) (self : Scanner) :
  sdr self = None \/ is_muted (state self) = true ->
  audio_worker_pass lib self = (Returned tt, with_event (Slept (1 / 100)) self).
Proof.
  intros H. unfold audio_worker_pass. run_monad.
  destruct (sdr self) as [dev|]; [|reflexivity].
  destruct H as [H|H]; [discriminate|]. now rewrite H.
Qed.

Lemma audio_loop_idle (lib : Scipy) (fuel : nat) :
  forall self,
    running self = true ->
    sdr self = None \/ is_muted (state self) = true ->
    audio_loop lib fuel self =
      (Returned false,
       mkScanner (state self) (presets self) (sdr self) (usb self) (running self)
         (calls self) (trace self ++ repeat (Slept (1 / 100)) fuel)).
Proof.
  induction fuel as [|fuel IH]; intros self Hrun Hidle.
  - cbn. rewrite app_nil_r. now destruct self.
  - cbn [audio_loop]. unfold bind, get_self. rewrite Hrun.
    rewrite (audio_worker_pass_idle lib self Hidle).
    rewrite IH by (cbn; auto). cbn. rewrite <- app_assoc, ?Hrun. reflexivity.
Qed.

(** X20. While the scanner is muted, or has no tuner, the audio worker
    only sleeps: after any number of passes it has read no chunk,
    written nothing to the sink and left the state alone, and it is
    still running. *)
Theorem muted_audio_worker_is_idle (lib : Scipy) (self : Scanner) (fuel : nat) :
  running self = true ->
  sdr self = None \/ is_muted (state self) = true ->
  let self' := exec (_audio_worker lib fuel) self in
  result (_audio_worker lib fuel) self = Returned false /\
  events_since self self' = repeat (Slept (1 / 100)) fuel /\
  calls self' = calls self /\
  state self' = state self.
Proof.
  intros Hrun Hidle self'. unfold self', result, exec, _audio_worker, try_except.
  rewrite (audio_loop_idle lib fuel self Hrun Hidle). cbn [fst snd].
  split; [reflexivity|]. split; [|split; reflexivity].
  now apply events_since_app.
Qed.

Lemma muted_audio_worker_is_idle_witness :
  events_since fresh_started_muted
    (exec (_audio_worker naive_scipy 3) fresh_started_muted)
  = repeat (Slept (1 / 100)) 3.
Proof.
  apply (muted_audio_worker_is_idle naive_scipy fresh_started_muted 3).
  - reflexivity.
  - right. reflexivity.
Defined.

(** X21. A read that raises ends the audio worker for good.  The [try]
    of [_audio_worker] is around its whole loop, so when the tuner
    refuses a read the worker logs the error and returns, with [running]
    still set: however many passes were left, none is made, and nothing
    is played. *)
Theorem audio_worker_ends_on_read_error (lib : Scipy) (self : Scanner)
  (dev : RtlSdr) (fuel : nat) :
  running self = true ->
  sdr self = Some dev ->
  is_muted (state self) = false ->
  read_samples dev (calls self) (CHUNK_SIZE * 4) = None ->
  _audio_worker lib (S fuel) self =
    (Returned true, with_event (LoggedError "Audio worker error") (with_call self)) /\
  running (exec (_audio_worker lib (S fuel)) self) = true.
Proof.
  intros Hrun Hsdr Hmute Hread.
  assert (_audio_worker lib (S fuel) self =
          (Returned true, with_event (LoggedError "Audio worker error") (with_call self)))
    as E.
  { unfold _audio_worker, try_except. cbn [audio_loop].
    unfold bind, get_self. rewrite Hrun.
    unfold audio_worker_pass. run_monad. rewrite Hsdr, Hmute, Hread. reflexivity. }
  split; [exact E|]. unfold exec. rewrite E. exact Hrun.
Qed.

Lemma audio_worker_ends_on_read_error_witness :
  _audio_worker naive_scipy 5 (scanner_on (Some deaf_sdr) [] RadioState_default) =
    (Returned true,
     with_event (LoggedError "Audio worker error")
       (with_call (scanner_on (Some deaf_sdr) [] RadioState_default))).
Proof.
  apply (audio_worker_ends_on_read_error naive_scipy
           (scanner_on (Some deaf_sdr) [] RadioState_default) deaf_sdr 4);
    reflexivity.
Defined.

(** ** Muting *)

Lemma get_signal_strength_with_mute (b : bool) (self : Scanner) :
  _get_signal_strength (with_mute b self) =
    (Returned (measured self), with_mute b (after_measure self)).
Proof.
  unfold measured, after_measure, result, exec.
  destruct (get_signal_strength_cases self)
    as [[Hs E]|[(dev & Hs & Hr & E)|(dev & samples & Hs & Hr & E)]]; rewrite E.
  - now rewrite get_signal_strength_no_sdr.
  - now rewrite (get_signal_strength_read_fails (with_mute b self) dev Hs Hr).
  - now rewrite (get_signal_strength_read (with_mute b self) dev samples Hs Hr).
Qed.

Lemma auto_scan_with_mute (b : bool) (self : Scanner) :
  exec _auto_scan (with_mute b self) = with_mute b (exec _auto_scan self).
Proof.
  unfold exec, _auto_scan. run_monad.
  change (service_type (state (with_mute b self))) with (service_type (state self)).
  destruct (SERVICE_RANGES (service_type (state self))) as [[[mn mx] st] md].
  rewrite get_signal_strength_with_mute, get_signal_strength_returns.
  change (squelch_level (state (with_mute b (after_measure self))))
    with (squelch_level (state (after_measure self))).
  destruct (Rlt_dec _ _); [reflexivity|].
  cbn. destruct (sdr (after_measure self)) as [dev|]; [|reflexivity].
  destruct (set_center_freq dev _ _); reflexivity.
Qed.

Lemma preset_scan_with_mute (b : bool) (self : Scanner) :
  exec _preset_scan (with_mute b self) = with_mute b (exec _preset_scan self).
Proof.
  unfold exec, _preset_scan. run_monad.
  change (dict_get (preset_bank (state (with_mute b self))) (presets (with_mute b self)))
    with (dict_get (preset_bank (state self)) (presets self)).
  destruct (dict_get _ _) as [[|p bank]|]; try reflexivity.
  rewrite get_signal_strength_with_mute, get_signal_strength_returns.
  change (squelch_level (state (with_mute b (after_measure self))))
    with (squelch_level (state (after_measure self))).
  destruct (Rlt_dec _ _); [reflexivity|].
  cbn. destruct (py_getitem _ _); [|reflexivity].
  cbn. destruct (sdr (after_measure self)) as [dev|]; [|reflexivity].
  destruct (set_center_freq dev _ _); reflexivity.
Qed.

(** X22. Muting does not halt scanning.  [_toggle_mute] flips
    [is_muted] and nothing else, so two presses restore the state; and a
    pass of the scan worker on the muted scanner measures, holds,
    advances and retunes exactly as it does on the unmuted one: the
    resulting scanners differ in [is_muted] only. *)
Theorem muting_does_not_halt_scanning (self : Scanner) (b : bool) :
  state (exec _toggle_mute self)
    = upd_is_muted (negb (is_muted (state self))) (state self) /\
  state (exec _toggle_mute (exec _toggle_mute self)) = state self /\
  calls (exec _toggle_mute self) = calls self /\
  exec scan_tick (with_mute b self) = with_mute b (exec scan_tick self) /\
  frequency (state (exec scan_tick (with_mute b self)))
    = frequency (state (exec scan_tick self)) /\
  trace (exec scan_tick (with_mute b self)) = trace (exec scan_tick self).
Proof.
  assert (exec scan_tick (with_mute b self) = with_mute b (exec scan_tick self)) as E.
  { rewrite !exec_scan_tick.
    change (scan_mode (state (with_mute b self))) with (scan_mode (state self)).
    destruct (scan_mode (state self)).
    - reflexivity.
    - now rewrite auto_scan_with_mute.
    - now rewrite preset_scan_with_mute. }
  split; [reflexivity|]. split.
  - cbn. destruct (state self) as [f v t m bk c g q sc mu]. cbn.
    now rewrite negb_involutive.
  - split; [reflexivity|]. split; [exact E|]. rewrite E. split; reflexivity.
Qed.

(** ** The configuration file *)

Lemma ServiceType_value_round_trip (t : ServiceType) :
  ServiceType_of_value (ServiceType_value t) = Some t.
Proof.
  destruct t; reflexivity.
Qed.

(** X23. What [_save_state] stores, [_load_config] restores.  Saving a
    state into an existing configuration file and loading that file
    into any scanner (a restart) gives back the saved frequency, volume,
    service type, preset bank and squelch level, provided the presets of
    the file load; the scan mode, the current preset, the scanning and
    mute flags and the last signal strength are not stored and stay as
    the loading scanner had them.  The load leaves the file as it is. *)
Theorem saved_state_is_restored (py_int : string -> option Z) (config : Config)
  (saved other : Scanner) (d : list (Z * list RadioPreset)) :
  load_banks py_int (get_or (cfg_presets config) []) (presets other) = (true, d) ->
  let file := fst (_save_state (Some config) saved) in
  let loaded := snd (_load_config py_int file other) in
  fst (_load_config py_int file other) = file /\
  presets loaded = d /\
  (frequency (state loaded) = frequency (state saved) /\
   volume (state loaded) = volume (state saved) /\
   service_type (state loaded) = service_type (state saved) /\
   preset_bank (state loaded) = preset_bank (state saved) /\
   squelch_level (state loaded) = squelch_level (state saved)) /\
  (scan_mode (state loaded) = scan_mode (state other) /\
   current_preset (state loaded) = current_preset (state other) /\
   is_scanning (state loaded) = is_scanning (state other) /\
   is_muted (state loaded) = is_muted (state other) /\
   signal_strength (state loaded) = signal_strength (state other)).
Proof.
  intros Hbanks file loaded. unfold loaded, file. clear loaded file.
  cbn [_save_state fst]. unfold _load_config.
  cbn [cfg_presets cfg_last_state]. rewrite Hbanks.
  unfold load_last_state, snapshot. cbn [ls_frequency ls_volume ls_service_type
    ls_preset_bank ls_squelch_level get_or].
  rewrite ServiceType_value_round_trip. cbn. repeat split; reflexivity.
Qed.

Lemma saved_state_is_restored_witness :
  frequency (state (snd (_load_config small_int
     (fst (_save_state (Some default_config)
             (exec (_tune_frequency 1) started_scanner)))
     fresh_scanner)))
  = frequency (state (exec (_tune_frequency 1) started_scanner)).
Proof.
  apply (saved_state_is_restored small_int default_config
           (exec (_tune_frequency 1) started_scanner) fresh_scanner
           default_presets).
  reflexivity.
Defined.

(** X24. A first start finds no file: [_load_config] then writes the
    default configuration and loads it, which gives the three default
    banks under the numbers 0, 1 and 2 (their keys read as integers)
    with step 25000 for every preset, and the default frequency, volume,
    service type, bank and squelch level.  And a shutdown that finds no
    file saves nothing: the file stays absent and the failure is
    logged. *)
Theorem first_start_creates_defaults (py_int : string -> option Z) (self : Scanner) :
  py_int "0"%string = Some 0%Z ->
  py_int "1"%string = Some 1%Z ->
  py_int "2"%string = Some 2%Z ->
  presets self = [] ->
  let loaded := snd (_load_config py_int None self) in
  fst (_load_config py_int None self) = Some default_config /\
  presets loaded = default_presets /\
  state loaded =
    upd_squelch_level 30 (upd_preset_bank 0 (upd_service_type FM_RADIO
      (upd_volume 50 (upd_frequency 88000000 (state self))))) /\
  _save_state None self = (None, with_event (LoggedError "Failed to save state") self).
Proof.
  intros H0 H1 H2 Hp loaded. unfold loaded. clear loaded.
  unfold _load_config, _create_default_config.
  cbn [cfg_presets cfg_last_state default_config get_or presets with_event].
  rewrite Hp. cbn [load_banks]. rewrite H0. cbn [load_bank dict_set].
  rewrite H1. cbn [load_bank dict_set Z.eqb]. rewrite H2.
  cbn. repeat split; reflexivity.
Qed.

Lemma first_start_creates_defaults_witness :
  presets (snd (_load_config small_int None
                  (mkScanner RadioState_default [] None None false 0 [])))
  = default_presets.
Proof.
  apply (first_start_creates_defaults small_int
           (mkScanner RadioState_default [] None None false 0 []));
    reflexivity.
Defined.

(** X25. A configuration file that fails to load is overwritten with the
    defaults.  When a bank key is not an integer, or a preset lacks a
    key or names an unknown service type or modulation, the loader
    stops there: the state is not touched, the saved state in the file
    is never read, and the file is replaced.  When the presets load but
    the saved service type is unknown, the frequency and the volume of
    the file have been taken already and stay, the other three fields
    keep what they had, and the file is replaced all the same. *)
Theorem failed_load_resets_file (py_int : string -> option Z) (config : Config)
  (self : Scanner) (d : list (Z * list RadioPreset)) (ls : LastState) :
  let loaded := snd (_load_config py_int (Some config) self) in
  (load_banks py_int (get_or (cfg_presets config) []) (presets self) = (false, d) ->
     fst (_load_config py_int (Some config) self) = Some default_config /\
     state loaded = state self /\
     presets loaded = d) /\
  (load_banks py_int (get_or (cfg_presets config) []) (presets self) = (true, d) ->
   cfg_last_state config = Some ls ->
   ServiceType_of_value (get_or (ls_service_type ls) "FM Radio"%string) = None ->
     fst (_load_config py_int (Some config) self) = Some default_config /\
     frequency (state loaded) = get_or (ls_frequency ls) 88000000 /\
     volume (state loaded) = get_or (ls_volume ls) 50%Z /\
     service_type (state loaded) = service_type (state self) /\
     preset_bank (state loaded) = preset_bank (state self) /\
     squelch_level (state loaded) = squelch_level (state self) /\
     presets loaded = d).
Proof.
  intros loaded. unfold loaded. clear loaded. split.
  - intros Hb. unfold _load_config. rewrite Hb. cbn. auto.
  - intros Hb Hls Hst. unfold _load_config. rewrite Hb, Hls.
    unfold load_last_state. rewrite Hst. cbn. repeat split; reflexivity.
Qed.

Lemma failed_load_resets_file_witness :
  fst (_load_config small_int
         (Some (mkConfig (Some [("zero"%string, [])]) None)) fresh_scanner)
  = Some default_config.
Proof.
  apply (proj1 (failed_load_resets_file small_int
                  (mkConfig (Some [("zero"%string, [])]) None) fresh_scanner
                  default_presets
                  (mkLastState None None None None None))).
  reflexivity.
Defined.

(** * The simple scanner (src/Firmware/rtl_scanner.py) *)

Module RTLScanner.

(** The keys of [PRESETS], in the order of the dict. *)
Inductive Band := FM_BAND | AVIATION_BAND | EMERGENCY_BAND.

Record BandPreset := mkBandPreset { name : string; freq : R }.

Definition PRESETS (b : Band) : list BandPreset :=
  match b with
  | FM_BAND =>
      [ mkBandPreset "All India Radio" 101300000;
        mkBandPreset "Radio Mirchi" 98300000;
        mkBandPreset "Red FM" 93500000;
        mkBandPreset "FM Gold" 100100000;
        mkBandPreset "Big FM" 92700000 ]
  | AVIATION_BAND =>
      [ mkBandPreset "Delhi Tower" 119100000;
        mkBandPreset "Mumbai Tower" 119900000;
        mkBandPreset "Bangalore Tower" 124500000;
        mkBandPreset "Chennai Tower" 122700000 ]
  | EMERGENCY_BAND =>
      [ mkBandPreset "Police Band" 162500000;
        mkBandPreset "Fire Service" 165000000;
        mkBandPreset "Ambulance" 163000000 ]
  end.

(** The tuner object: the frequency it is at, and which assignments to
    [center_freq] it accepts (the others raise). *)
Record Tuner := mkTuner { center_freq : R; accepts : R -> bool }.

(** The fields of [RTLScanner] the modelled methods touch; [restarts]
    counts the runs of [restart_audio], which starts the audio pipeline
    anew and is taken not to raise. *)
Record State := mkState {
  sdr : option Tuner;
  current_freq : R;
  volume : Z;
  scanning : bool;
  current_band : Band;
  preset_index : Z;
  restarts : nat
}.

Definition with_freq (f : R) (st : State) : State :=
  mkState (sdr st) f (volume st) (scanning st) (current_band st)
          (preset_index st) (restarts st).

Definition with_tuner (t : option Tuner) (st : State) : State :=
  mkState t (current_freq st) (volume st) (scanning st) (current_band st)
          (preset_index st) (restarts st).

Definition with_volume (v : Z) (st : State) : State :=
  mkState (sdr st) (current_freq st) v (scanning st) (current_band st)
          (preset_index st) (restarts st).

Definition with_index (i : Z) (st : State) : State :=
  mkState (sdr st) (current_freq st) (volume st) (scanning st) (current_band st)
          i (restarts st).

Definition restart_audio (st : State) : State :=
  mkState (sdr st) (current_freq st) (volume st) (scanning st) (current_band st)
          (preset_index st) (S (restarts st)).

Definition set_frequency (f : R) (st : State) : State :=
  match sdr st with
  | None => st
  | Some tuner =>
      if accepts tuner f
      then restart_audio
             (with_freq f (with_tuner (Some (mkTuner f (accepts tuner))) st))
      else st
  end.

Definition tune_frequency (direction : Z) (st : State) : State :=
  let step :=
    match current_band st with
    | FM_BAND => 100000
    | _ => 25000
    end in
  let f :=
    if (0 <? direction)%Z then current_freq st + step
    else if (direction <? 0)%Z then current_freq st - step
    else current_freq st in
  let f :=
    match current_band st with
    | FM_BAND => py_max 88000000 (py_min 108000000 f)
    | _ => f
    end in
  set_frequency f (with_freq f st).

Definition adjust_volume (direction : Z) (st : State) : State :=
  if (0 <? direction)%Z then with_volume (Z.min 100 (volume st + 5)) st
  else if (direction <? 0)%Z then with_volume (Z.max 0 (volume st - 5)) st
  else st.

Definition load_preset (index : Z) (st : State) : State :=
  let presets := PRESETS (current_band st) in
  if ((0 <=? index) && (index <? len presets))%Z
  then match nth_error presets (Z.to_nat index) with
       | Some preset => set_frequency (freq preset) st
       | None => st
       end
  else st.

Definition scan_frequencies (st : State) : State :=
  if negb (scanning st) then st
  else
    let presets := PRESETS (current_band st) in
    match presets with
    | [] => st
    | _ :: _ =>
        let st := with_index ((preset_index st + 1) mod len presets) st in
        load_preset (preset_index st) st
    end.

(** The state's frequency is the one the tuner is at. *)
Definition in_step (st : State) : Prop :=
  match sdr st with
  | Some tuner => current_freq st = center_freq tuner
  | None => False
  end.

(** X26. [set_frequency] moves state and tuner together or not at all:
    when the tuner accepts, both are at the new frequency and the audio
    pipeline is restarted once; when it refuses, or is absent, nothing
    changes.  So loading a preset and a scan step keep the state's
    frequency equal to the tuner's. *)
Theorem set_frequency_is_atomic (st : State) (f : R) (index : Z) :
  let st' := set_frequency f st in
  ((exists tuner, sdr st = Some tuner /\ accepts tuner f = true) ->
     current_freq st' = f /\ in_step st' /\ restarts st' = S (restarts st)) /\
  (~ (exists tuner, sdr st = Some tuner /\ accepts tuner f = true) -> st' = st) /\
  (in_step st -> in_step st' /\ in_step (load_preset index st) /\
                 in_step (scan_frequencies st)).
Proof.
  assert (forall g t, in_step t -> in_step (set_frequency g t)) as Hset.
  { intros g t. unfold in_step, set_frequency.
    destruct (sdr t) as [tuner|] eqn:Hs; [|tauto].
    destruct (accepts tuner g); cbn; rewrite ?Hs; auto. }
  assert (forall i t, in_step t -> in_step (load_preset i t)) as Hload.
  { intros i t Ht. unfold load_preset.
    destruct (_ && _)%bool; [|exact Ht].
    destruct (nth_error _ _); [apply Hset|]; exact Ht. }
  intros st'. unfold st'. split; [|split].
  - intros (tuner & Hs & Ha). unfold set_frequency, in_step. rewrite Hs, Ha.
    cbn. auto.
  - intros Hno. unfold set_frequency.
    destruct (sdr st) as [tuner|] eqn:Hs; [|reflexivity].
    destruct (accepts tuner f) eqn:Ha; [|reflexivity].
    exfalso. apply Hno. now exists tuner.
  - intros Hin. split; [now apply Hset|]. split; [now apply Hload|].
    unfold scan_frequencies. destruct (negb (scanning st)); [exact Hin|].
    destruct (PRESETS (current_band st)) eqn:Hp; [exact Hin|].
    apply Hload. exact Hin.
Qed.

Definition example_state (ok : bool) : State :=
  mkState (Some (mkTuner 101300000 (fun _ => ok))) 101300000 50 true FM_BAND 0 0.

Lemma set_frequency_is_atomic_witness :
  current_freq (set_frequency 98300000 (example_state true)) = 98300000 /\
  set_frequency 98300000 (example_state false) = example_state false /\
  in_step (scan_frequencies (example_state true)).
Proof.
  split; [|split].
  - apply (proj1 (set_frequency_is_atomic (example_state true) 98300000 0)).
    exists (mkTuner 101300000 (fun _ => true)). split; reflexivity.
  - apply (proj1 (proj2 (set_frequency_is_atomic (example_state false) 98300000 0))).
    intros (tuner & Hs & Ha). injection Hs as <-. discriminate.
  - apply (proj2 (proj2 (set_frequency_is_atomic (example_state true) 0 0))).
    reflexivity.
Defined.

(** X27. [tune_frequency] changes the state's frequency before it asks
    the tuner, so a refused retune leaves the two apart: the state is
    one step on, the tuner where it was.  The band limits hold for FM
    only: there every tune ends within 88 and 108 MHz, while in the
    other bands a tune up always adds 25 kHz, with no upper limit. *)
Theorem tune_frequency_limits (st : State) (direction : Z) (tuner : Tuner) :
  sdr st = Some tuner ->
  let st' := tune_frequency direction st in
  (current_band st = FM_BAND -> 88000000 <= current_freq st' <= 108000000) /\
  (current_band st <> FM_BAND -> (0 < direction)%Z ->
     current_freq st' = current_freq st + 25000) /\
  (current_band st <> FM_BAND -> (0 < direction)%Z ->
   accepts tuner (current_freq st + 25000) = false ->
     in_step st -> ~ in_step st' /\ sdr st' = sdr st).
Proof.
  intros Hs st'. unfold st', tune_frequency, set_frequency.
  cbn [sdr with_freq current_freq current_band]. rewrite Hs.
  split; [|split].
  - intros Hb. rewrite Hb.
    destruct (accepts tuner _); cbn;
      unfold py_max, py_min; repeat destruct (Rlt_dec _ _); lra.
  - intros Hb Hd. apply Z.ltb_lt in Hd. rewrite Hd.
    destruct (current_band st); [congruence| |];
      destruct (accepts tuner _); reflexivity.
  - intros Hb Hd Ha Hin. apply Z.ltb_lt in Hd. rewrite Hd.
    unfold in_step in *. rewrite Hs in Hin.
    destruct (current_band st); [congruence| |];
      rewrite Ha; cbn; rewrite Hs; split; auto; lra.
Qed.

Lemma tune_frequency_limits_witness :
  88000000 <= current_freq (tune_frequency 1 (example_state false)) <= 108000000.
Proof.
  apply (proj1 (tune_frequency_limits (example_state false) 1
                  (mkTuner 101300000 (fun _ => false)) eq_refl)).
  reflexivity.
Defined.

Lemma PRESETS_not_empty (b : Band) : (0 < len (PRESETS b))%Z.
Proof.
  destruct b; unfold len; cbn; lia.
Qed.

Lemma load_preset_in_range (index : Z) (st : State) (preset : BandPreset) :
  (0 <= index < len (PRESETS (current_band st)))%Z ->
  nth_error (PRESETS (current_band st)) (Z.to_nat index) = Some preset ->
  load_preset index st = set_frequency (freq preset) st.
Proof.
  intros Hr Hnth. unfold load_preset. cbv zeta. rewrite Hnth.
  assert (((0 <=? index) && (index <? len (PRESETS (current_band st))))%Z = true) as ->.
  { apply andb_true_intro. split; [apply Z.leb_le|apply Z.ltb_lt]; lia. }
  reflexivity.
Qed.

Lemma scan_frequencies_scanning (st : State) :
  scanning st = true ->
  scan_frequencies st =
    load_preset ((preset_index st + 1) mod len (PRESETS (current_band st)))
      (with_index ((preset_index st + 1) mod len (PRESETS (current_band st))) st).
Proof.
  intros Hs. unfold scan_frequencies. rewrite Hs. cbn [negb].
  pose proof (PRESETS_not_empty (current_band st)) as Hn.
  destruct (PRESETS (current_band st)) as [|p ps] eqn:Hp; [unfold len in Hn; cbn in Hn; lia|].
  reflexivity.
Qed.

(** X28. A scan step walks the presets of the band in order and wraps:
    while scanning, the index becomes [(index + 1) mod n] for the [n]
    presets of the band, which is always an index of the band; when the
    tuner accepts, the frequency is that preset's, and when it refuses
    or is absent the index has moved on all the same while the
    frequency has not.  With scanning off a step changes nothing. *)
Theorem scan_step_walks_presets (st : State) :
  let st' := scan_frequencies st in
  let presets := PRESETS (current_band st) in
  let next := ((preset_index st + 1) mod len presets)%Z in
  (scanning st = false -> st' = st) /\
  (scanning st = true ->
     preset_index st' = next /\
     (0 <= next < len presets)%Z /\
     exists preset,
       nth_error presets (Z.to_nat next) = Some preset /\
       ((exists tuner, sdr st = Some tuner /\ accepts tuner (freq preset) = true) ->
          current_freq st' = freq preset) /\
       (~ (exists tuner, sdr st = Some tuner /\ accepts tuner (freq preset) = true) ->
          current_freq st' = current_freq st)).
Proof.
  intros st' presets next. unfold st'. split.
  - intros Hs. unfold scan_frequencies. now rewrite Hs.
  - intros Hs. rewrite (scan_frequencies_scanning st Hs). fold presets. fold next.
    pose proof (PRESETS_not_empty (current_band st)) as Hn. fold presets in Hn.
    assert (0 <= next < len presets)%Z as Hr by (apply Z.mod_pos_bound; exact Hn).
    destruct (py_getitem_in_range presets next Hr) as (preset & _ & Hnth).
    rewrite (load_preset_in_range next (with_index next st) preset Hr Hnth).
    unfold set_frequency. cbn [sdr with_index].
    split; [|split; [exact Hr|]].
    + destruct (sdr st) as [tuner|]; [|reflexivity].
      destruct (accepts tuner (freq preset)); reflexivity.
    + exists preset. split; [exact Hnth|]. split.
      * intros (tuner & Ht & Ha). rewrite Ht, Ha. reflexivity.
      * intros Hno. destruct (sdr st) as [tuner|] eqn:Ht; [|reflexivity].
        destruct (accepts tuner (freq preset)) eqn:Ha; [|reflexivity].
        exfalso. apply Hno. now exists tuner.
Qed.

Lemma scan_step_walks_presets_witness :
  preset_index (scan_frequencies (example_state true)) = 1%Z /\
  current_freq (scan_frequencies (example_state false)) = 101300000.
Proof.
  split.
  - apply (proj2 (scan_step_walks_presets (example_state true))). reflexivity.
  - destruct (proj2 (scan_step_walks_presets (example_state false)) eq_refl)
      as (_ & _ & preset & _ & _ & Hno).
    apply Hno. intros (tuner & Hs & Ha). injection Hs as <-. discriminate.
Defined.

End RTLScanner.

(** * The other audio path (src/Firmware/audio.py) *)

(** X29. [AudioOutput._demodulate] is safe for the 16-bit conversion
    whatever the volume is set to: after the clip, every value it
    multiplies by 32767 lies in [[-1, 1]], so every value handed to
    [astype(np.int16)] lies within -32767 and 32767, also for a volume
    outside 0 to 100, which [set_volume] does not refuse. *)
Theorem AudioOutput_pcm_in_range (volume : Z) (audio : list R) :
  Forall (fun v => -32767 <= v <= 32767) (AudioOutput_pcm volume audio) /\
  List.length (AudioOutput_pcm volume audio) = List.length audio.
Proof.
  split.
  - unfold AudioOutput_pcm. apply Forall_map.
    pose proof (AudioOutput_scaled_range volume audio) as H.
    apply Forall_impl with (2 := H). intros v Hv. cbn beta. lra.
  - unfold AudioOutput_pcm, AudioOutput_scaled. now rewrite !length_map.
Qed.
